(** * EffectPlanner: the scheduling and calendar core of [app.py]

    A shallow embedding of the pure helpers of [src/app.py] (calendar
    arithmetic, history-based time suggestion, busy-interval extraction,
    slot resolution and 12-hour time parsing), together with the part of
    the Python standard library they call ([datetime], [str], [int],
    [datetime.strptime]), followed by the properties stated in [spec.md].

    Conventions of the embedding.
    - Python integers are [Z]; text is an ASCII [string].
    - An exception is a value of [exn]; fallible code lives in the
      [result] monad ([Return] / [Raise]), and a [try ... except Exception]
      block is a [match] on the result.
    - A [dt.date] is the record of its three fields, as the library stores
      it; the library validates fields on construction ([date_new]), so a
      date value always satisfies [date_ok].
    - A naive [dt.datetime] is identified with its offset in microseconds
      from 0001-01-01T00:00:00, the coordinate in which the library does
      its arithmetic and comparisons; valid values lie in [0, MAX_US].
      The planner writes naive local wall-clock values (spec.md, section 1
      and section 3), but the store is read from a file: text carrying a
      UTC offset parses to an aware value ([stamp]), and ordering an aware
      against a naive value raises [TypeError].
    - A stored record is a dictionary from field names to JSON values,
      read with [get] as the code reads it with [ev.get]. *)

From Stdlib Require Import ZArith Lia List String Ascii Bool QArith.
From Stdlib Require Import Sorting.Sorted Sorting.Permutation.
From stdpp Require Import gmap strings.
Import ListNotations.
Open Scope Z_scope.

Set Warnings "-register-all".

(** ** Exceptions and the error monad *)

Inductive exn := ValueError | OverflowError | TypeError.

Inductive result (A : Type) :=
| Return (a : A)
| Raise (e : exn).
Arguments Return {A} a.
Arguments Raise {A} e.

Definition bind {A B : Type} (c : result A) (k : A -> result B) : result B :=
  match c with
  | Return a => k a
  | Raise e => Raise e
  end.

Notation "'do' x <- c ; k" := (bind c (fun x => k))
  (at level 10, x pattern, c at level 100, k at level 200).

(** ** The [datetime] library: calendar tables and ordinals

    These follow the reference implementation of the library
    ([_is_leap], [_days_before_year], [_days_in_month],
    [_days_before_month], [_ymd2ord], [_ord2ymd]). *)

Definition MINYEAR : Z := 1.
Definition MAXYEAR : Z := 9999.
Definition MAXORDINAL : Z := 3652059.

Definition _is_leap (year : Z) : bool :=
  (year mod 4 =? 0) && (negb (year mod 100 =? 0) || (year mod 400 =? 0)).

Definition _DAYS_IN_MONTH (month : Z) : Z :=
  match month with
  | 1 => 31 | 2 => 28 | 3 => 31 | 4 => 30 | 5 => 31 | 6 => 30
  | 7 => 31 | 8 => 31 | 9 => 30 | 10 => 31 | 11 => 30 | 12 => 31
  | _ => -1
  end.

Definition _DAYS_BEFORE_MONTH (month : Z) : Z :=
  match month with
  | 1 => 0 | 2 => 31 | 3 => 59 | 4 => 90 | 5 => 120 | 6 => 151
  | 7 => 181 | 8 => 212 | 9 => 243 | 10 => 273 | 11 => 304 | 12 => 334
  | _ => -1
  end.

Definition _days_before_year (year : Z) : Z :=
  let y := year - 1 in y * 365 + y / 4 - y / 100 + y / 400.

Definition _days_in_month (year month : Z) : Z :=
  if (month =? 2) && _is_leap year then 29 else _DAYS_IN_MONTH month.

Definition _days_before_month (year month : Z) : Z :=
  _DAYS_BEFORE_MONTH month + (if (month >? 2) && _is_leap year then 1 else 0).

Definition _ymd2ord (year month day : Z) : Z :=
  _days_before_year year + _days_before_month year month + day.

(** Position of day number [n] (0-based) inside a year: month and day. *)
Definition _month_day (leapyear : bool) (n : Z) : Z * Z :=
  let month := Z.shiftr (n + 50) 5 in
  let preceding :=
    _DAYS_BEFORE_MONTH month + (if (month >? 2) && leapyear then 1 else 0) in
  let '(month, preceding) :=
    if preceding >? n
    then (month - 1,
          preceding - (_DAYS_IN_MONTH (month - 1)
                       + (if (month - 1 =? 2) && leapyear then 1 else 0)))
    else (month, preceding) in
  (month, n - preceding + 1).

Definition _ord2ymd (n0 : Z) : Z * Z * Z :=
  let n := n0 - 1 in
  let n400 := n / 146097 in
  let n := n mod 146097 in
  let year := n400 * 400 + 1 in
  let n100 := n / 36524 in
  let n := n mod 36524 in
  let n4 := n / 1461 in
  let n := n mod 1461 in
  let n1 := n / 365 in
  let n := n mod 365 in
  let year := year + n100 * 100 + n4 * 4 + n1 in
  if (n1 =? 4) || (n100 =? 4) then (year - 1, 12, 31)
  else
    let leapyear := (n1 =? 3) && (negb (n4 =? 24) || (n100 =? 3)) in
    let '(month, day) := _month_day leapyear n in
    (year, month, day).

(** ** [dt.date] *)

Record date := mkdate { year : Z; month : Z; day : Z }.

Definition date_eqb (a b : date) : bool :=
  (year a =? year b) && (month a =? month b) && (day a =? day b).

Definition check_date_fields (y m d : Z) : bool :=
  (MINYEAR <=? y) && (y <=? MAXYEAR) && (1 <=? m) && (m <=? 12)
  && (1 <=? d) && (d <=? _days_in_month y m).

(** The invariant of every [dt.date] value. *)
Definition date_ok (d : date) : Prop :=
  check_date_fields (year d) (month d) (day d) = true.

(** [dt.date(y, m, d)]. *)
Definition date_new (y m d : Z) : result date :=
  if check_date_fields y m d then Return (mkdate y m d) else Raise ValueError.

(** [d.toordinal()]. *)
Definition toordinal (d : date) : Z := _ymd2ord (year d) (month d) (day d).

(** [dt.date.fromordinal(n)]. *)
Definition fromordinal (n : Z) : result date :=
  let '(y, m, d) := _ord2ymd n in date_new y m d.

(** [d.weekday()]: Monday is 0, Sunday is 6. *)
Definition weekday (d : date) : Z := (toordinal d + 6) mod 7.

(** [d - dt.timedelta(days=n)]. *)
Definition date_sub_days (d : date) (n : Z) : result date :=
  let o := toordinal d - n in
  if (0 <? o) && (o <=? MAXORDINAL) then fromordinal o
  else Raise OverflowError.

(** ** [dt.time] *)

Record time := mktime { hour : Z; minute : Z; second : Z; microsecond : Z }.

(** [dt.time(h, m)]. *)
Definition time_new (h m : Z) : result time :=
  if (0 <=? h) && (h <=? 23) && (0 <=? m) && (m <=? 59)
  then Return (mktime h m 0 0) else Raise ValueError.

(** ** [dt.timedelta] and naive [dt.datetime], in microseconds *)

Definition US_PER_SECOND : Z := 1000000.
Definition US_PER_MINUTE : Z := 60 * US_PER_SECOND.
Definition US_PER_DAY : Z := 86400 * US_PER_SECOND.
Definition MAX_US : Z := MAXORDINAL * US_PER_DAY - 1.
Definition MAX_DELTA_DAYS : Z := 999999999.

Abbreviation timedelta := Z.
Abbreviation datetime := Z.

Definition timedelta_ok (us : Z) : bool :=
  (- MAX_DELTA_DAYS <=? us / US_PER_DAY) && (us / US_PER_DAY <=? MAX_DELTA_DAYS).

(** [dt.timedelta(minutes=n)]. *)
Definition timedelta_minutes (n : Z) : result timedelta :=
  let us := n * US_PER_MINUTE in
  if timedelta_ok us then Return us else Raise OverflowError.

Definition time_us (t : time) : Z :=
  ((hour t * 60 + minute t) * 60 + second t) * US_PER_SECOND + microsecond t.

Definition datetime_ok (x : datetime) : bool := (0 <=? x) && (x <=? MAX_US).

(** [dt.datetime.combine(d, t)]. *)
Definition datetime_combine (d : date) (t : time) : datetime :=
  (toordinal d - 1) * US_PER_DAY + time_us t.

(** [x.date()]. *)
Definition datetime_date (x : datetime) : date :=
  let '(y, m, d) := _ord2ymd (x / US_PER_DAY + 1) in mkdate y m d.

(** [x + delta] and [x - delta]. *)
Definition datetime_add (x : datetime) (delta : timedelta) : result datetime :=
  if datetime_ok (x + delta) then Return (x + delta) else Raise OverflowError.

Definition datetime_sub (x : datetime) (delta : timedelta) : result datetime :=
  if datetime_ok (x - delta) then Return (x - delta) else Raise OverflowError.

(** [dt.datetime(y, m, d, hh, mm, ss, us)]. *)
Definition datetime_new (y m d hh mm ss us : Z) : result datetime :=
  if check_date_fields y m d
     && (0 <=? hh) && (hh <=? 23) && (0 <=? mm) && (mm <=? 59)
     && (0 <=? ss) && (ss <=? 59) && (0 <=? us) && (us <=? 999999)
  then Return (datetime_combine (mkdate y m d) (mktime hh mm ss us))
  else Raise ValueError.

(** ** [dt.datetime] values with or without a UTC offset

    What [fromisoformat] returns: a naive value is its wall-clock time, an
    aware value carries the offset of its [tzinfo] as well, in
    microseconds. *)

Inductive stamp :=
| Naive (x : datetime)
| Aware (x : datetime) (offset : Z).

Definition stamp_local (a : stamp) : datetime :=
  match a with
  | Naive x => x
  | Aware x _ => x
  end.

(** [a.date()]: the date on the wall clock of [a]. *)
Definition stamp_date (a : stamp) : date := datetime_date (stamp_local a).

(** The order comparisons [a < b], [a <= b], [a > b]: two naive values
    compare by wall clock, two aware values by instant, and a naive with
    an aware value raises [TypeError]. *)
Definition stamp_cmp (rel : Z -> Z -> bool) (a b : stamp) : result bool :=
  match a, b with
  | Naive x, Naive y => Return (rel x y)
  | Aware x o, Aware y p => Return (rel (x - o) (y - p))
  | _, _ => Raise TypeError
  end.

Definition stamp_lt : stamp -> stamp -> result bool := stamp_cmp Z.ltb.
Definition stamp_le : stamp -> stamp -> result bool := stamp_cmp Z.leb.
Definition stamp_gt : stamp -> stamp -> result bool := stamp_cmp Z.gtb.

(** [a == b] never raises: a naive and an aware value are unequal. *)
Definition stamp_eqb (a b : stamp) : bool :=
  match a, b with
  | Naive x, Naive y => x =? y
  | Aware x o, Aware y p => x - o =? y - p
  | _, _ => false
  end.

(** [a + delta] keeps the [tzinfo] of [a]; the range check is on the wall
    clock. *)
Definition stamp_add (a : stamp) (delta : timedelta) : result stamp :=
  match a with
  | Naive x => do y <- datetime_add x delta; Return (Naive y)
  | Aware x o => do y <- datetime_add x delta; Return (Aware y o)
  end.

(** ** Python text: [str] methods and [int] on ASCII strings *)

Definition is_space (c : ascii) : bool :=
  let n := nat_of_ascii c in
  ((9 <=? n) && (n <=? 13) || (28 <=? n) && (n <=? 32))%nat.

Definition is_digit (c : ascii) : bool :=
  let n := nat_of_ascii c in ((48 <=? n) && (n <=? 57))%nat.

Definition digit_val (c : ascii) : Z := Z.of_nat (nat_of_ascii c) - 48.

Definition upper_char (c : ascii) : ascii :=
  let n := nat_of_ascii c in
  if ((97 <=? n) && (n <=? 122))%nat then ascii_of_nat (n - 32) else c.

Fixpoint str_map (f : ascii -> ascii) (s : string) : string :=
  match s with
  | EmptyString => EmptyString
  | String c r => String (f c) (str_map f r)
  end.

(** [s.upper()]. *)
Definition upper (s : string) : string := str_map upper_char s.

Fixpoint lstrip (s : string) : string :=
  match s with
  | EmptyString => EmptyString
  | String c r => if is_space c then lstrip r else s
  end.

Fixpoint rstrip (s : string) : string :=
  match s with
  | EmptyString => EmptyString
  | String c r =>
      match rstrip r with
      | EmptyString => if is_space c then EmptyString else String c EmptyString
      | r' => String c r'
      end
  end.

(** [s.strip()]. *)
Definition strip (s : string) : string := rstrip (lstrip s).

(** [s.replace(c, "")] for a one-character [c]. *)
Fixpoint remove_char (c : ascii) (s : string) : string :=
  match s with
  | EmptyString => EmptyString
  | String a r => if Ascii.eqb a c then remove_char c r else String a (remove_char c r)
  end.

(** [s[i:j]] for [0 <= i <= j]. *)
Definition slice (s : string) (i j : nat) : string := String.substring i (j - i) s.

(** [needle in hay] for two strings. *)
Fixpoint str_contains (needle hay : string) : bool :=
  String.prefix needle hay
  || match hay with
     | EmptyString => false
     | String _ r => str_contains needle r
     end.

(** Decimal digits with single underscores between them, as [int] reads
    them; [prev] tells whether the previous character was a digit. *)
Fixpoint int_digits (s : string) (acc : Z) (prev : bool) : option Z :=
  match s with
  | EmptyString => if prev then Some acc else None
  | String c r =>
      if is_digit c then int_digits r (acc * 10 + digit_val c) true
      else if Ascii.eqb c "_" && prev then int_digits r acc false
      else None
  end.

(** The white space that [int] skips at both ends of its argument: tab,
    line feed, vertical tab, form feed, carriage return and space. The
    separators U+001C to U+001F, which [str.strip] removes, are not among
    them. *)
Definition is_int_space (c : ascii) : bool :=
  let n := nat_of_ascii c in
  ((9 <=? n) && (n <=? 13) || (n =? 32))%nat.

Fixpoint int_lstrip (s : string) : string :=
  match s with
  | EmptyString => EmptyString
  | String c r => if is_int_space c then int_lstrip r else s
  end.

Fixpoint int_rstrip (s : string) : string :=
  match s with
  | EmptyString => EmptyString
  | String c r =>
      match int_rstrip r with
      | EmptyString => if is_int_space c then EmptyString else String c EmptyString
      | r' => String c r'
      end
  end.

(** [int(s)] for a string [s]; [None] stands for [ValueError]. *)
Definition py_int (s : string) : option Z :=
  match int_rstrip (int_lstrip s) with
  | String "-" r => option_map Z.opp (int_digits r 0 false)
  | String "+" r => int_digits r 0 false
  | t => int_digits t 0 false
  end.

(** ** JSON values and stored records

    The event store is the list decoded from [events.json]; a record is a
    dictionary from field names to JSON values. Numbers are observed only
    through their truth value, so integers stand for all of them. *)

Inductive jval :=
| JNull
| JBool (b : bool)
| JNum (n : Z)
| JStr (s : string)
| JArr (l : list jval)
| JObj (l : list (string * jval)).

Abbreviation event := (gmap string jval).

(** [ev.get(key)] and [ev.get(key, default)]. *)
Definition get (ev : event) (key : string) : jval := default JNull (ev !! key).
Definition get_default (ev : event) (key : string) (dflt : jval) : jval :=
  default dflt (ev !! key).

(** Truth value of a Python object. *)
Definition truthy (v : jval) : bool :=
  match v with
  | JNull => false
  | JBool b => b
  | JNum n => negb (n =? 0)
  | JStr s => negb (String.eqb s "")
  | JArr l => match l with [] => false | _ => true end
  | JObj l => match l with [] => false | _ => true end
  end.

(** [v == s] for a string [s]. *)
Definition eq_str (v : jval) (s : string) : bool :=
  match v with
  | JStr t => String.eqb t s
  | _ => false
  end.

(** [a or b]. *)
Definition py_or (a b : jval) : jval := if truthy a then a else b.

(** [tag in v]: membership in a list, substring of a string, key of a
    dictionary; any other operand is not iterable. *)
Definition py_in (tag : string) (v : jval) : result bool :=
  match v with
  | JArr l => Return (existsb (fun x => eq_str x tag) l)
  | JStr s => Return (str_contains tag s)
  | JObj l => Return (existsb (fun kv => String.eqb (fst kv) tag) l)
  | _ => Raise TypeError
  end.

(** ** [dt.datetime.fromisoformat]

    The library reads the seven fields and, when the text ends in one,
    the UTC offset off the text; it hands the fields to the validating
    constructor and the offset to [timezone], which accepts offsets
    strictly between minus and plus 24 hours. The properties below hold
    whatever text the library accepts, so the grammar is an interface;
    [iso_standard] is the grammar of the strings that [isoformat()] writes,
    [YYYY-MM-DD*HH[:MM[:SS[.fff[fff]]]][+HH:MM[:SS[.ffffff]]]], the offset
    being given in microseconds. *)

Class IsoGrammar :=
  iso_fields : string -> option (Z * Z * Z * Z * Z * Z * Z * option Z).

Definition fromisoformat `{IsoGrammar} (s : string) : result stamp :=
  match iso_fields s with
  | Some (y, m, d, hh, mm, ss, us, tz) =>
      do x <- datetime_new y m d hh mm ss us;
      match tz with
      | None => Return (Naive x)
      | Some offset =>
          if (- US_PER_DAY <? offset) && (offset <? US_PER_DAY)
          then Return (Aware x offset) else Raise ValueError
      end
  | None => Raise ValueError
  end.

(** Exactly [n] decimal digits at the head of [s]. *)
Fixpoint take_digits (n : nat) (acc : Z) (s : string) : option (Z * string) :=
  match n with
  | O => Some (acc, s)
  | S k =>
      match s with
      | String c r =>
          if is_digit c then take_digits k (acc * 10 + digit_val c) r else None
      | EmptyString => None
      end
  end.

Definition expect (c : ascii) (s : string) : option string :=
  match s with
  | String a r => if Ascii.eqb a c then Some r else None
  | EmptyString => None
  end.

Definition iso_fraction (s : string) : option Z :=
  match String.length s with
  | 3%nat => '(us, _) ← take_digits 3 0 s; Some (us * 1000)
  | 6%nat => '(us, _) ← take_digits 6 0 s; Some us
  | _ => None
  end.

Definition iso_time (y m d : Z) (s : string)
  : option (Z * Z * Z * Z * Z * Z * Z) :=
  '(hh, s) ← take_digits 2 0 s;
  match s with
  | EmptyString => Some (y, m, d, hh, 0, 0, 0)
  | _ =>
      s ← expect ":" s;
      '(mm, s) ← take_digits 2 0 s;
      match s with
      | EmptyString => Some (y, m, d, hh, mm, 0, 0)
      | _ =>
          s ← expect ":" s;
          '(ss, s) ← take_digits 2 0 s;
          match s with
          | EmptyString => Some (y, m, d, hh, mm, ss, 0)
          | _ =>
              s ← expect "." s;
              us ← iso_fraction s;
              Some (y, m, d, hh, mm, ss, us)
          end
      end
  end.

(** The text up to the first sign character and, when there is one, the
    sign and the text after it. *)
Fixpoint sign_cut (s : string) : string * option (bool * string) :=
  match s with
  | EmptyString => (EmptyString, None)
  | String c r =>
      if Ascii.eqb c "+" then (EmptyString, Some (false, r))
      else if Ascii.eqb c "-" then (EmptyString, Some (true, r))
      else let '(t, tz) := sign_cut r in (String c t, tz)
  end.

(** The offset [HH:MM], [HH:MM:SS] or [HH:MM:SS.ffffff] after the sign. *)
Definition iso_offset (negative : bool) (s : string) : option Z :=
  match String.length s with
  | 5%nat | 8%nat | 15%nat =>
      '(_, _, _, hh, mm, ss, us) ← iso_time 0 0 0 s;
      let offset := ((hh * 60 + mm) * 60 + ss) * US_PER_SECOND + us in
      Some (if negative then - offset else offset)
  | _ => None
  end.

Definition iso_standard (s : string)
  : option (Z * Z * Z * Z * Z * Z * Z * option Z) :=
  '(y, s) ← take_digits 4 0 s;
  s ← expect "-" s;
  '(m, s) ← take_digits 2 0 s;
  s ← expect "-" s;
  '(d, s) ← take_digits 2 0 s;
  match s with
  | EmptyString => Some (y, m, d, 0, 0, 0, 0, None)
  | String _ s =>
      let '(t, tz) := sign_cut s in
      f ← iso_time y m d t;
      match tz with
      | None => Some (f, None)
      | Some (negative, z) => offset ← iso_offset negative z; Some (f, Some offset)
      end
  end.

#[export] Instance iso_standard_grammar : IsoGrammar := iso_standard.

(** ** [dt.datetime.strptime] for the directives of the five patterns

    The library turns a format into a regular expression, takes its first
    match at the head of the text and rejects the text when the match
    leaves characters over. The alternatives of each directive are tried
    in the order of the library's expressions:
    [%I] is [1[0-2]|0[1-9]|[1-9]], [%M] is [[0-5]\d|\d],
    [%H] is [2[0-3]|[0-1]\d|\d], [%p] is [am|pm] (ignoring case), and
    white space in the format is [\s+]. *)

Inductive directive := D_I | D_M | D_H | D_p | D_space | D_lit (c : ascii).

Fixpoint compile_format (fmt : string) (after_space : bool)
  : option (list directive) :=
  match fmt with
  | EmptyString => Some []
  | String "%" (String c r) =>
      d ← (if Ascii.eqb c "I" then Some D_I
            else if Ascii.eqb c "M" then Some D_M
            else if Ascii.eqb c "H" then Some D_H
            else if Ascii.eqb c "p" then Some D_p
            else None);
      ds ← compile_format r false;
      Some (d :: ds)
  | String c r =>
      if is_space c
      then (if after_space then compile_format r true
            else ds ← compile_format r true; Some (D_space :: ds))
      else ds ← compile_format r false; Some (D_lit c :: ds)
  end.

Record fields := mkfields { f_I : option Z; f_M : option Z; f_H : option Z;
                            f_p : option bool }.

Definition no_fields : fields := mkfields None None None None.

Definition in_range (c : ascii) (lo hi : ascii) : bool :=
  ((nat_of_ascii lo <=? nat_of_ascii c) && (nat_of_ascii c <=? nat_of_ascii hi))%nat.

(** The matches of two characters, then of one, in that order. *)
Definition two_then_one (two : ascii -> ascii -> option Z)
    (one : ascii -> option Z) (s : string) : list (Z * string) :=
  (match s with
   | String a (String b r) =>
       match two a b with Some v => [(v, r)] | None => [] end
   | _ => []
   end)
  ++ (match s with
      | String a r => match one a with Some v => [(v, r)] | None => [] end
      | EmptyString => []
      end).

Definition match_I (s : string) : list (Z * string) :=
  two_then_one
    (fun a b =>
       if Ascii.eqb a "1" && in_range b "0" "2" then Some (10 + digit_val b)
       else if Ascii.eqb a "0" && in_range b "1" "9" then Some (digit_val b)
       else None)
    (fun a => if in_range a "1" "9" then Some (digit_val a) else None) s.

Definition match_M (s : string) : list (Z * string) :=
  two_then_one
    (fun a b =>
       if in_range a "0" "5" && is_digit b
       then Some (digit_val a * 10 + digit_val b) else None)
    (fun a => if is_digit a then Some (digit_val a) else None) s.

Definition match_H (s : string) : list (Z * string) :=
  two_then_one
    (fun a b =>
       if Ascii.eqb a "2" && in_range b "0" "3" then Some (20 + digit_val b)
       else if in_range a "0" "1" && is_digit b
            then Some (digit_val a * 10 + digit_val b)
       else None)
    (fun a => if is_digit a then Some (digit_val a) else None) s.

(** [true] is PM. *)
Definition match_p (s : string) : list (bool * string) :=
  match s with
  | String a (String b r) =>
      if Ascii.eqb (upper_char b) "M"
      then if Ascii.eqb (upper_char a) "A" then [(false, r)]
           else if Ascii.eqb (upper_char a) "P" then [(true, r)]
           else []
      else []
  | _ => []
  end.

(** [\s+]: the longest run first, then shorter ones. *)
Fixpoint match_space (s : string) : list string :=
  match s with
  | String c r => if is_space c then match_space r ++ [r] else []
  | EmptyString => []
  end.

Definition match_directive (d : directive) (f : fields) (s : string)
  : list (fields * string) :=
  match d with
  | D_I => map (fun '(v, r) => (mkfields (Some v) (f_M f) (f_H f) (f_p f), r)) (match_I s)
  | D_M => map (fun '(v, r) => (mkfields (f_I f) (Some v) (f_H f) (f_p f), r)) (match_M s)
  | D_H => map (fun '(v, r) => (mkfields (f_I f) (f_M f) (Some v) (f_p f), r)) (match_H s)
  | D_p => map (fun '(v, r) => (mkfields (f_I f) (f_M f) (f_H f) (Some v), r)) (match_p s)
  | D_space => map (fun r => (f, r)) (match_space s)
  | D_lit c =>
      match s with
      | String a r => if Ascii.eqb (upper_char a) (upper_char c) then [(f, r)] else []
      | EmptyString => []
      end
  end.

Fixpoint match_format (ds : list directive) (f : fields) (s : string)
  : list (fields * string) :=
  match ds with
  | [] => [(f, s)]
  | d :: ds' =>
      flat_map (fun '(f', r) => match_format ds' f' r) (match_directive d f s)
  end.

(** The hour of the parsed value: [%H] as read, [%I] adjusted by [%p]
    (12 AM is 0, PM adds 12 except at 12). *)
Definition fields_hour (f : fields) : Z :=
  match f_I f with
  | Some h =>
      match f_p f with
      | Some true => if h =? 12 then h else h + 12
      | _ => if h =? 12 then 0 else h
      end
  | None => default 0 (f_H f)
  end.

(** [dt.datetime.strptime(text, fmt).time()]. *)
Definition strptime_time (text fmt : string) : result time :=
  match compile_format fmt false with
  | None => Raise ValueError
  | Some ds =>
      match match_format ds no_fields text with
      | (f, EmptyString) :: _ => Return (mktime (fields_hour f) (default 0 (f_M f)) 0 0)
      | _ => Raise ValueError
      end
  end.

(** ** [list.sort(key=...)]

    A stable sort that compares keys with [<] only; the result of a stable
    sort is determined by the input, so straight insertion stands for the
    library's algorithm. Comparing a naive with an aware key raises
    [TypeError], which every comparison sort meets as soon as the list
    holds keys of both kinds. *)

Fixpoint insert_by_start (x : stamp * stamp) (l : list (stamp * stamp))
  : result (list (stamp * stamp)) :=
  match l with
  | [] => Return [x]
  | y :: r =>
      do before <- stamp_lt (fst y) (fst x);
      if before then do r' <- insert_by_start x r; Return (y :: r')
      else Return (x :: y :: r)
  end.

Fixpoint sort_by_start (l : list (stamp * stamp)) : result (list (stamp * stamp)) :=
  match l with
  | [] => Return []
  | x :: r => do r' <- sort_by_start r; insert_by_start x r'
  end.

(** * The functions of [app.py] *)

(** ** Date helpers *)

Definition last_day_of_month (y m : Z) : result date :=
  if m =? 12 then date_new y 12 31
  else do d <- date_new y (m + 1) 1; date_sub_days d 1.

(** [while m > 12: y += 1; m -= 12], at most [fuel] rounds. *)
Fixpoint carry_up (fuel : nat) (y m : Z) : Z * Z :=
  match fuel with
  | O => (y, m)
  | S k => if m >? 12 then carry_up k (y + 1) (m - 12) else (y, m)
  end.

(** [while m < 1: y -= 1; m += 12], at most [fuel] rounds. *)
Fixpoint carry_down (fuel : nat) (y m : Z) : Z * Z :=
  match fuel with
  | O => (y, m)
  | S k => if m <? 1 then carry_down k (y - 1) (m + 12) else (y, m)
  end.

(** The two loops of [add_months]; the fuel covers every round they can
    make ([month_carry_exits]). *)
Definition month_carry (y m : Z) : Z * Z :=
  let '(y, m) := carry_up (Z.to_nat m) y m in
  carry_down (Z.to_nat (1 - m)) y m.

Definition add_months (anchor : date) (delta_months : Z) : result date :=
  let y := year anchor in
  let m := month anchor + delta_months in
  let '(y, m) := month_carry y m in
  do ld <- last_day_of_month y m;
  let d := Z.min (day anchor) (day ld) in
  date_new y m d.

Definition start_of_week (d : date) (week_starts_monday : bool) : result date :=
  let wd := weekday d in
  if week_starts_monday then date_sub_days d wd
  else
    let sunday_index := (wd + 1) mod 7 in
    date_sub_days d sunday_index.

(** ** AI time helpers *)

(** [int(m)] for a number [m]: truncation towards zero. The mean of the
    history is a quotient of integers; it is kept as an exact rational,
    which [int] of the floating-point quotient agrees with as long as the
    sum of the offsets plus their number stays below 2^53. *)
Definition int_of_number (m : Q) : Z := Z.quot (Qnum m) (Z.pos (Qden m)).

Definition _time_from_minutes (m : Q) : result time :=
  let m := Z.max 0 (Z.min (23 * 60 + 59) (int_of_number m)) in
  time_new (m / 60) (m mod 60).

Definition suggest_research_time (tag : string) : time :=
  if String.eqb tag "School" then mktime 17 0 0 0
  else if String.eqb tag "Work" then mktime 16 0 0 0
  else if String.eqb tag "Family" then mktime 18 30 0 0
  else if String.eqb tag "Fitness" then mktime 16 30 0 0
  else if String.eqb tag "Health" then mktime 20 0 0 0
  else if String.eqb tag "Finance" then mktime 19 0 0 0
  else if String.eqb tag "Travel" then mktime 10 0 0 0
  else if String.eqb tag "Personal" then mktime 20 30 0 0
  else mktime 17 0 0 0.

(** The [try] block of the loop body: the two [int] conversions. *)
Definition start_minutes (start : string) : option Z :=
  hh ← py_int (slice start 11 13);
  mm ← py_int (slice start 14 16);
  Some (hh * 60 + mm).

(** The loop of [suggest_best_time_from_history]; [mins] is the list built
    so far. *)
Fixpoint history_mins (events : list event) (tag : string) (mins : list Z)
  : result (list Z) :=
  match events with
  | [] => Return mins
  | ev :: rest =>
      if negb (eq_str (get ev "kind") "event") then history_mins rest tag mins
      else
        let tags := py_or (get ev "tags") (JArr []) in
        do found <- py_in tag tags;
        if negb found then history_mins rest tag mins
        else
          match get_default ev "start" (JStr "") with
          | JStr start =>
              if str_contains "T" start && (16 <=? String.length start)%nat
              then match start_minutes start with
                   | Some v => history_mins rest tag (mins ++ [v])
                   | None => history_mins rest tag mins
                   end
              else history_mins rest tag mins
          | _ => history_mins rest tag mins
          end
  end.

Definition sum (l : list Z) : Z := fold_left Z.add l 0.

Definition suggest_best_time_from_history (events : list event) (tag : string)
  : result time :=
  do mins <- history_mins events tag [];
  match mins with
  | [] => Return (suggest_research_time tag)
  | _ => _time_from_minutes (inject_Z (sum mins) / inject_Z (Z.of_nat (length mins)))%Q
  end.

(** ** Overlap-avoidance for AI scheduling *)

Definition _parse_iso_dt `{IsoGrammar} (s : jval) : option stamp :=
  match s with
  | JStr s =>
      if negb (str_contains "T" s) then None
      else match fromisoformat s with
           | Return x => Some x
           | Raise _ => None
           end
  | _ => None
  end.

(** The loop of [_busy_intervals_for_date]; [intervals] is the list built
    so far. A datetime is always true, so [not s or not e] asks whether
    one of the two is [None]. *)
Fixpoint busy_loop `{IsoGrammar} (events : list event) (day : date)
    (intervals : list (stamp * stamp)) : result (list (stamp * stamp)) :=
  match events with
  | [] => Return intervals
  | ev :: rest =>
      if negb (eq_str (get ev "kind") "event") then busy_loop rest day intervals
      else if truthy (get ev "allDay") then busy_loop rest day intervals
      else
        let s := _parse_iso_dt (get_default ev "start" (JStr "")) in
        let e := _parse_iso_dt (get_default ev "end" (JStr "")) in
        match s, e with
        | Some s, Some e =>
            if negb (date_eqb (stamp_date s) day) then busy_loop rest day intervals
            else
              do empty <- stamp_le e s;
              if empty then busy_loop rest day intervals
              else busy_loop rest day (intervals ++ [(s, e)])
        | _, _ => busy_loop rest day intervals
        end
  end.

Definition _busy_intervals_for_date `{IsoGrammar} (events : list event) (day : date)
  : result (list (stamp * stamp)) :=
  do intervals <- busy_loop events day [];
  sort_by_start intervals.

(** [and] evaluates its second operand only when the first is true. *)
Definition _overlaps (a_start a_end b_start b_end : stamp) : result bool :=
  do before <- stamp_lt a_start b_end;
  if before then stamp_gt a_end b_start else Return false.

(** The inner [for bs, be in intervals] loop: the first interval that
    overlaps the window, if any. *)
Fixpoint first_conflict (start end_ : stamp) (intervals : list (stamp * stamp))
  : result (option (stamp * stamp)) :=
  match intervals with
  | [] => Return None
  | (bs, be) :: rest =>
      do hit <- _overlaps start end_ bs be;
      if hit then Return (Some (bs, be)) else first_conflict start end_ rest
  end.

(** The [for _ in range(200)] loop of [find_next_free_slot], with the
    number of rounds left. *)
Fixpoint slot_loop (rounds : nat) (intervals : list (stamp * stamp))
    (latest_start : stamp) (duration : timedelta) (start end_ : stamp)
  : result (stamp * stamp) :=
  match rounds with
  | O => Return (start, end_)
  | S k =>
      do conflict <- first_conflict start end_ intervals;
      match conflict with
      | None => Return (start, end_)
      | Some conflict =>
          let start := snd conflict in
          do late <- stamp_gt start latest_start;
          let start := if late then latest_start else start in
          do end_ <- stamp_add start duration;
          if stamp_eqb start latest_start then Return (start, end_)
          else slot_loop k intervals latest_start duration start end_
      end
  end.

(** [max(day_start, proposed_start)] keeps [day_start] unless
    [proposed_start > day_start]. *)
Definition find_next_free_slot `{IsoGrammar} (events : list event) (day : date)
    (proposed_start : stamp) (duration_min : Z)
  : result (stamp * stamp) :=
  do duration <- timedelta_minutes duration_min;
  let day_start := datetime_combine day (mktime 0 0 0 0) in
  let day_end := datetime_combine day (mktime 23 59 0 0) in
  do latest_start <- datetime_sub day_end duration;
  let latest_start := if latest_start <? day_start then day_start else latest_start in
  do above <- stamp_gt proposed_start (Naive day_start);
  let start := if above then proposed_start else Naive day_start in
  do late <- stamp_gt start (Naive latest_start);
  let start := if late then Naive latest_start else start in
  do end_ <- stamp_add start duration;
  do intervals <- _busy_intervals_for_date events day;
  match intervals with
  | [] => Return (start, end_)
  | _ => slot_loop 200 intervals (Naive latest_start) duration start end_
  end.

(** ** Manual time parsing *)

Definition candidates : list string :=
  ["%I %p"; "%I:%M %p"; "%I%p"; "%I:%M%p"; "%H:%M"]%string.

(** The [for fmt in candidates] loop: the first pattern that parses wins. *)
Fixpoint try_formats (fmts : list string) (text : string) (fallback : time) : time :=
  match fmts with
  | [] => fallback
  | fmt :: rest =>
      match (do t <- strptime_time text fmt; time_new (hour t) (minute t)) with
      | Return t => t
      | Raise _ => try_formats rest text fallback
      end
  end.

Definition _parse_time_12h (s : jval) (fallback : time) : time :=
  match s with
  | JStr s =>
      let text := remove_char "." (upper (strip s)) in
      if String.eqb text "" then fallback
      else try_formats candidates text fallback
  | _ => fallback
  end.

(** * Vocabulary of the statements *)

(** ** Calendar tables, checked entry by entry *)

Definition leap_days (leap : bool) : Z := if leap then 1 else 0.

Definition month_day_ok (leap : bool) (k : Z) : bool :=
  let '(m, d) := _month_day leap k in
  (1 <=? m) && (m <=? 12) && (1 <=? d)
  && (d <=? (if (m =? 2) && leap then 29 else _DAYS_IN_MONTH m))
  && (_DAYS_BEFORE_MONTH m + (if (m >? 2) && leap then 1 else 0) + d =? k + 1).

Definition month_day_inv_ok (leap : bool) (m d : Z) : bool :=
  let k := _DAYS_BEFORE_MONTH m + (if (m >? 2) && leap then 1 else 0) + d - 1 in
  (365 <=? k) ||
  (let '(m', d') := _month_day leap k in (m' =? m) && (d' =? d)).


(** ** Month arithmetic *)

(** Year and month reached from [anchor] after [delta] months: the month
    index is carried into the year in units of twelve. *)
Definition target_year (anchor : date) (delta : Z) : Z :=
  year anchor + (month anchor + delta - 1) / 12.

Definition target_month (anchor : date) (delta : Z) : Z :=
  (month anchor + delta - 1) mod 12 + 1.

(** 0001-01-07, the first Sunday of the calendar. *)
Definition first_sunday : date := mkdate 1 1 7.

(** ** Slot resolution *)

(** 00:00 and 23:59 of [day], and the latest admissible start of a slot. *)
Definition day_start (day : date) : datetime := datetime_combine day (mktime 0 0 0 0).
Definition day_end (day : date) : datetime := datetime_combine day (mktime 23 59 0 0).

Definition latest_start (day : date) (duration_min : Z) : datetime :=
  Z.max (day_start day) (day_end day - duration_min * US_PER_MINUTE).

(** The two datetimes the search computes before it looks at the store,
    [day_end - duration] and [latest_start + duration], are values of the
    library's datetime type. *)
Definition slot_representable (day : date) (duration_min : Z) : Prop :=
  0 <= day_end day - duration_min * US_PER_MINUTE
  /\ latest_start day duration_min + duration_min * US_PER_MINUTE <= MAX_US.

(** Every instant of [[a, b)] lies in some interval of the list. *)
Definition covers (intervals : list (datetime * datetime)) (a b : datetime) : Prop :=
  forall t, a <= t < b ->
    exists bs be, In (bs, be) intervals /\ bs <= t < be.

(** ** Busy intervals, in the words of the specification *)

(** The record [ev] is a timed event of [day] running from [s] to [e],
    both read as naive timestamps. *)
Definition is_busy_on `{IsoGrammar} (day : date) (ev : event) (s e : datetime) : Prop :=
  get ev "kind" = JStr "event"
  /\ truthy (get ev "allDay") = false
  /\ _parse_iso_dt (get_default ev "start" (JStr "")) = Some (Naive s)
  /\ _parse_iso_dt (get_default ev "end" (JStr "")) = Some (Naive e)
  /\ datetime_date s = day
  /\ s < e.

(** The interval a record with naive timestamps contributes to [day], if
    any. *)
Definition busy_entry `{IsoGrammar} (day : date) (ev : event)
  : list (datetime * datetime) :=
  match _parse_iso_dt (get_default ev "start" (JStr "")),
        _parse_iso_dt (get_default ev "end" (JStr "")) with
  | Some (Naive s), Some (Naive e) =>
      if eq_str (get ev "kind") "event" && negb (truthy (get ev "allDay"))
         && date_eqb (datetime_date s) day && (s <? e)
      then [(s, e)] else []
  | _, _ => []
  end.

(** What one record adds to the list of the loop of
    [_busy_intervals_for_date]: nothing or one interval, unless the
    comparison of its end with its start raises. *)
Definition busy_step `{IsoGrammar} (day : date) (ev : event)
  : result (list (stamp * stamp)) :=
  if negb (eq_str (get ev "kind") "event") then Return []
  else if truthy (get ev "allDay") then Return []
  else
    match _parse_iso_dt (get_default ev "start" (JStr "")),
          _parse_iso_dt (get_default ev "end" (JStr "")) with
    | Some s, Some e =>
        if negb (date_eqb (stamp_date s) day) then Return []
        else do empty <- stamp_le e s; Return (if empty then [] else [(s, e)])
    | _, _ => Return []
    end.

(** ** Stores without UTC offsets

    The planner writes naive timestamps only. [naive_store] says that no
    start or end text of the store reads as an aware value; [lift] embeds
    a pair of naive values among the pairs the code handles. *)

Definition lift (i : datetime * datetime) : stamp * stamp :=
  (Naive (fst i), Naive (snd i)).

Definition is_naive (a : stamp) : bool :=
  match a with
  | Naive _ => true
  | Aware _ _ => false
  end.

Definition naive_pair (i : stamp * stamp) : bool := is_naive (fst i) && is_naive (snd i).

Definition offset_free `{IsoGrammar} (v : jval) : bool :=
  match _parse_iso_dt v with
  | Some (Aware _ _) => false
  | _ => true
  end.

Definition naive_record `{IsoGrammar} (ev : event) : bool :=
  offset_free (get_default ev "start" (JStr ""))
  && offset_free (get_default ev "end" (JStr "")).

Definition naive_store `{IsoGrammar} (events : list event) : bool :=
  forallb naive_record events.

(** What the sort, the overlap test and the rounds of the search compute on
    naive values, where no comparison can raise; the code's functions agree
    with them on lifted arguments ([sort_by_start_lift], [overlaps_lift],
    [slot_loop_lift]). *)

Fixpoint insert_naive (x : datetime * datetime) (l : list (datetime * datetime))
  : list (datetime * datetime) :=
  match l with
  | [] => [x]
  | y :: r => if fst y <? fst x then y :: insert_naive x r else x :: y :: r
  end.

Fixpoint sort_naive (l : list (datetime * datetime)) : list (datetime * datetime) :=
  match l with
  | [] => []
  | x :: r => insert_naive x (sort_naive r)
  end.

Definition intervals_naive `{IsoGrammar} (events : list event) (day : date)
  : list (datetime * datetime) :=
  sort_naive (flat_map (busy_entry day) events).

Definition overlaps_naive (a_start a_end b_start b_end : datetime) : bool :=
  (a_start <? b_end) && (a_end >? b_start).

Fixpoint slot_loop_naive (rounds : nat) (intervals : list (datetime * datetime))
    (latest_start : datetime) (duration : timedelta) (start end_ : datetime)
  : result (datetime * datetime) :=
  match rounds with
  | O => Return (start, end_)
  | S k =>
      match find (fun '(bs, be) => overlaps_naive start end_ bs be) intervals with
      | None => Return (start, end_)
      | Some conflict =>
          let start := snd conflict in
          let start := if start >? latest_start then latest_start else start in
          do end_ <- datetime_add start duration;
          if start =? latest_start then Return (start, end_)
          else slot_loop_naive k intervals latest_start duration start end_
      end
  end.

Definition lift_result (r : result (datetime * datetime)) : result (stamp * stamp) :=
  match r with
  | Return i => Return (lift i)
  | Raise e => Raise e
  end.

(** The search of [find_next_free_slot] once the window is clamped and the
    busy intervals are at hand. *)
Definition search_naive (intervals : list (datetime * datetime))
    (latest duration start : datetime) : result (datetime * datetime) :=
  match intervals with
  | [] => Return (start, start + duration)
  | _ :: _ => slot_loop_naive 200 intervals latest duration start (start + duration)
  end.

Definition start_le (a b : datetime * datetime) : Prop := fst a <= fst b.

(** A decision procedure for [covers] on a list sorted by start: the end
    of the stretch covered without a gap from [cur] on. *)
Fixpoint sweep (intervals : list (datetime * datetime)) (cur : datetime) : datetime :=
  match intervals with
  | [] => cur
  | (bs, be) :: rest => if bs <=? cur then sweep rest (Z.max cur be) else cur
  end.

Definition covers_check (intervals : list (datetime * datetime)) (a b : datetime) : bool :=
  b <=? sweep intervals a.

(** ** Sample records *)

(** A timed record of kind "event". *)
Definition timed_event (start end_ : string) : event :=
  {[ "kind" := JStr "event"; "allDay" := JBool false;
     "start" := JStr start; "end" := JStr end_ ]}.

Definition two_digits (n : Z) : string :=
  String (ascii_of_nat (Z.to_nat (48 + n / 10)))
    (String (ascii_of_nat (Z.to_nat (48 + n mod 10))) EmptyString).

(** The text of minute [m] of 2024-01-01. *)
Definition minute_text (m : Z) : string :=
  ("2024-01-01T" ++ two_digits (m / 60) ++ ":" ++ two_digits (m mod 60) ++ ":00")%string.

(** [n] back-to-back one-minute events from midnight of 2024-01-01. *)
Definition minute_events (n : nat) : list event :=
  map (fun k => timed_event (minute_text (Z.of_nat k)) (minute_text (Z.of_nat k + 1)))
      (seq 0 n).

(** A day booked solid by 201 one-minute events and one long event. *)
Definition crowded_day : list event :=
  minute_events 201 ++ [timed_event (minute_text 201) "2024-01-01T23:59:00"].

(** ** History of a tag, in the words of the specification *)

(** The record follows the data model: its tags are absent or a sequence. *)
Definition tags_ok (ev : event) : Prop :=
  match get ev "tags" with
  | JNull | JArr _ => True
  | _ => False
  end.

(** The tag sequence of the record contains [tag]. *)
Definition has_tag (tag : string) (ev : event) : bool :=
  match get ev "tags" with
  | JArr l => existsb (fun x => eq_str x tag) l
  | _ => false
  end.

(** Minute offset [hour * 60 + minute] read off the stored timestamp, when
    the record carries one. *)
Definition start_offset (ev : event) : option Z :=
  match get_default ev "start" (JStr "") with
  | JStr start =>
      if str_contains "T" start && (16 <=? String.length start)%nat
      then start_minutes start else None
  | _ => None
  end.

(** The offsets of the records of kind "event" that carry [tag], in store
    order. *)
Definition history_offsets (events : list event) (tag : string) : list Z :=
  flat_map (fun ev =>
              if eq_str (get ev "kind") "event" && has_tag tag ev
              then match start_offset ev with Some v => [v] | None => [] end
              else [])
           events.

Definition clamp_minutes (m : Z) : Z := Z.max 0 (Z.min 1439 m).

(** A timed record of kind "event" with one tag. *)
Definition tagged_event (tag start : string) : event :=
  {[ "kind" := JStr "event"; "tags" := JArr [JStr tag]; "start" := JStr start ]}.

(** ** Time parsing, in the words of the specification *)

(** The text the patterns are tried on: trimmed, upper-cased, periods
    removed. *)
Definition normalize (s : string) : string := remove_char "." (upper (strip s)).

(** The first successful parse of [text] among the candidate patterns. *)
Definition first_parse (text : string) : option time :=
  head (flat_map (fun fmt => match strptime_time text fmt with
                             | Return t => [t]
                             | Raise _ => []
                             end) candidates).

(** The fields a match may hold: [%I] in 1..12, [%M] in 0..59, [%H] in
    0..23. *)
Definition fields_ok (f : fields) : Prop :=
  (forall v, f_I f = Some v -> 1 <= v <= 12)
  /\ (forall v, f_M f = Some v -> 0 <= v <= 59)
  /\ (forall v, f_H f = Some v -> 0 <= v <= 23).

(** * Further code of [app.py], and the library calls it makes *)

(** ** More of the [datetime] library *)

(** [d + dt.timedelta(days=n)]. *)
Definition date_add_days (d : date) (n : Z) : result date :=
  let o := toordinal d + n in
  if (0 <? o) && (o <=? MAXORDINAL) then fromordinal o
  else Raise OverflowError.

(** [x.time()]. *)
Definition datetime_time (x : datetime) : time :=
  let r := x mod US_PER_DAY in
  mktime (r / (3600 * US_PER_SECOND))
         (r / (60 * US_PER_SECOND) mod 60)
         (r / US_PER_SECOND mod 60)
         (r mod US_PER_SECOND).

Definition digit_char (k : Z) : ascii := ascii_of_nat (48 + Z.to_nat k).

(** The [k] low decimal digits of [n], most significant first. *)
Fixpoint dec_digits (k : nat) (n : Z) : string :=
  match k with
  | O => EmptyString
  | S k' => (dec_digits k' (n / 10) ++ String (digit_char (n mod 10)) EmptyString)%string
  end.

(** Number of decimal digits of [n >= 0], with [fuel] above it. *)
Fixpoint count_digits (fuel : nat) (n : Z) : nat :=
  match fuel with
  | O => 1%nat
  | S f => if n <? 10 then 1%nat else S (count_digits f (n / 10))
  end.

(** ["%0<width>d" % n] for [n >= 0]: zero-padded to [width], longer when
    the number needs more digits. The fields of a date or a time are never
    negative. *)
Definition fmt_d (width : nat) (n : Z) : string :=
  if n <? 10 ^ Z.of_nat width then dec_digits width n
  else dec_digits (count_digits (S (Z.to_nat (Z.log2 n))) n) n.

(** [d.isoformat()]. *)
Definition date_isoformat (d : date) : string :=
  (fmt_d 4 (year d) ++ "-" ++ fmt_d 2 (month d) ++ "-" ++ fmt_d 2 (day d))%string.

(** [t.isoformat()] as part of a datetime: seconds always, microseconds
    when they are not zero. *)
Definition time_isoformat (t : time) : string :=
  (fmt_d 2 (hour t) ++ ":" ++ fmt_d 2 (minute t) ++ ":" ++ fmt_d 2 (second t)
   ++ (if (microsecond t =? 0)%Z then "" else "." ++ fmt_d 6 (microsecond t)))%string.

(** [x.isoformat()]. *)
Definition datetime_isoformat (x : datetime) : string :=
  (date_isoformat (datetime_date x) ++ "T" ++ time_isoformat (datetime_time x))%string.

(** [dt.date.fromisoformat(s)] on the grammar [YYYY-MM-DD], the text that
    [isoformat()] writes and every version of the library reads back;
    later versions of the library read further ISO 8601 forms as well,
    which no statement below depends on. *)
Definition date_fromisoformat (s : string) : result date :=
  match ('(y, s) ← take_digits 4 0 s;
         s ← expect "-" s;
         '(m, s) ← take_digits 2 0 s;
         s ← expect "-" s;
         '(d, s) ← take_digits 2 0 s;
         match s with
         | EmptyString => Some (y, m, d)
         | _ => None
         end) with
  | Some (y, m, d) => date_new y m d
  | None => Raise ValueError
  end.

(** [s.lstrip(c)] for a one-character [c]. *)
Fixpoint lstrip_char (c : ascii) (s : string) : string :=
  match s with
  | EmptyString => EmptyString
  | String a r => if Ascii.eqb a c then lstrip_char c r else s
  end.

(** [x.strftime("%I:%M %p")] of a value with the time [t], in the C
    locale: the hour on the 12-hour clock, two digits each. *)
Definition strftime_I_M_p (t : time) : string :=
  (fmt_d 2 (if (hour t mod 12 =? 0)%Z then 12%Z else (hour t mod 12)%Z) ++ ":"
   ++ fmt_d 2 (minute t) ++ " " ++ (if (hour t <? 12)%Z then "AM" else "PM"))%string.

(** ** Date helpers *)

Definition parse_iso_date (s : string) : result date := date_fromisoformat s.

Definition iso_date (d : date) : string := date_isoformat d.

Definition shift_anchor (anchor : date) (view : string) (direction : Z) : result date :=
  if String.eqb view "month" then add_months anchor direction
  else if String.eqb view "week" then date_add_days anchor (7 * direction)
  else date_add_days anchor direction.

(** The date today does not show in the text: the format has time
    directives only. *)
Definition _fmt_time (t : time) : string := lstrip_char "0" (strftime_I_M_p t).

(** ** Feedback helpers *)

Definition _occurrence_key (event_id : string) (day : date) : string :=
  (event_id ++ "::" ++ date_isoformat day)%string.

Definition _event_occurs_on_day `{IsoGrammar} (ev : event) (day : date) : bool :=
  if negb (eq_str (get ev "kind") "event") then false
  else
    let s := _parse_iso_dt (get_default ev "start" (JStr "")) in
    let e := _parse_iso_dt (get_default ev "end" (JStr "")) in
    match s, e with
    | Some s, Some _ => date_eqb (stamp_date s) day
    | _, _ => false
    end.

(** ** The event forms *)

(** The times of a manually created or edited event: [end] is pushed to
    half an hour after [start] when it is not after it. *)
Definition manual_times (ev_date : date) (start_t end_t : time)
  : result (datetime * datetime) :=
  let sdt := datetime_combine ev_date start_t in
  let edt := datetime_combine ev_date end_t in
  if edt <=? sdt then
    do delta <- timedelta_minutes 30;
    do edt <- datetime_add sdt delta;
    Return (sdt, edt)
  else Return (sdt, edt).

(** The record written for a new event. *)
Definition new_event (new_id : string) (title : string) (tags_to_store : list string)
    (description : string) (extended : jval) (sdt edt : datetime) : event :=
  {[ "id" := JStr new_id;
     "kind" := JStr "event";
     "title" := JStr title;
     "tags" := JArr (map JStr tags_to_store);
     "description" := JStr description;
     "extendedProps" := extended;
     "allDay" := JBool false;
     "start" := JStr (datetime_isoformat sdt);
     "end" := JStr (datetime_isoformat edt) ]}.

(** ** [dt.time.fromisoformat] and the edit form

    As for timestamps, the text the library accepts is an interface;
    [time_standard] is the grammar [HH[:MM[:SS[.fff[fff]]]]] of the text
    that [isoformat()] writes for naive values. *)

Class TimeGrammar := time_fields : string -> option (Z * Z * Z * Z).

(** [dt.time(hh, mm, ss, us)]. *)
Definition time_new_full (hh mm ss us : Z) : result time :=
  if (0 <=? hh) && (hh <=? 23) && (0 <=? mm) && (mm <=? 59)
     && (0 <=? ss) && (ss <=? 59) && (0 <=? us) && (us <=? 999999)
  then Return (mktime hh mm ss us) else Raise ValueError.

Definition time_fromisoformat `{TimeGrammar} (s : string) : result time :=
  match time_fields s with
  | Some (hh, mm, ss, us) => time_new_full hh mm ss us
  | None => Raise ValueError
  end.

Definition time_standard (s : string) : option (Z * Z * Z * Z) :=
  match iso_time 1 1 1 s with
  | Some (_, _, _, hh, mm, ss, us) => Some (hh, mm, ss, us)
  | None => None
  end.

#[export] Instance time_standard_grammar : TimeGrammar := time_standard.

(** The helper of the edit form that pre-fills the two time inputs. *)
Definition _safe_time_from_iso `{TimeGrammar} (value : jval) (fallback : time) : time :=
  match value with
  | JStr value =>
      if str_contains "T" value && (19 <=? String.length value)%nat
      then match time_fromisoformat (slice value 11 19) with
           | Return t => t
           | Raise _ => fallback
           end
      else fallback
  | _ => fallback
  end.

(** ** Vocabulary of the further statements *)

(** The invariant of every [dt.time] value. *)
Definition time_ok (t : time) : Prop :=
  0 <= hour t <= 23 /\ 0 <= minute t <= 59 /\ 0 <= second t <= 59
  /\ 0 <= microsecond t <= 999999.

(** The minute of the day a time falls in. *)
Definition minute_of_day (t : time) : Z := hour t * 60 + minute t.

(** A record whose [tags] cannot be searched: a number or [true]. *)
Definition tags_not_iterable (ev : event) : Prop :=
  match get ev "tags" with
  | JBool true => True
  | JNum n => n <> 0
  | _ => False
  end.

(** The first successful parse of the normalised [text] is the time
    [h]:[m], without seconds. *)
Definition parses_to (text : string) (h m : Z) : bool :=
  match first_parse (normalize text) with
  | Some t => (hour t =? h) && (minute t =? m) && (second t =? 0) && (microsecond t =? 0)
  | None => false
  end.

(** The text of a time on the 24-hour clock, two digits each. *)
Definition clock_text (h m : Z) : string := (fmt_d 2 h ++ ":" ++ fmt_d 2 m)%string.

(** A record of kind "event" whose tags cannot be searched. *)
Definition bad_tags (ev : event) : Prop :=
  get ev "kind" = JStr "event" /\ tags_not_iterable ev.

(** * Properties *)

(** ** The calendar of the library *)

Ltac dlia := Z.div_mod_to_equations; lia.

(** Checking a boolean predicate on an initial segment of the integers. *)
Lemma forallb_range (P : Z -> bool) (n : nat) :
  forallb P (map Z.of_nat (seq 0 n)) = true ->
  forall k, 0 <= k < Z.of_nat n -> P k = true.
Proof.
  intros H k Hk.
  rewrite forallb_forall in H. apply H.
  apply in_map_iff. exists (Z.to_nat k). split; [lia|].
  apply in_seq. lia.
Qed.

Lemma month_day_table leap :
  forallb (fun k => month_day_ok leap k || (365 + leap_days leap <=? k))
          (map Z.of_nat (seq 0 366)) = true.
Proof. destruct leap; vm_compute; reflexivity. Qed.

Lemma month_day_spec leap k :
  0 <= k < 365 + leap_days leap -> month_day_ok leap k = true.
Proof.
  intros Hk.
  assert (Hr := forallb_range _ _ (month_day_table leap) k).
  assert (Hl : 0 <= leap_days leap <= 1) by (destruct leap; cbn; lia).
  apply orb_true_iff in Hr; [|lia].
  destruct Hr as [Hr|Hr]; [exact Hr|lia].
Qed.

Lemma is_leap_decomp a b c e :
  0 <= b < 4 -> 0 <= c < 25 -> 0 <= e < 4 ->
  _is_leap (400 * a + 100 * b + 4 * c + e + 1)
  = (e =? 3) && (negb (c =? 24) || (b =? 3)).
Proof.
  intros. unfold _is_leap.
  destruct (e =? 3) eqn:E1; destruct (c =? 24) eqn:E2; destruct (b =? 3) eqn:E3; simpl;
  repeat match goal with |- context [?x mod ?y =? 0] => let E := fresh in destruct (x mod y =? 0) eqn:E end; simpl; try reflexivity; exfalso; dlia.
Qed.

Lemma dby_decomp a b c e :
  0 <= b < 4 -> 0 <= c < 25 -> 0 <= e < 4 ->
  _days_before_year (400 * a + 100 * b + 4 * c + e + 1)
  = 146097 * a + 36524 * b + 1461 * c + 365 * e.
Proof. unfold _days_before_year. intros. dlia. Qed.

Lemma ord_ymd_ord n :
  1 <= n <= MAXORDINAL ->
  let '(y, m, d) := _ord2ymd n in
  check_date_fields y m d = true /\ _ymd2ord y m d = n.
Proof.
  intros Hn. unfold MAXORDINAL in Hn. unfold _ord2ymd. cbv zeta.
  set (a := (n - 1) / 146097).
  set (r1 := (n - 1) mod 146097).
  set (b := r1 / 36524).
  set (r2 := r1 mod 36524).
  set (c := r2 / 1461).
  set (r3 := r2 mod 1461).
  set (e := r3 / 365).
  set (k := r3 mod 365).
  assert (Ha : 0 <= a <= 24) by (subst a; dlia).
  assert (Hr1 : n - 1 = 146097 * a + r1 /\ 0 <= r1 < 146097) by (subst a r1; dlia).
  assert (Hr2 : r1 = 36524 * b + r2 /\ 0 <= r2 < 36524 /\ 0 <= b <= 4) by (subst b r2; dlia).
  assert (Hr3 : r2 = 1461 * c + r3 /\ 0 <= r3 < 1461 /\ 0 <= c <= 24) by (subst c r3; dlia).
  assert (Hk : r3 = 365 * e + k /\ 0 <= k < 365 /\ 0 <= e <= 4) by (subst e k; dlia).
  clearbody a r1 b r2 c r3 e k.
  destruct ((e =? 4) || (b =? 4)) eqn:E.
  - (* the last day of a leap year *)
    assert (Hy : exists a' b' c', 0 <= a' <= 24 /\ 0 <= b' < 4 /\ 0 <= c' < 25 /\
                 a * 400 + 1 + b * 100 + c * 4 + e - 1 = 400 * a' + 100 * b' + 4 * c' + 3 + 1
                 /\ n - 1 = 146097 * a' + 36524 * b' + 1461 * c' + 365 * 3 + 365
                 /\ (c' <> 24 \/ b' = 3)).
    { apply orb_true_iff in E. destruct E as [E|E]; apply Z.eqb_eq in E.
      - destruct (Z.eq_dec b 4).
        + exists a, 3, 24. lia.
        + exists a, b, c. lia.
      - exists a, 3, 24. lia. }
    destruct Hy as (a' & b' & c' & Ha' & Hb' & Hc' & Hy & Hn' & Hl).
    rewrite Hy. unfold check_date_fields, _ymd2ord, _days_in_month, _days_before_month.
    rewrite dby_decomp by lia. rewrite is_leap_decomp by lia.
    replace ((3 =? 3) && (negb (c' =? 24) || (b' =? 3))) with true
      by (symmetry; destruct (c' =? 24) eqn:?, (b' =? 3) eqn:?; simpl; try reflexivity; lia).
    simpl. unfold MINYEAR, MAXYEAR. split; [|lia].
    repeat (apply andb_true_intro; split); lia.
  - apply orb_false_iff in E. destruct E as [E1 E2].
    apply Z.eqb_neq in E1, E2.
    set (leap := (e =? 3) && (negb (c =? 24) || (b =? 3))).
    assert (Hmd := month_day_spec leap k).
    unfold month_day_ok in Hmd.
    destruct (_month_day leap k) as [m d].
    assert (Hkk : 0 <= k < 365 + leap_days leap) by (destruct leap; simpl; lia).
    specialize (Hmd Hkk).
    repeat (apply andb_prop in Hmd; destruct Hmd as [Hmd ?]).
    replace (a * 400 + 1 + b * 100 + c * 4 + e) with (400 * a + 100 * b + 4 * c + e + 1) by lia.
    unfold check_date_fields, _ymd2ord, _days_in_month, _days_before_month.
    rewrite dby_decomp by lia. rewrite is_leap_decomp by lia. fold leap.
    unfold MINYEAR, MAXYEAR. split; [|lia].
    repeat (apply andb_true_intro; split); try lia.
Qed.

Lemma month_day_inv_table leap :
  forallb (fun m => forallb (fun d =>
     month_day_inv_ok leap m d
     || negb ((1 <=? m) && (m <=? 12) && (1 <=? d)
              && (d <=? (if (m =? 2) && leap then 29 else _DAYS_IN_MONTH m))))
     (map Z.of_nat (seq 0 32))) (map Z.of_nat (seq 0 13)) = true.
Proof. destruct leap; vm_compute; reflexivity. Qed.

Lemma month_day_inv leap m d :
  1 <= m <= 12 -> 1 <= d <= (if (m =? 2) && leap then 29 else _DAYS_IN_MONTH m) ->
  month_day_inv_ok leap m d = true.
Proof.
  intros Hm Hd.
  assert (Hd31 : d <= 31).
  { destruct ((m =? 2) && leap); [lia|].
    assert (_DAYS_IN_MONTH m <= 31); [|lia].
    assert (Hc : m = 1 \/ m = 2 \/ m = 3 \/ m = 4 \/ m = 5 \/ m = 6 \/ m = 7
                 \/ m = 8 \/ m = 9 \/ m = 10 \/ m = 11 \/ m = 12) by lia.
    repeat (destruct Hc as [->|Hc]; [cbn; lia|]). subst; cbn; lia. }
  assert (H1 := forallb_range _ _ (month_day_inv_table leap) m).
  cbv beta in H1. specialize (H1 ltac:(lia)).
  assert (H2 := forallb_range _ _ H1 d ltac:(lia)). cbv beta in H2.
  apply orb_true_iff in H2. destruct H2 as [H2|H2]; [exact H2|].
  apply negb_true_iff in H2.
  assert (Ht : (1 <=? m) && (m <=? 12) && (1 <=? d)
              && (d <=? (if (m =? 2) && leap then 29 else _DAYS_IN_MONTH m)) = true).
  { repeat (apply andb_true_intro; split); lia. }
  congruence.
Qed.

Lemma ymd_ord_ymd y m d :
  check_date_fields y m d = true -> _ord2ymd (_ymd2ord y m d) = (y, m, d).
Proof.
  unfold check_date_fields, MINYEAR, MAXYEAR. intros H.
  repeat (apply andb_prop in H; destruct H as [H ?]).
  set (a := (y - 1) / 400).
  set (b := (y - 1) mod 400 / 100).
  set (c := (y - 1) mod 400 mod 100 / 4).
  set (e := (y - 1) mod 400 mod 100 mod 4).
  assert (Hy : y = 400 * a + 100 * b + 4 * c + e + 1
               /\ 0 <= a /\ 0 <= b < 4 /\ 0 <= c < 25 /\ 0 <= e < 4)
    by (subst a b c e; dlia).
  clearbody a b c e. destruct Hy as (-> & Ha & Hb & Hc & He).
  unfold _ymd2ord, _days_before_month, _days_in_month in *.
  rewrite dby_decomp by lia. rewrite is_leap_decomp in * by lia.
  set (leap := (e =? 3) && (negb (c =? 24) || (b =? 3))) in *.
  assert (Hinv := month_day_inv leap m d ltac:(lia) ltac:(lia)).
  unfold month_day_inv_ok in Hinv.
  set (k := _DAYS_BEFORE_MONTH m + (if (m >? 2) && leap then 1 else 0) + d - 1) in *.
  replace (146097 * a + 36524 * b + 1461 * c + 365 * e +
           (_DAYS_BEFORE_MONTH m + (if (m >? 2) && leap then 1 else 0)) + d)
    with (146097 * a + 36524 * b + 1461 * c + 365 * e + k + 1) by (subst k; lia).
  assert (Hk : 0 <= k < 365 + leap_days leap).
  { subst k.
    assert (Hm : m = 1 \/ m = 2 \/ m = 3 \/ m = 4 \/ m = 5 \/ m = 6 \/ m = 7
                 \/ m = 8 \/ m = 9 \/ m = 10 \/ m = 11 \/ m = 12) by lia.
    repeat (destruct Hm as [->|Hm]; [destruct leap; cbn in *; lia|]).
    subst; destruct leap; cbn in *; lia. }
  assert (Hkdef : k = _DAYS_BEFORE_MONTH m + (if (m >? 2) && leap then 1 else 0) + d - 1)
    by reflexivity.
  clearbody k.
  unfold _ord2ymd. cbv zeta.
  replace (146097 * a + 36524 * b + 1461 * c + 365 * e + k + 1 - 1)
    with (146097 * a + 36524 * b + 1461 * c + 365 * e + k) by lia.
  destruct (365 <=? k) eqn:E365.
  - (* 31 December of a leap year *)
    assert (Hk365 : k = 365) by (destruct leap; cbn in Hk; lia).
    rewrite Hk365 in *. clear Hk365.
    assert (Hleap : leap = true) by (destruct leap; cbn in Hk; [reflexivity|lia]).
    unfold leap in Hleap. apply andb_prop in Hleap. destruct Hleap as [He3 Hcb].
    apply Z.eqb_eq in He3. subst e.
    assert (Hmd : m = 12 /\ d = 31).
    { assert (Hm : m = 1 \/ m = 2 \/ m = 3 \/ m = 4 \/ m = 5 \/ m = 6 \/ m = 7
                 \/ m = 8 \/ m = 9 \/ m = 10 \/ m = 11 \/ m = 12) by lia.
      clear Hinv.
      repeat (destruct Hm as [->|Hm]; [destruct leap; cbn in *; lia|]).
      subst; destruct leap; cbn in *; lia. }
    destruct Hmd as [-> ->].
    apply orb_true_iff in Hcb.
    destruct (Z.eq_dec c 24) as [->|Hc24].
    + assert (b = 3) by (destruct Hcb as [Hcb|Hcb]; [discriminate|apply Z.eqb_eq in Hcb; exact Hcb]).
      subst b.
      replace ((146097 * a + 36524 * 3 + 1461 * 24 + 365 * 3 + 365) / 146097) with a by dlia.
      replace ((146097 * a + 36524 * 3 + 1461 * 24 + 365 * 3 + 365) mod 146097) with 146096 by dlia.
      change (146096 / 36524) with 4. change (146096 mod 36524) with 0.
      change (0 mod 1461) with 0. change (0 / 1461) with 0. change (0 / 365) with 0.
      cbn [Z.eqb orb Pos.eqb]. f_equal. f_equal. lia.
    + replace ((146097 * a + 36524 * b + 1461 * c + 365 * 3 + 365) / 146097) with a by dlia.
      replace ((146097 * a + 36524 * b + 1461 * c + 365 * 3 + 365) mod 146097)
        with (36524 * b + 1461 * c + 1460) by dlia.
      replace ((36524 * b + 1461 * c + 1460) / 36524) with b by dlia.
      replace ((36524 * b + 1461 * c + 1460) mod 36524) with (1461 * c + 1460) by dlia.
      replace ((1461 * c + 1460) / 1461) with c by dlia.
      replace ((1461 * c + 1460) mod 1461) with 1460 by dlia.
      change (1460 / 365) with 4. cbn [Z.eqb orb Pos.eqb]. f_equal. f_equal. lia.
  - apply Z.leb_gt in E365. cbn in Hinv.
    replace ((146097 * a + 36524 * b + 1461 * c + 365 * e + k) / 146097) with a by dlia.
    replace ((146097 * a + 36524 * b + 1461 * c + 365 * e + k) mod 146097)
      with (36524 * b + 1461 * c + 365 * e + k) by dlia.
    replace ((36524 * b + 1461 * c + 365 * e + k) / 36524) with b by dlia.
    replace ((36524 * b + 1461 * c + 365 * e + k) mod 36524)
      with (1461 * c + 365 * e + k) by dlia.
    replace ((1461 * c + 365 * e + k) / 1461) with c by dlia.
    replace ((1461 * c + 365 * e + k) mod 1461) with (365 * e + k) by dlia.
    replace ((365 * e + k) / 365) with e by dlia.
    replace ((365 * e + k) mod 365) with k by dlia.
    replace ((e =? 4) || (b =? 4)) with false
      by (symmetry; apply orb_false_iff; split; apply Z.eqb_neq; lia).
    fold leap.
    destruct (_month_day leap k) as [m' d'].
    apply andb_prop in Hinv. destruct Hinv as [Hm' Hd'].
    apply Z.eqb_eq in Hm', Hd'. subst. f_equal. f_equal. lia.
Qed.

Ltac month_cases m :=
  let Hc := fresh "Hc" in
  assert (Hc : m = 1 \/ m = 2 \/ m = 3 \/ m = 4 \/ m = 5 \/ m = 6 \/ m = 7
               \/ m = 8 \/ m = 9 \/ m = 10 \/ m = 11 \/ m = 12) by lia;
  repeat (destruct Hc as [Hc|Hc]; [subst m|]); [..|subst m].

Lemma check_date_fields_inv y m d :
  check_date_fields y m d = true ->
  1 <= y <= 9999 /\ 1 <= m <= 12 /\ 1 <= d <= _days_in_month y m.
Proof.
  unfold check_date_fields, MINYEAR, MAXYEAR. intros H.
  repeat (apply andb_prop in H; destruct H as [H ?]). lia.
Qed.

Lemma check_date_fields_intro y m d :
  1 <= y <= 9999 -> 1 <= m <= 12 -> 1 <= d <= _days_in_month y m ->
  check_date_fields y m d = true.
Proof.
  unfold check_date_fields, MINYEAR, MAXYEAR. intros.
  repeat (apply andb_true_intro; split); lia.
Qed.

Lemma days_in_month_range y m : 1 <= m <= 12 -> 28 <= _days_in_month y m <= 31.
Proof.
  intros Hm. unfold _days_in_month.
  month_cases m; destruct (_is_leap y); cbn; lia.
Qed.

Lemma days_before_year_succ y :
  _days_before_year (y + 1) = _days_before_year y + 365 + leap_days (_is_leap y).
Proof.
  unfold _days_before_year, _is_leap, leap_days.
  destruct (y mod 4 =? 0) eqn:E1; destruct (y mod 100 =? 0) eqn:E2;
    destruct (y mod 400 =? 0) eqn:E3; cbn [andb orb negb]; dlia.
Qed.

Lemma days_before_year_mono y1 y2 :
  y1 <= y2 -> _days_before_year y1 <= _days_before_year y2.
Proof. unfold _days_before_year. intros. dlia. Qed.

(** Day of the year, from 1 to 365 or 366. *)
Lemma day_of_year_range y m d :
  1 <= m <= 12 -> 1 <= d <= _days_in_month y m ->
  1 <= _days_before_month y m + d <= 365 + leap_days (_is_leap y).
Proof.
  intros Hm. unfold _days_in_month, _days_before_month, leap_days.
  month_cases m; destruct (_is_leap y); cbn; lia.
Qed.

Lemma ymd2ord_range y m d :
  check_date_fields y m d = true -> 1 <= _ymd2ord y m d <= MAXORDINAL.
Proof.
  intros H. apply check_date_fields_inv in H. destruct H as (Hy & Hm & Hd).
  assert (Hdoy := day_of_year_range y m d Hm Hd).
  assert (Hs := days_before_year_succ y).
  assert (H1 := days_before_year_mono 1 y ltac:(lia)).
  assert (H2 := days_before_year_mono (y + 1) 10000 ltac:(lia)).
  change (_days_before_year 1) with 0 in H1.
  change (_days_before_year 10000) with 3652059 in H2.
  unfold _ymd2ord, MAXORDINAL. lia.
Qed.

Lemma toordinal_range d : date_ok d -> 1 <= toordinal d <= MAXORDINAL.
Proof. destruct d as [y m dd]. apply ymd2ord_range. Qed.

Lemma fromordinal_toordinal d : date_ok d -> fromordinal (toordinal d) = Return d.
Proof.
  destruct d as [y m dd]. unfold date_ok, fromordinal, toordinal, date_new. cbn.
  intros H. rewrite (ymd_ord_ymd _ _ _ H). rewrite H. reflexivity.
Qed.

Lemma fromordinal_spec n :
  1 <= n <= MAXORDINAL ->
  exists d, fromordinal n = Return d /\ date_ok d /\ toordinal d = n.
Proof.
  intros Hn. assert (H := ord_ymd_ord n Hn). unfold fromordinal, date_new.
  destruct (_ord2ymd n) as [[y m] d]. destruct H as [Hok Hord].
  rewrite Hok. exists (mkdate y m d). auto.
Qed.

Lemma toordinal_inj d1 d2 :
  date_ok d1 -> date_ok d2 -> toordinal d1 = toordinal d2 -> d1 = d2.
Proof.
  intros H1 H2 H.
  assert (E1 := fromordinal_toordinal d1 H1).
  assert (E2 := fromordinal_toordinal d2 H2).
  rewrite H in E1. congruence.
Qed.

Lemma date_sub_days_in d n :
  date_ok d -> 1 <= toordinal d - n <= MAXORDINAL ->
  exists w, date_sub_days d n = Return w /\ date_ok w
            /\ toordinal w = toordinal d - n.
Proof.
  intros Hd Hn. unfold date_sub_days.
  replace ((0 <? toordinal d - n) && (toordinal d - n <=? MAXORDINAL)) with true
    by (symmetry; apply andb_true_intro; split; lia).
  apply fromordinal_spec; exact Hn.
Qed.

Lemma date_sub_days_out d n :
  toordinal d - n < 1 \/ MAXORDINAL < toordinal d - n ->
  date_sub_days d n = Raise OverflowError.
Proof.
  intros Hn. unfold date_sub_days.
  replace ((0 <? toordinal d - n) && (toordinal d - n <=? MAXORDINAL)) with false;
    [reflexivity|].
  symmetry. apply andb_false_iff. lia.
Qed.

Lemma date_sub_days_zero d : date_ok d -> date_sub_days d 0 = Return d.
Proof.
  intros Hd. assert (Hr := toordinal_range d Hd). unfold date_sub_days.
  rewrite Z.sub_0_r.
  replace ((0 <? toordinal d) && (toordinal d <=? MAXORDINAL)) with true
    by (symmetry; apply andb_true_intro; split; lia).
  apply fromordinal_toordinal; exact Hd.
Qed.

(** ** [last_day_of_month] and [add_months] *)

Lemma last_day_of_month_in y m :
  1 <= y <= 9999 -> 1 <= m <= 12 ->
  last_day_of_month y m = Return (mkdate y m (_days_in_month y m)).
Proof.
  intros Hy Hm. unfold last_day_of_month.
  destruct (m =? 12) eqn:E.
  - apply Z.eqb_eq in E. subst m. unfold date_new.
    rewrite check_date_fields_intro by (cbn; lia). reflexivity.
  - apply Z.eqb_neq in E. unfold date_new.
    rewrite check_date_fields_intro
      by (try lia; assert (Hr := days_in_month_range y (m + 1) ltac:(lia)); lia).
    cbn [bind].
    assert (Hok : date_ok (mkdate y m (_days_in_month y m))).
    { apply check_date_fields_intro; cbn; try lia.
      assert (Hr := days_in_month_range y m Hm). lia. }
    assert (Hord : toordinal (mkdate y (m + 1) 1) - 1
                   = toordinal (mkdate y m (_days_in_month y m))).
    { unfold toordinal, _ymd2ord, _days_before_month, _days_in_month. cbn.
      month_cases m; try lia;
        match goal with
        | |- context [Z.pos ?a + 1] =>
            let v := eval vm_compute in (Z.pos a + 1) in
            change (Z.pos a + 1) with v
        end; destruct (_is_leap y); cbn; lia. }
    unfold date_sub_days. rewrite Hord.
    assert (Hr := toordinal_range _ Hok).
    replace ((0 <? toordinal (mkdate y m (_days_in_month y m)))
             && (toordinal (mkdate y m (_days_in_month y m)) <=? MAXORDINAL))
      with true by (symmetry; apply andb_true_intro; split; lia).
    apply fromordinal_toordinal; exact Hok.
Qed.

Lemma last_day_of_month_out y m :
  ~ 1 <= y <= 9999 -> last_day_of_month y m = Raise ValueError.
Proof.
  intros Hy. unfold last_day_of_month, date_new, check_date_fields, MINYEAR, MAXYEAR.
  assert (E : (1 <=? y) && (y <=? 9999) = false) by (apply andb_false_iff; lia).
  destruct (m =? 12); rewrite E; reflexivity.
Qed.

Lemma carry_up_spec fuel : forall y m,
  (m - 1) / 12 <= Z.of_nat fuel ->
  carry_up fuel y m
  = if m >? 12 then (y + (m - 1) / 12, (m - 1) mod 12 + 1) else (y, m).
Proof.
  induction fuel as [|k IH]; intros y m Hf; cbn [carry_up].
  - destruct (m >? 12) eqn:E; [|reflexivity]. exfalso. dlia.
  - destruct (m >? 12) eqn:E; [|reflexivity].
    rewrite IH by dlia.
    destruct (m - 12 >? 12) eqn:E2; f_equal; dlia.
Qed.

Lemma carry_down_spec fuel : forall y m,
  m <= 12 -> - ((m - 1) / 12) <= Z.of_nat fuel ->
  carry_down fuel y m = (y + (m - 1) / 12, (m - 1) mod 12 + 1).
Proof.
  induction fuel as [|k IH]; intros y m Hm Hf; cbn [carry_down].
  - f_equal; dlia.
  - destruct (m <? 1) eqn:E.
    + rewrite IH by dlia. f_equal; dlia.
    + f_equal; dlia.
Qed.

(** The fuel of [month_carry] is never exhausted: the loops stop on their
    own conditions, with the month in [1, 12]. *)
Lemma month_carry_exits y m :
  month_carry y m = (y + (m - 1) / 12, (m - 1) mod 12 + 1).
Proof.
  unfold month_carry. rewrite carry_up_spec by dlia.
  destruct (m >? 12) eqn:E.
  - rewrite carry_down_spec by dlia. f_equal; dlia.
  - rewrite carry_down_spec by dlia. reflexivity.
Qed.

Lemma add_months_out anchor delta :
  ~ 1 <= target_year anchor delta <= 9999 ->
  add_months anchor delta = Raise ValueError.
Proof.
  intros Hy. unfold add_months. rewrite month_carry_exits.
  rewrite last_day_of_month_out; [reflexivity|exact Hy].
Qed.

(** C6, as amended. Whenever the year reached lies in the calendar
    (1 to 9999), [add_months] returns the date whose month is the anchor's
    month shifted by [delta_months] with the overflow carried into the
    year, and whose day is the anchor's day clamped to the last day of that
    month; 2023-01-31 plus one month is 2023-02-28 and 2024-01-31 plus one
    month is 2024-02-29. *)
Theorem add_months_spec :
  (forall anchor delta,
      date_ok anchor ->
      1 <= target_year anchor delta <= 9999 ->
      let y := target_year anchor delta in
      let m := target_month anchor delta in
      add_months anchor delta
      = Return (mkdate y m (Z.min (day anchor) (_days_in_month y m)))
      /\ 1 <= m <= 12
      /\ 12 * y + m = 12 * year anchor + month anchor + delta
      /\ date_ok (mkdate y m (Z.min (day anchor) (_days_in_month y m))))
  /\ add_months (mkdate 2023 1 31) 1 = Return (mkdate 2023 2 28)
  /\ add_months (mkdate 2024 1 31) 1 = Return (mkdate 2024 2 29).
Proof.
  split; [|split; vm_compute; reflexivity].
  intros anchor delta Hok Hy y m.
  assert (Hm : 1 <= m <= 12) by (subst m; unfold target_month; dlia).
  assert (Hd := check_date_fields_inv _ _ _ Hok).
  assert (Hr := days_in_month_range y m Hm).
  assert (Hres : check_date_fields y m (Z.min (day anchor) (_days_in_month y m)) = true)
    by (apply check_date_fields_intro; lia).
  repeat split; try lia.
  - unfold add_months. rewrite month_carry_exits.
    fold (target_year anchor delta). fold (target_month anchor delta).
    fold y. fold m.
    rewrite last_day_of_month_in by lia. cbn [bind day].
    unfold date_new. rewrite Hres. reflexivity.
  - subst y m. unfold target_year, target_month. dlia.
  - exact Hres.
Qed.

Lemma add_months_spec_witness :
  date_ok (mkdate 2024 1 31)
  /\ add_months (mkdate 2024 1 31) 13 = Return (mkdate 2025 2 28).
Proof.
  split; [reflexivity|].
  apply (proj1 add_months_spec (mkdate 2024 1 31) 13); [reflexivity|].
  vm_compute. split; discriminate.
Defined.

(** C6 fails as stated: one month after 9999-12-31 is outside the calendar
    and the date constructor rejects it. *)
Lemma add_months_past_last_year :
  date_ok (mkdate 9999 12 31)
  /\ add_months (mkdate 9999 12 31) 1 = Raise ValueError.
Proof. split; vm_compute; reflexivity. Qed.

(** ** [start_of_week] *)

Lemma weekday_range d : 0 <= weekday d <= 6.
Proof. unfold weekday. dlia. Qed.

(** C7, as amended. With the week starting on Monday, and with the week
    starting on Sunday for every date from 0001-01-07 on, [start_of_week]
    returns a date [w] at most six days before [d] that is a Monday
    (respectively a Sunday), and [start_of_week] maps [w] to itself. *)
Theorem start_of_week_spec d (week_starts_monday : bool) :
  date_ok d ->
  week_starts_monday = true \/ toordinal first_sunday <= toordinal d ->
  exists w,
    start_of_week d week_starts_monday = Return w
    /\ date_ok w
    /\ start_of_week w week_starts_monday = Return w
    /\ 0 <= toordinal d - toordinal w <= 6
    /\ weekday w = if week_starts_monday then 0 else 6.
Proof.
  intros Hok Hrange.
  assert (Hn := toordinal_range d Hok).
  change (toordinal first_sunday) with 7 in Hrange.
  unfold start_of_week.
  destruct week_starts_monday.
  - destruct (date_sub_days_in d (weekday d) Hok) as (w & Hw & Hwok & Hord).
    { unfold weekday. dlia. }
    exists w. rewrite Hw.
    assert (Hwd : weekday w = 0) by (unfold weekday in *; rewrite Hord; dlia).
    split; [reflexivity|]. split; [exact Hwok|].
    split; [rewrite Hwd; apply date_sub_days_zero; exact Hwok|].
    split; [unfold weekday in *; dlia|exact Hwd].
  - destruct Hrange as [Hf|Hrange]; [discriminate|].
    destruct (date_sub_days_in d ((weekday d + 1) mod 7) Hok) as (w & Hw & Hwok & Hord).
    { unfold weekday. dlia. }
    exists w. rewrite Hw.
    assert (Hwd : weekday w = 6) by (unfold weekday in *; rewrite Hord; dlia).
    split; [reflexivity|]. split; [exact Hwok|].
    split; [rewrite Hwd; change ((6 + 1) mod 7) with 0;
            apply date_sub_days_zero; exact Hwok|].
    split; [unfold weekday in *; dlia|exact Hwd].
Qed.

Lemma start_of_week_spec_witness :
  exists w,
    start_of_week (mkdate 2024 5 15) false = Return w
    /\ date_ok w
    /\ start_of_week w false = Return w
    /\ 0 <= toordinal (mkdate 2024 5 15) - toordinal w <= 6
    /\ weekday w = 6.
Proof.
  apply (start_of_week_spec (mkdate 2024 5 15) false).
  - reflexivity.
  - right. vm_compute. discriminate.
Defined.

(** Before the first Sunday of the calendar there is no Sunday to return. *)
Lemma start_of_week_out d :
  date_ok d -> toordinal d < toordinal first_sunday ->
  start_of_week d false = Raise OverflowError.
Proof.
  intros Hok Hlt. change (toordinal first_sunday) with 7 in Hlt.
  assert (Hn := toordinal_range d Hok).
  unfold start_of_week. apply date_sub_days_out. left. unfold weekday. dlia.
Qed.

(** C7 fails as stated: 0001-01-01 is a Monday and the Sunday before it is
    not a date. *)
Lemma start_of_week_first_day :
  date_ok (mkdate 1 1 1)
  /\ weekday (mkdate 1 1 1) = 0
  /\ start_of_week (mkdate 1 1 1) false = Raise OverflowError.
Proof. repeat split; vm_compute; reflexivity. Qed.

(** ** Datetimes *)

Ltac unfold_us :=
  unfold MAX_US, US_PER_DAY, US_PER_MINUTE, US_PER_SECOND, MAXORDINAL, MAX_DELTA_DAYS in *.

Lemma datetime_ok_iff x : datetime_ok x = true <-> 0 <= x <= MAX_US.
Proof. unfold datetime_ok. rewrite andb_true_iff. lia. Qed.

Lemma date_eqb_eq a b : date_eqb a b = true <-> a = b.
Proof.
  destruct a, b. unfold date_eqb. cbn. rewrite !andb_true_iff, !Z.eqb_eq.
  split; [intros [[-> ->] ->]; reflexivity|intros [= -> -> ->]; auto].
Qed.

Lemma day_start_range day :
  date_ok day -> 0 <= day_start day /\ day_start day + US_PER_DAY - 1 <= MAX_US.
Proof.
  intros Hok. assert (Hr := toordinal_range day Hok).
  unfold day_start, datetime_combine, time_us. cbn. unfold_us. lia.
Qed.

Lemma day_end_start day : day_end day = day_start day + 1439 * US_PER_MINUTE.
Proof. unfold day_end, day_start, datetime_combine, time_us. cbn. unfold_us. lia. Qed.

Lemma datetime_new_ok y m d hh mm ss us x :
  datetime_new y m d hh mm ss us = Return x -> 0 <= x <= MAX_US.
Proof.
  unfold datetime_new.
  destruct (check_date_fields y m d) eqn:Hd; [|discriminate].
  cbn [andb].
  destruct ((0 <=? hh) && (hh <=? 23) && (0 <=? mm) && (mm <=? 59)
            && (0 <=? ss) && (ss <=? 59) && (0 <=? us) && (us <=? 999999)) eqn:Ht;
    [|discriminate].
  intros [= <-].
  repeat (apply andb_prop in Ht; destruct Ht as [Ht ?]).
  assert (Hr := ymd2ord_range y m d Hd).
  unfold datetime_combine, toordinal, time_us. cbn. unfold_us. lia.
Qed.

(** A valid datetime whose date is [day] lies inside that day. *)
Lemma datetime_date_day x day :
  0 <= x <= MAX_US -> datetime_date x = day ->
  date_ok day /\ day_start day <= x < day_start day + US_PER_DAY.
Proof.
  intros Hx Hd. unfold datetime_date in Hd.
  assert (Hn : 1 <= x / US_PER_DAY + 1 <= MAXORDINAL) by (unfold_us; dlia).
  assert (Ho := ord_ymd_ord _ Hn).
  destruct (_ord2ymd (x / US_PER_DAY + 1)) as [[y m] d].
  destruct Ho as [Hok Hord]. subst day. split; [exact Hok|].
  unfold day_start, datetime_combine, toordinal, time_us. cbn.
  rewrite Hord. unfold_us. dlia.
Qed.

Lemma latest_start_range day duration_min :
  date_ok day -> 0 < duration_min ->
  day_start day <= latest_start day duration_min < day_end day.
Proof.
  intros Hok Hd. unfold latest_start. rewrite day_end_start. unfold_us. lia.
Qed.

Lemma timedelta_minutes_ok n :
  0 <= n * US_PER_MINUTE <= MAX_US ->
  timedelta_minutes n = Return (n * US_PER_MINUTE).
Proof.
  intros Hn. unfold timedelta_minutes, timedelta_ok.
  replace ((- MAX_DELTA_DAYS <=? n * US_PER_MINUTE / US_PER_DAY)
           && (n * US_PER_MINUTE / US_PER_DAY <=? MAX_DELTA_DAYS)) with true;
    [reflexivity|].
  symmetry. apply andb_true_intro. unfold_us. split; apply Z.leb_le; dlia.
Qed.

(** ** Sorting by start time *)

Lemma insert_naive_perm x l : Permutation (insert_naive x l) (x :: l).
Proof.
  induction l as [|y r IH]; cbn [insert_naive]; [reflexivity|].
  destruct (fst y <? fst x); [|reflexivity].
  rewrite IH. apply perm_swap.
Qed.

Lemma sort_naive_perm l : Permutation (sort_naive l) l.
Proof.
  induction l as [|x r IH]; cbn [sort_naive]; [reflexivity|].
  rewrite insert_naive_perm. constructor. exact IH.
Qed.

Lemma insert_naive_hd x a l :
  start_le a x -> HdRel start_le a l -> HdRel start_le a (insert_naive x l).
Proof.
  intros Hax Hal. destruct l as [|y r]; cbn [insert_naive].
  - constructor; exact Hax.
  - destruct (fst y <? fst x); constructor; [|exact Hax].
    inversion Hal; assumption.
Qed.

Lemma insert_naive_sorted x l :
  Sorted start_le l -> Sorted start_le (insert_naive x l).
Proof.
  induction 1 as [|y r Hs IH Hhd]; cbn [insert_naive].
  - repeat constructor.
  - destruct (fst y <? fst x) eqn:E.
    + constructor; [exact IH|]. apply insert_naive_hd; [|exact Hhd].
      unfold start_le. lia.
    + constructor; [constructor; assumption|]. constructor. unfold start_le. lia.
Qed.

Lemma sort_naive_sorted l : StronglySorted start_le (sort_naive l).
Proof.
  apply Sorted_StronglySorted.
  - intros a b c. unfold start_le. lia.
  - induction l as [|x r IH]; cbn [sort_naive]; [constructor|].
    apply insert_naive_sorted; exact IH.
Qed.

(** ** Naive and aware values *)

Lemma lift_inj l : forall l', map lift l = map lift l' -> l = l'.
Proof.
  induction l as [|[a b] r IH]; intros [|[c d] r']; cbn [map]; try discriminate;
    [reflexivity|].
  unfold lift at 1 3. cbn [fst snd]. intros H. injection H as -> -> H.
  f_equal. apply IH. exact H.
Qed.

Lemma lift_all_naive l : forallb naive_pair (map lift l) = true.
Proof. induction l as [|i r IH]; [reflexivity|]. cbn [map forallb]. exact IH. Qed.

Lemma all_naive_lift l : forallb naive_pair l = true -> exists l0, l = map lift l0.
Proof.
  induction l as [|[s e] r IH]; cbn [forallb]; intros H.
  - exists []. reflexivity.
  - apply andb_prop in H. destruct H as [Hp Hr]. destruct (IH Hr) as [l0 ->].
    unfold naive_pair in Hp. cbn [fst snd] in Hp.
    destruct s as [s|s o]; [|discriminate]. destruct e as [e|e o]; [|discriminate].
    exists ((s, e) :: l0). reflexivity.
Qed.

Lemma all_naive_perm l l' :
  Permutation l l' -> forallb naive_pair l = true -> forallb naive_pair l' = true.
Proof.
  intros Hp H. rewrite forallb_forall in *. intros x Hx. apply H.
  apply (Permutation_in x (Permutation_sym Hp) Hx).
Qed.

(** A comparison that returns was made between two values of one kind; one
    that raises, raises [TypeError]. *)
Lemma stamp_cmp_kind rel a b c :
  stamp_cmp rel a b = Return c -> is_naive a = is_naive b.
Proof. destruct a, b; cbn; intros H; try discriminate; reflexivity. Qed.

Lemma stamp_cmp_raises rel a b e : stamp_cmp rel a b = Raise e -> e = TypeError.
Proof. destruct a, b; cbn; intros H; try discriminate; congruence. Qed.

(** ** The sort of the code *)

Lemma insert_by_start_perm x l : forall l',
  insert_by_start x l = Return l' -> Permutation l' (x :: l).
Proof.
  induction l as [|y r IH]; intros l'; cbn [insert_by_start].
  - intros [= <-]. reflexivity.
  - destruct (stamp_lt (fst y) (fst x)) as [c|e]; cbn [bind]; [|discriminate].
    destruct c.
    + destruct (insert_by_start x r) as [r'|e] eqn:E; cbn [bind]; [|discriminate].
      intros [= <-]. rewrite (IH r' eq_refl). apply perm_swap.
    + intros [= <-]. reflexivity.
Qed.

Lemma sort_by_start_perm l : forall l',
  sort_by_start l = Return l' -> Permutation l' l.
Proof.
  induction l as [|x r IH]; intros l'; cbn [sort_by_start].
  - intros [= <-]. reflexivity.
  - destruct (sort_by_start r) as [r'|e] eqn:E; cbn [bind]; [|discriminate].
    intros H. rewrite (insert_by_start_perm _ _ _ H). constructor. apply IH. reflexivity.
Qed.

Lemma insert_by_start_raises x l e : insert_by_start x l = Raise e -> e = TypeError.
Proof.
  induction l as [|y r IH]; cbn [insert_by_start]; [discriminate|].
  destruct (stamp_lt (fst y) (fst x)) as [c|e'] eqn:Ec; cbn [bind].
  - destruct c; [|discriminate].
    destruct (insert_by_start x r) as [r'|e'']; cbn [bind]; [discriminate|].
    intros [= <-]. apply IH. reflexivity.
  - intros [= <-]. apply stamp_cmp_raises in Ec. exact Ec.
Qed.

Lemma sort_by_start_raises l e : sort_by_start l = Raise e -> e = TypeError.
Proof.
  induction l as [|x r IH]; cbn [sort_by_start]; [discriminate|].
  destruct (sort_by_start r) as [r'|e']; cbn [bind].
  - apply insert_by_start_raises.
  - intros [= <-]. apply IH. reflexivity.
Qed.

(** The sort returns only when all keys are of one kind. *)
Lemma sort_by_start_kind l : forall l',
  sort_by_start l = Return l' ->
  forall a b, In a l -> In b l -> is_naive (fst a) = is_naive (fst b).
Proof.
  induction l as [|x r IH]; intros l' H a b Ha Hb; [destruct Ha|].
  cbn [sort_by_start] in H.
  destruct (sort_by_start r) as [r'|e] eqn:E; cbn [bind] in H; [|discriminate].
  assert (Hp := sort_by_start_perm r r' E).
  assert (Hx : forall y, In y r -> is_naive (fst y) = is_naive (fst x)).
  { intros y Hy. destruct r' as [|z t].
    - apply Permutation_nil in Hp. subst r. destruct Hy.
    - cbn [insert_by_start] in H.
      destruct (stamp_lt (fst z) (fst x)) as [c|e] eqn:Ez; cbn [bind] in H; [|discriminate].
      apply stamp_cmp_kind in Ez. rewrite <- Ez.
      apply (IH _ eq_refl); [exact Hy|].
      apply (Permutation_in _ Hp). left; reflexivity. }
  destruct Ha as [<-|Ha], Hb as [<-|Hb].
  - reflexivity.
  - symmetry. apply Hx. exact Hb.
  - apply Hx. exact Ha.
  - apply (IH _ eq_refl); assumption.
Qed.

Lemma insert_by_start_lift x l :
  insert_by_start (lift x) (map lift l) = Return (map lift (insert_naive x l)).
Proof.
  induction l as [|y r IH]; cbn [map insert_by_start insert_naive]; [reflexivity|].
  unfold stamp_lt. cbn [lift fst stamp_cmp bind].
  destruct (fst y <? fst x); [|reflexivity].
  fold (lift x). rewrite IH. reflexivity.
Qed.

Lemma sort_by_start_lift l :
  sort_by_start (map lift l) = Return (map lift (sort_naive l)).
Proof.
  induction l as [|x r IH]; cbn [map sort_by_start sort_naive]; [reflexivity|].
  rewrite IH. cbn [bind]. apply insert_by_start_lift.
Qed.

(** ** The rounds of the search *)

(** One round of the search keeps the candidate in [[lo, latest]] and the
    window at the requested length; no round can raise. *)
Lemma slot_loop_naive_returns rounds intervals lo latest duration : forall start,
  0 <= lo -> 0 <= duration -> latest + duration <= MAX_US ->
  (forall bs be, In (bs, be) intervals -> lo <= be) ->
  lo <= start <= latest ->
  exists s,
    slot_loop_naive rounds intervals latest duration start (start + duration)
    = Return (s, s + duration)
    /\ lo <= s <= latest.
Proof.
  induction rounds as [|k IH]; intros start Hlo Hdur Hmax Hbe Hstart;
    cbn [slot_loop_naive].
  - exists start. auto.
  - destruct (find _ intervals) as [[bs be]|] eqn:Hf; [|exists start; auto].
    apply find_some in Hf. destruct Hf as [Hin _].
    apply Hbe in Hin. cbn [snd].
    set (start' := if be >? latest then latest else be).
    assert (Hs' : lo <= start' <= latest) by (subst start'; destruct (be >? latest) eqn:E; lia).
    unfold datetime_add.
    replace (datetime_ok (start' + duration)) with true
      by (symmetry; apply datetime_ok_iff; lia).
    cbn [bind].
    destruct (start' =? latest) eqn:E; [exists start'; auto|].
    apply IH; assumption.
Qed.

Lemma sweep_covers intervals : forall cur t,
  cur <= t < sweep intervals cur ->
  exists bs be, In (bs, be) intervals /\ bs <= t < be.
Proof.
  induction intervals as [|[bs be] rest IH]; intros cur t Ht; cbn [sweep] in Ht.
  - lia.
  - destruct (bs <=? cur) eqn:E; [|lia].
    destruct (Z_lt_dec t be) as [Hlt|Hge].
    + exists bs, be. split; [left; reflexivity|lia].
    + destruct (IH (Z.max cur be) t ltac:(lia)) as (bs' & be' & Hin & Hr).
      exists bs', be'. split; [right; exact Hin|exact Hr].
Qed.

Lemma covers_check_sound intervals a b :
  covers_check intervals a b = true -> covers intervals a b.
Proof.
  unfold covers_check, covers. intros Hc t Ht.
  apply (sweep_covers intervals a t). lia.
Qed.

Lemma filter_length_lt {A : Type} (p q : A -> bool) (l : list A) (a : A) :
  (forall x, q x = true -> p x = true) ->
  In a l -> p a = true -> q a = false ->
  (length (List.filter q l) < length (List.filter p l))%nat.
Proof.
  intros Hqp. 
  assert (Hle : forall l', (length (List.filter q l') <= length (List.filter p l'))%nat).
  { induction l' as [|x r IH]; cbn [List.filter]; [cbn [length]; lia|].
    destruct (q x) eqn:Eq.
    - rewrite (Hqp x Eq). cbn [length]. lia.
    - destruct (p x); cbn [length]; lia. }
  induction l as [|x r IH]; intros Hin Hpa Hqa; [destruct Hin|].
  cbn [List.filter]. destruct Hin as [->|Hin].
  - rewrite Hpa, Hqa. cbn [length]. specialize (Hle r). lia.
  - specialize (IH Hin Hpa Hqa).
    destruct (q x) eqn:Eq.
    + rewrite (Hqp x Eq). cbn [length]. lia.
    + destruct (p x); cbn [length]; lia.
Qed.

Lemma find_is_some {A : Type} (f : A -> bool) (l : list A) (a : A) :
  In a l -> f a = true -> exists b, find f l = Some b.
Proof.
  intros Hin Hf. destruct (find f l) as [b|] eqn:E; [exists b; reflexivity|].
  rewrite (find_none f l E a Hin) in Hf. discriminate.
Qed.

(** On a span covered by the busy intervals every round finds a conflict
    and jumps past it, so each interval is jumped at most once: when the
    rounds left are no fewer than the intervals still ahead, the search
    ends on [latest]. *)
Lemma slot_loop_naive_booked intervals lo hi latest duration rounds : forall start,
  0 <= lo -> 0 < duration -> latest + duration <= MAX_US ->
  lo <= latest < hi ->
  covers intervals lo hi ->
  lo <= start <= latest ->
  (length (List.filter (fun i : datetime * datetime => (start <? snd i)%Z) intervals) <= rounds)%nat ->
  slot_loop_naive rounds intervals latest duration start (start + duration)
  = Return (latest, latest + duration).
Proof.
  induction rounds as [|k IH]; intros start Hlo Hdur Hmax Hlat Hcov Hstart Hcount.
  - exfalso.
    destruct (Hcov start ltac:(lia)) as (bs & be & Hin & Hr).
    assert (Hin' : In (bs, be) (List.filter (fun i : datetime * datetime => start <? snd i) intervals)).
    { apply filter_In. split; [exact Hin|]. cbn [snd]. apply Z.ltb_lt. lia. }
    destruct (List.filter (fun i : datetime * datetime => start <? snd i) intervals); [destruct Hin'|].
    cbn [length] in Hcount. lia.
  - cbn [slot_loop_naive].
    destruct (Hcov start ltac:(lia)) as (bs & be & Hin & Hr).
    destruct (find_is_some (fun '(bs, be) => overlaps_naive start (start + duration) bs be)
                intervals (bs, be) Hin) as [[cs ce] Hf].
    { unfold overlaps_naive. apply andb_true_intro. split; [apply Z.ltb_lt|apply Z.gtb_lt]; lia. }
    rewrite Hf. apply find_some in Hf. destruct Hf as [Hcin Hov].
    unfold overlaps_naive in Hov. apply andb_prop in Hov. destruct Hov as [Hov _].
    apply Z.ltb_lt in Hov. cbn [snd].
    destruct (ce >? latest) eqn:E.
    + unfold datetime_add.
      replace (datetime_ok (latest + duration)) with true
        by (symmetry; apply datetime_ok_iff; lia).
      cbn [bind]. rewrite Z.eqb_refl. reflexivity.
    + unfold datetime_add.
      replace (datetime_ok (ce + duration)) with true
        by (symmetry; apply datetime_ok_iff; lia).
      cbn [bind].
      destruct (ce =? latest) eqn:E2.
      * apply Z.eqb_eq in E2. rewrite E2. reflexivity.
      * apply IH; try assumption; try lia.
        assert (Hlt := filter_length_lt
                         (fun i : datetime * datetime => start <? snd i)
                         (fun i : datetime * datetime => ce <? snd i)
                         intervals (cs, ce)).
        cbn [snd] in Hlt.
        specialize (Hlt ltac:(intros x Hx; apply Z.ltb_lt; apply Z.ltb_lt in Hx; lia)
                        Hcin ltac:(apply Z.ltb_lt; lia) ltac:(apply Z.ltb_ge; lia)).
        lia.
Qed.

Lemma find_is_none {A : Type} (f : A -> bool) (l : list A) :
  (forall x, In x l -> f x = false) -> find f l = None.
Proof.
  intros H. induction l as [|x r IH]; [reflexivity|]. cbn [find].
  rewrite (H x (or_introl eq_refl)). apply IH. intros y Hy. apply H. right; exact Hy.
Qed.

(** The search only moves forward, and only to the end of a busy interval
    or to [latest]. *)
Lemma slot_loop_naive_trace rounds intervals latest duration : forall start e0 s e,
  start <= latest ->
  slot_loop_naive rounds intervals latest duration start e0 = Return (s, e) ->
  start <= s
  /\ (s = start \/ s = latest \/ exists bs, In (bs, s) intervals).
Proof.
  induction rounds as [|k IH]; intros start e0 s e Hle Hrun; cbn [slot_loop_naive] in Hrun.
  - injection Hrun as <- <-. split; [lia|left; reflexivity].
  - destruct (find _ intervals) as [[bs be]|] eqn:Hf.
    2:{ injection Hrun as <- <-. split; [lia|left; reflexivity]. }
    apply find_some in Hf. destruct Hf as [Hin Hov].
    unfold overlaps_naive in Hov. apply andb_prop in Hov. destruct Hov as [Hov _].
    apply Z.ltb_lt in Hov. cbn [snd] in Hrun.
    set (start' := if be >? latest then latest else be) in *.
    assert (Hs' : start <= start' <= latest /\ (start' = latest \/ start' = be))
      by (subst start'; destruct (be >? latest) eqn:E; lia).
    destruct (datetime_add start' duration) as [e1|err]; [|discriminate].
    cbn [bind] in Hrun.
    destruct (start' =? latest) eqn:E.
    + injection Hrun as <- <-. apply Z.eqb_eq in E. split; [lia|right; left; exact E].
    + destruct (IH start' e1 s e ltac:(lia) Hrun) as [Hge Hcase].
      split; [lia|].
      destruct Hcase as [->|[->|Hex]]; [|right; left; reflexivity|right; right; exact Hex].
      apply Z.eqb_neq in E.
      right; right. exists bs. replace start' with be by lia. exact Hin.
Qed.

(** With at least as many rounds left as busy intervals still ahead, the
    search ends on a free window or on [latest]. *)
Lemma slot_loop_naive_free rounds intervals latest duration : forall start s e,
  0 < duration ->
  start <= latest ->
  (length (List.filter (fun i : datetime * datetime => (start <? snd i)%Z) intervals)
   <= rounds)%nat ->
  slot_loop_naive rounds intervals latest duration start (start + duration) = Return (s, e) ->
  e = s + duration
  /\ (s = latest
      \/ forall bs be, In (bs, be) intervals -> overlaps_naive s e bs be = false).
Proof.
  induction rounds as [|k IH]; intros start s e Hdur Hle Hcount Hrun;
    cbn [slot_loop_naive] in Hrun.
  - injection Hrun as <- <-. split; [reflexivity|]. right. intros bs be Hin.
    unfold overlaps_naive. apply andb_false_iff. left. apply Z.ltb_ge.
    destruct (Z_lt_dec start be) as [Hlt|Hge]; [|lia]. exfalso.
    assert (Hin' : In (bs, be)
                      (List.filter (fun i : datetime * datetime => start <? snd i) intervals)).
    { apply filter_In. split; [exact Hin|]. apply Z.ltb_lt. exact Hlt. }
    destruct (List.filter (fun i : datetime * datetime => start <? snd i) intervals);
      [destruct Hin'|cbn [length] in Hcount; lia].
  - destruct (find _ intervals) as [[cs ce]|] eqn:Hf.
    2:{ injection Hrun as <- <-. split; [reflexivity|]. right. intros bs be Hin.
        apply (find_none _ _ Hf (bs, be) Hin). }
    apply find_some in Hf. destruct Hf as [Hcin Hov].
    unfold overlaps_naive in Hov. apply andb_prop in Hov. destruct Hov as [Hov _].
    apply Z.ltb_lt in Hov. cbn [snd] in Hrun.
    destruct (ce >? latest) eqn:E.
    + destruct (datetime_add latest duration) as [e1|err] eqn:Ea; [|discriminate].
      cbn [bind] in Hrun. rewrite Z.eqb_refl in Hrun. injection Hrun as <- <-.
      unfold datetime_add in Ea. destruct (datetime_ok (latest + duration)); [|discriminate].
      injection Ea as <-. split; [reflexivity|left; reflexivity].
    + destruct (datetime_add ce duration) as [e1|err] eqn:Ea; [|discriminate].
      cbn [bind] in Hrun.
      unfold datetime_add in Ea. destruct (datetime_ok (ce + duration)); [|discriminate].
      injection Ea as <-.
      destruct (ce =? latest) eqn:E2.
      * injection Hrun as <- <-. apply Z.eqb_eq in E2.
        split; [reflexivity|left; exact E2].
      * apply (IH ce s e Hdur ltac:(lia)); [|exact Hrun].
        assert (Hlt := filter_length_lt
                         (fun i : datetime * datetime => start <? snd i)
                         (fun i : datetime * datetime => ce <? snd i)
                         intervals (cs, ce)).
        cbn [snd] in Hlt.
        specialize (Hlt ltac:(intros x Hx; apply Z.ltb_lt; apply Z.ltb_lt in Hx; lia)
                        Hcin ltac:(apply Z.ltb_lt; lia) ltac:(apply Z.ltb_ge; lia)).
        lia.
Qed.

(** ** The overlap test and the rounds of the code on naive values *)

Lemma overlaps_lift a b c d :
  _overlaps (Naive a) (Naive b) (Naive c) (Naive d) = Return (overlaps_naive a b c d).
Proof.
  unfold _overlaps, overlaps_naive, stamp_lt, stamp_gt. cbn [stamp_cmp bind].
  destruct (a <? d); reflexivity.
Qed.

Lemma overlaps_raises a b c d e : _overlaps a b c d = Raise e -> e = TypeError.
Proof.
  unfold _overlaps. destruct (stamp_lt a d) as [x|e'] eqn:E1; cbn [bind].
  - destruct x; [|discriminate]. apply stamp_cmp_raises.
  - intros [= <-]. apply stamp_cmp_raises in E1. exact E1.
Qed.

(** The test on a naive window returns only against an interval whose end
    is naive. *)
Lemma overlaps_naive_end a b c d x :
  _overlaps (Naive a) b c d = Return x -> is_naive d = true.
Proof.
  unfold _overlaps. destruct (stamp_lt (Naive a) d) as [y|e] eqn:E; cbn [bind];
    [|discriminate].
  intros _. apply stamp_cmp_kind in E. cbn in E. congruence.
Qed.

Lemma first_conflict_lift s e l :
  first_conflict (Naive s) (Naive e) (map lift l)
  = Return (option_map lift (find (fun '(bs, be) => overlaps_naive s e bs be) l)).
Proof.
  induction l as [|[bs be] r IH]; cbn [map first_conflict find]; [reflexivity|].
  unfold lift at 1. cbn [fst snd]. rewrite overlaps_lift. cbn [bind].
  destruct (overlaps_naive s e bs be); [reflexivity|exact IH].
Qed.

Lemma first_conflict_raises s e l err :
  first_conflict s e l = Raise err -> err = TypeError.
Proof.
  induction l as [|[bs be] r IH]; cbn [first_conflict]; [discriminate|].
  destruct (_overlaps s e bs be) as [x|e'] eqn:E; cbn [bind].
  - destruct x; [discriminate|exact IH].
  - intros [= <-]. apply overlaps_raises in E. exact E.
Qed.

Lemma first_conflict_none s e l :
  (forall bs be, In (bs, be) l -> _overlaps s e bs be = Return false) ->
  first_conflict s e l = Return None.
Proof.
  induction l as [|[bs be] r IH]; intros H; cbn [first_conflict]; [reflexivity|].
  rewrite (H bs be (or_introl eq_refl)). cbn [bind].
  apply IH. intros bs' be' Hin. apply H. right; exact Hin.
Qed.

Lemma slot_loop_lift rounds l latest duration : forall s e,
  slot_loop rounds (map lift l) (Naive latest) duration (Naive s) (Naive e)
  = lift_result (slot_loop_naive rounds l latest duration s e).
Proof.
  induction rounds as [|k IH]; intros s e; cbn [slot_loop slot_loop_naive];
    [reflexivity|].
  rewrite first_conflict_lift. cbn [bind].
  destruct (find _ l) as [[bs be]|]; cbn [option_map]; [|reflexivity].
  change (lift (bs, be)) with (Naive bs, Naive be).
  cbn [fst snd]. unfold stamp_gt. cbn [stamp_cmp bind].
  destruct (be >? latest).
  - cbn [stamp_add]. destruct (datetime_add latest duration) as [e1|err]; cbn [bind];
      [|reflexivity].
    cbn [stamp_eqb]. destruct (latest =? latest); [reflexivity|apply IH].
  - cbn [stamp_add]. destruct (datetime_add be duration) as [e1|err]; cbn [bind];
      [|reflexivity].
    cbn [stamp_eqb]. destruct (be =? latest); [reflexivity|apply IH].
Qed.

(** ** Busy intervals and slot resolution over a store

    Everything in this section holds for any grammar of
    [fromisoformat]. *)

Lemma eq_str_true v s : eq_str v s = true <-> v = JStr s.
Proof.
  destruct v; cbn; try (split; [discriminate|intros [=]]).
  rewrite String.eqb_eq. split; [intros ->; reflexivity|intros [= ->]; reflexivity].
Qed.

Section Store.

Context `{G : IsoGrammar}.

Lemma parse_iso_dt_ok v a :
  _parse_iso_dt v = Some a -> 0 <= stamp_local a <= MAX_US.
Proof.
  unfold _parse_iso_dt, fromisoformat. destruct v; try discriminate.
  destruct (negb (str_contains "T" s)); [discriminate|].
  destruct (iso_fields s) as [[[[[[[[y m] d] hh] mm] ss] us] tz]|]; [|discriminate].
  destruct (datetime_new y m d hh mm ss us) as [x|] eqn:E; cbn [bind]; [|discriminate].
  apply datetime_new_ok in E.
  destruct tz as [offset|].
  - destruct ((- US_PER_DAY <? offset) && (offset <? US_PER_DAY)); [|discriminate].
    intros [= <-]. exact E.
  - intros [= <-]. exact E.
Qed.

Lemma busy_entry_iff day ev s e :
  In (s, e) (busy_entry day ev) <-> is_busy_on day ev s e.
Proof.
  unfold busy_entry, is_busy_on.
  destruct (_parse_iso_dt (get_default ev "start" (JStr ""))) as [[s'|s' o]|];
    try (split; [intros []|intros (_ & _ & [=] & _)]).
  destruct (_parse_iso_dt (get_default ev "end" (JStr ""))) as [[e'|e' o]|];
    try (split; [intros []|intros (_ & _ & _ & [=] & _)]).
  destruct (eq_str (get ev "kind") "event" && negb (truthy (get ev "allDay"))
            && date_eqb (datetime_date s') day && (s' <? e')) eqn:E.
  - repeat (apply andb_prop in E; destruct E as [E ?]).
    apply eq_str_true in E.
    split.
    + intros [[= <- <-]|[]].
      repeat split; try assumption.
      * destruct (truthy (get ev "allDay")); [discriminate|reflexivity].
      * apply date_eqb_eq; assumption.
      * lia.
    + intros (_ & _ & [= <-] & [= <-] & _). left; reflexivity.
  - split; [intros []|].
    intros (Hk & Ha & [= <-] & [= <-] & Hd & Hlt). exfalso.
    apply eq_str_true in Hk. apply date_eqb_eq in Hd.
    rewrite Hk, Ha, Hd in E. cbn in E. lia.
Qed.

(** *** One record at a time *)

Lemma busy_loop_cons ev rest day acc :
  busy_loop (ev :: rest) day acc
  = do l <- busy_step day ev; busy_loop rest day (acc ++ l).
Proof.
  cbn [busy_loop]. unfold busy_step.
  destruct (negb (eq_str (get ev "kind") "event"));
    [cbn [bind]; rewrite app_nil_r; reflexivity|].
  destruct (truthy (get ev "allDay")); [cbn [bind]; rewrite app_nil_r; reflexivity|].
  destruct (_parse_iso_dt (get_default ev "start" (JStr ""))) as [s|];
    [|cbn [bind]; rewrite app_nil_r; reflexivity].
  destruct (_parse_iso_dt (get_default ev "end" (JStr ""))) as [e|];
    [|cbn [bind]; rewrite app_nil_r; reflexivity].
  destruct (negb (date_eqb (stamp_date s) day));
    [cbn [bind]; rewrite app_nil_r; reflexivity|].
  destruct (stamp_le e s) as [c|err]; cbn [bind]; [|reflexivity].
  destruct c; [rewrite app_nil_r|]; reflexivity.
Qed.

Ltac step_cases ev :=
  destruct (_parse_iso_dt (get_default ev "start" (JStr ""))) as [[?s|?s ?o]|];
  destruct (_parse_iso_dt (get_default ev "end" (JStr ""))) as [[?e|?e ?o]|];
  destruct (eq_str (get ev "kind") "event"); cbn [negb andb];
  destruct (truthy (get ev "allDay")); cbn [negb andb].

Lemma busy_step_naive day ev :
  naive_record ev = true -> busy_step day ev = Return (map lift (busy_entry day ev)).
Proof.
  unfold naive_record, offset_free, busy_step, busy_entry. intros Hrec.
  step_cases ev; cbn [andb] in Hrec; rewrite ?andb_false_r in Hrec;
    try discriminate; try reflexivity.
  unfold stamp_date; cbn [stamp_local].
  destruct (date_eqb (datetime_date s) day); cbn [negb andb]; [|reflexivity].
  unfold stamp_le. cbn [stamp_cmp bind].
  destruct (e <=? s) eqn:E.
  - replace (s <? e) with false by (symmetry; apply Z.ltb_ge; lia). reflexivity.
  - replace (s <? e) with true by (symmetry; apply Z.ltb_lt; lia). reflexivity.
Qed.

Lemma busy_step_skip day ev :
  naive_record ev = true -> (forall s e, ~ is_busy_on day ev s e) ->
  busy_step day ev = Return [].
Proof.
  intros Hrec Hnot. rewrite busy_step_naive by exact Hrec.
  destruct (busy_entry day ev) as [|[s e] r] eqn:E; [reflexivity|]. exfalso.
  apply (Hnot s e). apply busy_entry_iff. rewrite E. left; reflexivity.
Qed.

Lemma busy_step_raises day ev e : busy_step day ev = Raise e -> e = TypeError.
Proof.
  unfold busy_step.
  destruct (negb (eq_str (get ev "kind") "event")); [discriminate|].
  destruct (truthy (get ev "allDay")); [discriminate|].
  destruct (_parse_iso_dt (get_default ev "start" (JStr ""))) as [s|]; [|discriminate].
  destruct (_parse_iso_dt (get_default ev "end" (JStr ""))) as [e'|]; [|discriminate].
  destruct (negb (date_eqb (stamp_date s) day)); [discriminate|].
  destruct (stamp_le e' s) as [c|err] eqn:E; cbn [bind]; [discriminate|].
  intros [= <-]. apply stamp_cmp_raises in E. exact E.
Qed.

Lemma busy_step_homog day ev l :
  busy_step day ev = Return l ->
  forall i, In i l -> is_naive (fst i) = is_naive (snd i).
Proof.
  unfold busy_step.
  destruct (negb (eq_str (get ev "kind") "event")); [intros [= <-] i []|].
  destruct (truthy (get ev "allDay")); [intros [= <-] i []|].
  destruct (_parse_iso_dt (get_default ev "start" (JStr ""))) as [s|];
    [|intros [= <-] i []].
  destruct (_parse_iso_dt (get_default ev "end" (JStr ""))) as [e|];
    [|intros [= <-] i []].
  destruct (negb (date_eqb (stamp_date s) day)); [intros [= <-] i []|].
  destruct (stamp_le e s) as [c|err] eqn:E; cbn [bind]; [|discriminate].
  intros [= <-] i Hin. destruct c; [destruct Hin|].
  destruct Hin as [<-|[]]. cbn [fst snd].
  apply stamp_cmp_kind in E. symmetry. exact E.
Qed.

Lemma busy_step_all_naive day ev l :
  busy_step day ev = Return l -> forallb naive_pair l = true ->
  l = map lift (busy_entry day ev).
Proof.
  unfold busy_step, busy_entry.
  step_cases ev; try (intros [= <-] _; reflexivity);
    unfold stamp_date; cbn [stamp_local];
    match goal with
    | |- context [date_eqb ?d ?day] => destruct (date_eqb d day)
    end; cbn [negb andb]; try (intros [= <-] _; reflexivity);
    unfold stamp_le; cbn [stamp_cmp bind]; try discriminate.
  - destruct (e <=? s) eqn:E; intros [= <-] _.
    + replace (s <? e) with false by (symmetry; apply Z.ltb_ge; lia). reflexivity.
    + replace (s <? e) with true by (symmetry; apply Z.ltb_lt; lia). reflexivity.
  - destruct (e - o0 <=? s - o); intros [= <-] Hn; [reflexivity|].
    cbn in Hn. discriminate.
Qed.

(** *** The loop and the sort *)

Lemma busy_loop_app a : forall b day acc,
  busy_loop (a ++ b) day acc
  = do acc' <- busy_loop a day acc; busy_loop b day acc'.
Proof.
  induction a as [|ev a IH]; intros b day acc; [reflexivity|].
  rewrite <- app_comm_cons, !busy_loop_cons.
  destruct (busy_step day ev) as [l|e]; cbn [bind]; [apply IH|reflexivity].
Qed.

Lemma busy_loop_prefix events day : forall acc l,
  busy_loop events day acc = Return l -> exists t, l = acc ++ t.
Proof.
  induction events as [|ev rest IH]; intros acc l.
  - cbn [busy_loop]. intros [= <-]. exists []. rewrite app_nil_r. reflexivity.
  - rewrite busy_loop_cons.
    destruct (busy_step day ev) as [x|e]; cbn [bind]; [|discriminate].
    intros H. destruct (IH _ _ H) as [t ->]. exists (x ++ t).
    rewrite app_assoc. reflexivity.
Qed.

Lemma busy_loop_raises events day : forall acc e,
  busy_loop events day acc = Raise e -> e = TypeError.
Proof.
  induction events as [|ev rest IH]; intros acc e; [discriminate|].
  rewrite busy_loop_cons.
  destruct (busy_step day ev) as [x|e'] eqn:E; cbn [bind]; [apply IH|].
  intros [= <-]. apply busy_step_raises in E. exact E.
Qed.

Lemma busy_loop_homog events day : forall acc l,
  busy_loop events day acc = Return l ->
  (forall i, In i acc -> is_naive (fst i) = is_naive (snd i)) ->
  forall i, In i l -> is_naive (fst i) = is_naive (snd i).
Proof.
  induction events as [|ev rest IH]; intros acc l.
  - cbn [busy_loop]. intros [= <-] H. exact H.
  - rewrite busy_loop_cons.
    destruct (busy_step day ev) as [x|e] eqn:E; cbn [bind]; [|discriminate].
    intros H Hacc. apply (IH _ _ H). intros i Hi.
    apply in_app_or in Hi. destruct Hi as [Hi|Hi];
      [apply Hacc; exact Hi|apply (busy_step_homog _ _ _ E); exact Hi].
Qed.

Lemma busy_loop_returns events day : forall acc,
  naive_store events = true ->
  busy_loop events day (map lift acc)
  = Return (map lift (acc ++ flat_map (busy_entry day) events)).
Proof.
  induction events as [|ev rest IH]; intros acc Hst.
  - cbn [busy_loop flat_map]. rewrite app_nil_r. reflexivity.
  - unfold naive_store in Hst. cbn [forallb] in Hst.
    apply andb_prop in Hst. destruct Hst as [Hrec Hrest].
    rewrite busy_loop_cons, busy_step_naive by exact Hrec.
    cbn [bind flat_map]. rewrite <- map_app, IH by exact Hrest.
    rewrite app_assoc. reflexivity.
Qed.

Lemma busy_loop_naive events day : forall acc l,
  busy_loop events day (map lift acc) = Return l ->
  forallb naive_pair l = true ->
  l = map lift (acc ++ flat_map (busy_entry day) events).
Proof.
  induction events as [|ev rest IH]; intros acc l H Hn.
  - cbn [busy_loop] in H. injection H as <-. cbn [flat_map].
    rewrite app_nil_r. reflexivity.
  - rewrite busy_loop_cons in H.
    destruct (busy_step day ev) as [x|e] eqn:E; cbn [bind] in H; [|discriminate].
    destruct (busy_loop_prefix _ _ _ _ H) as [t Ht].
    assert (Hx : forallb naive_pair x = true).
    { rewrite Ht, !forallb_app in Hn.
      apply andb_prop in Hn. destruct Hn as [Hn _].
      apply andb_prop in Hn. destruct Hn as [_ Hn]. exact Hn. }
    rewrite (busy_step_all_naive _ _ _ E Hx), <- map_app in H.
    rewrite (IH _ _ H Hn). cbn [flat_map]. rewrite app_assoc. reflexivity.
Qed.

Lemma busy_intervals_returns events day :
  naive_store events = true ->
  _busy_intervals_for_date events day
  = Return (map lift (intervals_naive events day)).
Proof.
  intros H. unfold _busy_intervals_for_date, intervals_naive.
  assert (E := busy_loop_returns events day [] H). cbn [map app] in E.
  rewrite E. cbn [bind]. apply sort_by_start_lift.
Qed.

Lemma busy_intervals_naive events day l :
  _busy_intervals_for_date events day = Return l ->
  forallb naive_pair l = true ->
  l = map lift (intervals_naive events day).
Proof.
  unfold _busy_intervals_for_date, intervals_naive.
  destruct (busy_loop events day []) as [l1|e] eqn:E; cbn [bind]; [|discriminate].
  intros Hs Hn.
  assert (Hp := sort_by_start_perm _ _ Hs).
  assert (Hn1 := all_naive_perm _ _ Hp Hn).
  assert (E1 := busy_loop_naive events day [] l1 E Hn1). cbn [app] in E1. subst l1.
  rewrite sort_by_start_lift in Hs. injection Hs as <-. reflexivity.
Qed.

Lemma busy_intervals_raises events day e :
  _busy_intervals_for_date events day = Raise e -> e = TypeError.
Proof.
  unfold _busy_intervals_for_date.
  destruct (busy_loop events day []) as [l1|e'] eqn:E; cbn [bind].
  - apply sort_by_start_raises.
  - intros [= <-]. apply busy_loop_raises in E. exact E.
Qed.

(** The list the code returns is of one kind: naive throughout as soon as
    the end of its first interval is. *)
Lemma busy_intervals_kind events day i r :
  _busy_intervals_for_date events day = Return (i :: r) ->
  is_naive (snd i) = true ->
  forallb naive_pair (i :: r) = true.
Proof.
  unfold _busy_intervals_for_date.
  destruct (busy_loop events day []) as [l1|e] eqn:E; cbn [bind]; [|discriminate].
  intros Hs Hi.
  assert (Hp := sort_by_start_perm _ _ Hs).
  assert (Hhom := busy_loop_homog events day [] l1 E ltac:(intros j [])).
  assert (Hkey := sort_by_start_kind _ _ Hs).
  assert (Hin : In i l1) by (apply (Permutation_in _ Hp); left; reflexivity).
  apply forallb_forall. intros j Hj.
  assert (Hjn : In j l1) by (apply (Permutation_in _ Hp); exact Hj).
  unfold naive_pair.
  rewrite <- (Hhom j Hjn), (Hkey j i Hjn Hin), (Hhom i Hin), Hi. reflexivity.
Qed.

Lemma busy_loop_of_intervals events day l :
  _busy_intervals_for_date events day = Return l ->
  forallb naive_pair l = true ->
  busy_loop events day [] = Return (map lift (flat_map (busy_entry day) events)).
Proof.
  unfold _busy_intervals_for_date.
  destruct (busy_loop events day []) as [l1|e] eqn:E; cbn [bind]; [|discriminate].
  intros Hs Hn. f_equal.
  assert (Hp := sort_by_start_perm _ _ Hs).
  assert (Hn1 := all_naive_perm _ _ Hp Hn).
  exact (busy_loop_naive events day [] l1 E Hn1).
Qed.

(** *** Naive intervals *)

Lemma busy_intervals_perm events day :
  Permutation (intervals_naive events day) (flat_map (busy_entry day) events).
Proof. apply sort_naive_perm. Qed.

Lemma busy_intervals_in events day s e :
  In (s, e) (intervals_naive events day)
  <-> exists ev, In ev events /\ is_busy_on day ev s e.
Proof.
  assert (Hp := busy_intervals_perm events day).
  split.
  - intros Hin. apply (Permutation_in _ Hp) in Hin.
    apply in_flat_map in Hin. destruct Hin as (ev & Hev & Hb).
    exists ev. split; [exact Hev|apply busy_entry_iff; exact Hb].
  - intros (ev & Hev & Hb).
    apply (Permutation_in _ (Permutation_sym Hp)).
    apply in_flat_map. exists ev. split; [exact Hev|apply busy_entry_iff; exact Hb].
Qed.

(** Every busy interval of a day starts inside the day and is a valid,
    non-empty span. *)
Lemma busy_interval_bounds events day bs be :
  In (bs, be) (intervals_naive events day) ->
  date_ok day
  /\ day_start day <= bs < day_start day + US_PER_DAY
  /\ bs < be <= MAX_US.
Proof.
  intros Hin. apply busy_intervals_in in Hin.
  destruct Hin as (ev & _ & _ & _ & Hs & He & Hd & Hlt).
  apply parse_iso_dt_ok in Hs, He. cbn [stamp_local] in Hs, He.
  destruct (datetime_date_day bs day Hs Hd) as [Hok Hr].
  repeat split; try lia; exact Hok.
Qed.

(** C5, as amended. On a store without UTC offsets the call returns, and
    the intervals returned for a day are exactly those of the stored
    records of kind "event" that are not all-day, whose start and end both
    parse, whose start falls on that day and whose end is strictly after
    their start, one interval per such record, in ascending order of start
    time. *)
Theorem busy_intervals_for_date_spec (events : list event) (day : date) :
  naive_store events = true ->
  exists intervals,
    _busy_intervals_for_date events day = Return (map lift intervals)
    /\ Permutation intervals (flat_map (busy_entry day) events)
    /\ (forall ev s e, In (s, e) (busy_entry day ev) <-> is_busy_on day ev s e)
    /\ (forall ev, (length (busy_entry day ev) <= 1)%nat)
    /\ (forall s e, In (s, e) intervals
                    <-> exists ev, In ev events /\ is_busy_on day ev s e)
    /\ StronglySorted start_le intervals.
Proof.
  intros Hst. exists (intervals_naive events day).
  split; [apply busy_intervals_returns; exact Hst|].
  split; [apply busy_intervals_perm|].
  split; [intros; apply busy_entry_iff|].
  split.
  { intros ev. unfold busy_entry.
    repeat match goal with
           | |- context [match ?x with _ => _ end] => destruct x
           end; cbn; lia. }
  split; [intros; apply busy_intervals_in|].
  apply sort_naive_sorted.
Qed.

(** *** The search *)

(** The search up to the point where it consults the store. *)
Lemma find_next_free_slot_unfold events day proposed_start duration_min :
  date_ok day -> 0 < duration_min -> slot_representable day duration_min ->
  let duration := duration_min * US_PER_MINUTE in
  let latest := latest_start day duration_min in
  let start := Z.min (Z.max (day_start day) proposed_start) latest in
  find_next_free_slot events day (Naive proposed_start) duration_min
  = (do intervals <- _busy_intervals_for_date events day;
     match intervals with
     | [] => Return (Naive start, Naive (start + duration))
     | _ :: _ =>
         slot_loop 200 intervals (Naive latest) duration
                   (Naive start) (Naive (start + duration))
     end)
  /\ day_start day <= start <= latest.
Proof.
  intros Hok Hpos [Hlow Hhigh] duration latest start.
  assert (Hds := day_start_range day Hok).
  assert (Hde := day_end_start day).
  assert (Hls := latest_start_range day duration_min Hok Hpos).
  fold latest in Hls, Hhigh. fold duration in Hlow, Hhigh.
  assert (Hdur : 0 < duration) by (unfold duration; unfold_us; lia).
  assert (Hst : day_start day <= start <= latest) by (subst start; lia).
  split; [|exact Hst].
  unfold find_next_free_slot.
  rewrite timedelta_minutes_ok by (fold duration; unfold_us; lia).
  cbn [bind]. fold (day_start day) (day_end day) duration.
  unfold datetime_sub.
  replace (datetime_ok (day_end day - duration)) with true
    by (symmetry; apply datetime_ok_iff; unfold_us; lia).
  cbn [bind].
  replace (if day_end day - duration <? day_start day then day_start day
           else day_end day - duration) with latest
    by (subst latest; unfold latest_start; fold duration;
        destruct (day_end day - duration <? day_start day) eqn:E; lia).
  unfold stamp_gt. cbn [stamp_cmp bind].
  replace (if proposed_start >? day_start day then Naive proposed_start
           else Naive (day_start day))
    with (Naive (Z.max (day_start day) proposed_start))
    by (destruct (proposed_start >? day_start day) eqn:E; f_equal; lia).
  cbn [stamp_cmp bind].
  replace (if Z.max (day_start day) proposed_start >? latest then Naive latest
           else Naive (Z.max (day_start day) proposed_start)) with (Naive start)
    by (subst start;
        destruct (Z.max (day_start day) proposed_start >? latest) eqn:E; f_equal; lia).
  cbn [stamp_add]. unfold datetime_add.
  replace (datetime_ok (start + duration)) with true
    by (symmetry; apply datetime_ok_iff; lia).
  cbn [bind]. reflexivity.
Qed.

Lemma find_next_free_slot_raises events day proposed_start duration_min :
  date_ok day -> 0 < duration_min -> ~ slot_representable day duration_min ->
  find_next_free_slot events day (Naive proposed_start) duration_min
  = Raise OverflowError.
Proof.
  intros Hok Hpos Hrep.
  assert (Hds := day_start_range day Hok).
  assert (Hde := day_end_start day).
  unfold find_next_free_slot, timedelta_minutes.
  destruct (timedelta_ok (duration_min * US_PER_MINUTE)); [|reflexivity].
  cbn [bind]. fold (day_start day) (day_end day).
  set (duration := duration_min * US_PER_MINUTE) in *.
  unfold datetime_sub.
  destruct (datetime_ok (day_end day - duration)) eqn:E1; [|reflexivity].
  cbn [bind]. apply datetime_ok_iff in E1.
  assert (Hhigh : ~ latest_start day duration_min + duration <= MAX_US).
  { intros Hh. apply Hrep. split; [fold duration; lia|exact Hh]. }
  unfold latest_start in Hhigh. fold duration in Hhigh.
  assert (Hl : day_end day - duration < day_start day) by (unfold_us; lia).
  replace (day_end day - duration <? day_start day) with true
    by (symmetry; apply Z.ltb_lt; exact Hl).
  unfold stamp_gt. cbn [stamp_cmp bind].
  replace (if proposed_start >? day_start day then Naive proposed_start
           else Naive (day_start day))
    with (Naive (Z.max (day_start day) proposed_start))
    by (destruct (proposed_start >? day_start day) eqn:E; f_equal; lia).
  cbn [stamp_cmp bind].
  replace (if Z.max (day_start day) proposed_start >? day_start day
           then Naive (day_start day)
           else Naive (Z.max (day_start day) proposed_start))
    with (Naive (day_start day))
    by (destruct (Z.max (day_start day) proposed_start >? day_start day) eqn:E;
        f_equal; lia).
  cbn [stamp_add]. unfold datetime_add.
  replace (datetime_ok (day_start day + duration)) with false; [reflexivity|].
  symmetry. apply not_true_iff_false. rewrite datetime_ok_iff. lia.
Qed.

Lemma find_next_free_slot_return_inv events day proposed_start duration_min r :
  date_ok day -> 0 < duration_min ->
  find_next_free_slot events day (Naive proposed_start) duration_min = Return r ->
  slot_representable day duration_min.
Proof.
  intros Hok Hpos Hr.
  assert (Hdec : slot_representable day duration_min
                 \/ ~ slot_representable day duration_min)
    by (unfold slot_representable; lia).
  destruct Hdec as [Hrep|Hrep]; [exact Hrep|].
  rewrite find_next_free_slot_raises in Hr by assumption. discriminate.
Qed.

(** On naive intervals the search of the code is the naive search. *)
Lemma find_next_free_slot_lift events day proposed_start duration_min :
  date_ok day -> 0 < duration_min -> slot_representable day duration_min ->
  _busy_intervals_for_date events day
  = Return (map lift (intervals_naive events day)) ->
  find_next_free_slot events day (Naive proposed_start) duration_min
  = lift_result
      (search_naive (intervals_naive events day) (latest_start day duration_min)
         (duration_min * US_PER_MINUTE)
         (Z.min (Z.max (day_start day) proposed_start)
                (latest_start day duration_min))).
Proof.
  intros Hok Hpos Hrep Hb.
  destruct (find_next_free_slot_unfold events day proposed_start duration_min
              Hok Hpos Hrep) as [Heq _].
  cbv zeta in Heq. rewrite Heq, Hb. cbn [bind]. unfold search_naive.
  destruct (intervals_naive events day) as [|i r]; [reflexivity|].
  exact (slot_loop_lift 200 (i :: r) _ _ _ _).
Qed.

(** The naive search returns a window of the requested length inside the
    admissible range. *)
Lemma search_naive_returns events day proposed_start duration_min :
  date_ok day -> 0 < duration_min -> slot_representable day duration_min ->
  exists s,
    search_naive (intervals_naive events day) (latest_start day duration_min)
      (duration_min * US_PER_MINUTE)
      (Z.min (Z.max (day_start day) proposed_start) (latest_start day duration_min))
    = Return (s, s + duration_min * US_PER_MINUTE)
    /\ day_start day <= s <= latest_start day duration_min.
Proof.
  intros Hok Hpos Hrep.
  assert (Hds := day_start_range day Hok).
  assert (Hls := latest_start_range day duration_min Hok Hpos).
  set (start := Z.min (Z.max (day_start day) proposed_start)
                      (latest_start day duration_min)).
  assert (Hst : day_start day <= start <= latest_start day duration_min)
    by (subst start; lia).
  unfold search_naive.
  destruct (intervals_naive events day) as [|i r] eqn:Hi.
  - eexists; split; [reflexivity|exact Hst].
  - destruct Hrep as [Hlow Hhigh].
    apply slot_loop_naive_returns with (lo := day_start day); try lia.
    + unfold_us; lia.
    + intros bs be Hin. rewrite <- Hi in Hin.
      apply busy_interval_bounds in Hin. lia.
Qed.

(** With a representable window the search has two outcomes: a
    [TypeError], on a store that holds an offset, or the result of the
    naive search on the naive intervals of the day. *)
Lemma find_next_free_slot_cases events day proposed_start duration_min :
  date_ok day -> 0 < duration_min -> slot_representable day duration_min ->
  (find_next_free_slot events day (Naive proposed_start) duration_min
   = Raise TypeError
   /\ naive_store events = false)
  \/ (_busy_intervals_for_date events day
      = Return (map lift (intervals_naive events day))
      /\ find_next_free_slot events day (Naive proposed_start) duration_min
         = lift_result
             (search_naive (intervals_naive events day)
                (latest_start day duration_min) (duration_min * US_PER_MINUTE)
                (Z.min (Z.max (day_start day) proposed_start)
                       (latest_start day duration_min)))).
Proof.
  intros Hok Hpos Hrep.
  destruct (find_next_free_slot_unfold events day proposed_start duration_min
              Hok Hpos Hrep) as [Heq _].
  cbv zeta in Heq.
  assert (Hlift := find_next_free_slot_lift events day proposed_start duration_min
                     Hok Hpos Hrep).
  assert (Hret := busy_intervals_returns events day).
  destruct (_busy_intervals_for_date events day) as [l|e] eqn:Hb.
  - assert (Hnaive : forallb naive_pair l = true ->
                     Return l = Return (map lift (intervals_naive events day)))
      by (intros Hn; f_equal; apply busy_intervals_naive; assumption).
    assert (Hoff : forallb naive_pair l = false -> naive_store events = false).
    { intros Hn. destruct (naive_store events) eqn:En; [|reflexivity].
      specialize (Hret eq_refl). injection Hret as ->.
      rewrite lift_all_naive in Hn. discriminate. }
    destruct l as [|[bs be] r].
    + right. split; [apply Hnaive; reflexivity|].
      apply Hlift. apply Hnaive. reflexivity.
    + destruct (is_naive be) eqn:Ebe.
      * assert (Hn := busy_intervals_kind events day (bs, be) r Hb Ebe).
        right. split; [apply Hnaive; exact Hn|]. apply Hlift. apply Hnaive. exact Hn.
      * left. split.
        -- rewrite Heq. cbn [bind].
           change (slot_loop 200) with (slot_loop (S 199)).
           cbn [slot_loop first_conflict]. unfold _overlaps, stamp_lt.
           destruct be as [be|be o]; [discriminate|]. reflexivity.
        -- apply Hoff. cbn [forallb]. unfold naive_pair at 1.
           cbn [fst snd]. rewrite Ebe, andb_false_r. reflexivity.
  - assert (He := busy_intervals_raises events day e Hb). subst e.
    left. split; [rewrite Heq; reflexivity|].
    destruct (naive_store events) eqn:En; [|reflexivity].
    specialize (Hret eq_refl). discriminate.
Qed.

Lemma find_next_free_slot_returns events day proposed_start duration_min :
  date_ok day -> 0 < duration_min -> slot_representable day duration_min ->
  naive_store events = true ->
  exists s,
    find_next_free_slot events day (Naive proposed_start) duration_min
    = Return (Naive s, Naive (s + duration_min * US_PER_MINUTE))
    /\ day_start day <= s <= latest_start day duration_min.
Proof.
  intros Hok Hpos Hrep Hst.
  destruct (search_naive_returns events day proposed_start duration_min
              Hok Hpos Hrep) as (s & Hs & Hr).
  exists s. split; [|exact Hr].
  rewrite find_next_free_slot_lift by
    (try assumption; apply busy_intervals_returns; exact Hst).
  rewrite Hs. reflexivity.
Qed.

(** Whatever the store, a call that returns has read naive intervals
    only, and its result is that of the naive search. *)
Lemma find_next_free_slot_returned events day proposed_start duration_min r :
  date_ok day -> 0 < duration_min ->
  find_next_free_slot events day (Naive proposed_start) duration_min = Return r ->
  slot_representable day duration_min
  /\ _busy_intervals_for_date events day
     = Return (map lift (intervals_naive events day))
  /\ exists s,
       r = (Naive s, Naive (s + duration_min * US_PER_MINUTE))
       /\ day_start day <= s <= latest_start day duration_min
       /\ search_naive (intervals_naive events day) (latest_start day duration_min)
            (duration_min * US_PER_MINUTE)
            (Z.min (Z.max (day_start day) proposed_start)
                   (latest_start day duration_min))
          = Return (s, s + duration_min * US_PER_MINUTE).
Proof.
  intros Hok Hpos Hrun.
  assert (Hrep := find_next_free_slot_return_inv _ _ _ _ _ Hok Hpos Hrun).
  split; [exact Hrep|].
  destruct (find_next_free_slot_cases events day proposed_start duration_min
              Hok Hpos Hrep) as [[Hraise _]|[Hb Hf]].
  - rewrite Hraise in Hrun. discriminate.
  - split; [exact Hb|].
    destruct (search_naive_returns events day proposed_start duration_min
                Hok Hpos Hrep) as (s & Hs & Hr).
    exists s. rewrite Hf, Hs in Hrun. cbn [lift_result] in Hrun.
    injection Hrun as <-. split; [reflexivity|]. split; [exact Hr|exact Hs].
Qed.

(** C1, as amended. For a strictly positive duration and a store without
    UTC offsets, whenever [day_end - duration] and [latest_start +
    duration] are representable datetimes the search returns an interval
    whose length is exactly the duration; when they are not, it raises
    [OverflowError], whatever the store holds. *)
Theorem find_next_free_slot_total (events : list event) (day : date)
    (proposed_start : datetime) (duration_min : Z) :
  date_ok day -> 0 < duration_min ->
  (naive_store events = true -> slot_representable day duration_min ->
   exists s e,
     find_next_free_slot events day (Naive proposed_start) duration_min
     = Return (Naive s, Naive e)
     /\ e - s = duration_min * US_PER_MINUTE)
  /\ (~ slot_representable day duration_min ->
      find_next_free_slot events day (Naive proposed_start) duration_min
      = Raise OverflowError).
Proof.
  intros Hok Hpos. split.
  - intros Hst Hrep.
    destruct (find_next_free_slot_returns events day proposed_start duration_min
                Hok Hpos Hrep Hst) as (s & Hs & _).
    exists s, (s + duration_min * US_PER_MINUTE). split; [exact Hs|lia].
  - apply find_next_free_slot_raises; assumption.
Qed.

(** An aware proposal cannot be ordered against the start of the day. *)
Lemma find_next_free_slot_aware events day x offset duration_min :
  date_ok day -> 0 < duration_min ->
  find_next_free_slot events day (Aware x offset) duration_min = Raise TypeError
  \/ (find_next_free_slot events day (Aware x offset) duration_min
      = Raise OverflowError
      /\ ~ slot_representable day duration_min).
Proof.
  intros Hok Hpos.
  assert (Hds := day_start_range day Hok).
  assert (Hde := day_end_start day).
  unfold find_next_free_slot, timedelta_minutes.
  destruct (timedelta_ok (duration_min * US_PER_MINUTE)) eqn:Et; cbn [bind].
  - fold (day_start day) (day_end day). unfold datetime_sub.
    destruct (datetime_ok (day_end day - duration_min * US_PER_MINUTE)) eqn:E1;
      cbn [bind].
    + left. reflexivity.
    + right. split; [reflexivity|]. intros [Hlow _].
      apply not_true_iff_false in E1. apply E1. apply datetime_ok_iff.
      unfold_us. lia.
  - right. split; [reflexivity|]. intros [Hlow _].
    apply not_true_iff_false in Et. apply Et.
    unfold timedelta_ok. apply andb_true_intro.
    unfold_us. split; apply Z.leb_le; dlia.
Qed.

(** C10. For a strictly positive duration the search either returns a
    window of naive values whose start lies in [[day_start, latest_start]]
    and whose length is exactly the duration, so that a duration longer
    than the span of the day ends after 23:59, or raises: [OverflowError]
    because the window is not representable, or [TypeError] because the
    proposal or a timestamp of the store carries a UTC offset. *)
Theorem find_next_free_slot_window (events : list event) (day : date)
    (proposed_start : stamp) (duration_min : Z) :
  date_ok day -> 0 < duration_min ->
  match find_next_free_slot events day proposed_start duration_min with
  | Return (s, e) =>
      exists s' e',
        s = Naive s' /\ e = Naive e'
        /\ day_start day <= s' <= latest_start day duration_min
        /\ e' - s' = duration_min * US_PER_MINUTE
        /\ (day_end day - day_start day < duration_min * US_PER_MINUTE ->
            day_end day < e')
  | Raise err =>
      (err = OverflowError /\ ~ slot_representable day duration_min)
      \/ (err = TypeError
          /\ (is_naive proposed_start = false
              \/ (slot_representable day duration_min
                  /\ naive_store events = false)))
  end.
Proof.
  intros Hok Hpos. destruct proposed_start as [proposed_start|x offset].
  2:{ destruct (find_next_free_slot_aware events day x offset duration_min Hok Hpos)
        as [->|[-> Hrep]]; [right|left]; auto. }
  assert (Hdec : slot_representable day duration_min
                 \/ ~ slot_representable day duration_min)
    by (unfold slot_representable; lia).
  destruct Hdec as [Hrep|Hrep].
  - destruct (find_next_free_slot_cases events day proposed_start duration_min
                Hok Hpos Hrep) as [[Hraise Hst]|[_ Hf]].
    + rewrite Hraise. right. auto.
    + destruct (search_naive_returns events day proposed_start duration_min
                  Hok Hpos Hrep) as (s & Hs & Hr).
      rewrite Hf, Hs. cbn [lift_result]. unfold lift. cbn [fst snd].
      exists s, (s + duration_min * US_PER_MINUTE).
      repeat split; try lia.
  - rewrite find_next_free_slot_raises by assumption. left. auto.
Qed.

(** C2, as amended. When the only busy interval of the day is the proposed
    window itself and [day_end - duration] is representable, the search
    returns the start [min (interval end) latest_start]: the end of the
    busy interval when a slot still fits after it, and [latest_start],
    which lies before that end, when none does. *)
Theorem find_next_free_slot_after_busy (events : list event)
    (day : date) (proposed_start : datetime) (duration_min : Z) :
  0 < duration_min ->
  0 <= day_end day - duration_min * US_PER_MINUTE ->
  _busy_intervals_for_date events day
  = Return [(Naive proposed_start,
             Naive (proposed_start + duration_min * US_PER_MINUTE))] ->
  let busy_end := proposed_start + duration_min * US_PER_MINUTE in
  let s := Z.min busy_end (latest_start day duration_min) in
  find_next_free_slot events day (Naive proposed_start) duration_min
  = Return (Naive s, Naive (s + duration_min * US_PER_MINUTE))
  /\ (busy_end <= latest_start day duration_min -> s = busy_end)
  /\ (latest_start day duration_min < busy_end -> s < busy_end).
Proof.
  intros Hpos Hlow Hbusy busy_end s.
  assert (Hnaive : intervals_naive events day = [(proposed_start, busy_end)]).
  { apply lift_inj. symmetry.
    apply (busy_intervals_naive events day _ Hbusy). reflexivity. }
  assert (Hin : In (proposed_start, busy_end) (intervals_naive events day))
    by (rewrite Hnaive; left; reflexivity).
  apply busy_interval_bounds in Hin. destruct Hin as (Hok & Hps & Hbe).
  assert (Hds := day_start_range day Hok).
  assert (Hde := day_end_start day).
  assert (Hls := latest_start_range day duration_min Hok Hpos).
  set (duration := duration_min * US_PER_MINUTE) in *.
  set (latest := latest_start day duration_min) in *.
  assert (Hdur : 0 < duration) by (unfold duration; unfold_us; lia).
  assert (Hlat : latest = Z.max (day_start day) (day_end day - duration)) by reflexivity.
  assert (Hrep : slot_representable day duration_min).
  { split; [exact Hlow|]. fold duration latest. unfold_us. lia. }
  split; [|subst s; lia].
  rewrite find_next_free_slot_lift; try assumption.
  2:{ rewrite Hbusy, Hnaive. reflexivity. }
  fold duration latest. rewrite Hnaive. unfold search_naive.
  set (start := Z.min (Z.max (day_start day) proposed_start) latest).
  assert (Hstart : start = Z.min proposed_start latest) by (subst start; lia).
  change (slot_loop_naive 200) with (slot_loop_naive (S (S 198))).
  cbn [slot_loop_naive find]. unfold overlaps_naive at 1.
  replace (start <? busy_end) with true by (symmetry; apply Z.ltb_lt; lia).
  cbn [andb].
  destruct (start + duration >? proposed_start) eqn:E.
  - cbn [snd]. fold s.
    replace (if busy_end >? latest then latest else busy_end) with s
      by (subst s; destruct (busy_end >? latest) eqn:E2; lia).
    unfold datetime_add.
    replace (datetime_ok (s + duration)) with true
      by (symmetry; apply datetime_ok_iff; subst s; unfold_us; lia).
    cbn [bind].
    destruct (s =? latest) eqn:E3; [reflexivity|].
    assert (Hs : s = busy_end) by (subst s; lia).
    unfold overlaps_naive. rewrite Hs.
    replace (busy_end <? busy_end) with false by (symmetry; apply Z.ltb_ge; lia).
    reflexivity.
  - assert (Hs : s = start) by (subst s; lia).
    rewrite Hs. reflexivity.
Qed.

(** C3, as amended. When the busy intervals of the day cover it from 00:00
    to 23:59, number at most 200, and the window is representable, the
    search returns the window starting at [latest_start]; it ends at 23:59
    when the duration is at most the 1439 minutes of the day, and after
    23:59 when the duration is longer. *)
Theorem find_next_free_slot_booked (events : list event) (day : date)
    (proposed_start : datetime) (duration_min : Z)
    (intervals : list (datetime * datetime)) :
  0 < duration_min ->
  slot_representable day duration_min ->
  _busy_intervals_for_date events day = Return (map lift intervals) ->
  covers intervals (day_start day) (day_end day) ->
  (length intervals <= 200)%nat ->
  find_next_free_slot events day (Naive proposed_start) duration_min
  = Return (Naive (latest_start day duration_min),
            Naive (latest_start day duration_min + duration_min * US_PER_MINUTE))
  /\ (duration_min <= 1439 ->
      latest_start day duration_min + duration_min * US_PER_MINUTE = day_end day)
  /\ (1439 < duration_min ->
      day_end day < latest_start day duration_min + duration_min * US_PER_MINUTE).
Proof.
  intros Hpos Hrep Hbusy Hcov Hlen.
  assert (Hnaive : intervals_naive events day = intervals).
  { apply lift_inj. symmetry.
    apply (busy_intervals_naive events day _ Hbusy). apply lift_all_naive. }
  subst intervals.
  assert (Hde := day_end_start day).
  destruct (Hcov (day_start day) ltac:(unfold_us; lia)) as (bs0 & be0 & Hin0 & _).
  assert (Hok : date_ok day) by (apply busy_interval_bounds in Hin0; tauto).
  assert (Hds := day_start_range day Hok).
  assert (Hls := latest_start_range day duration_min Hok Hpos).
  split; [|unfold latest_start; unfold_us; lia].
  rewrite find_next_free_slot_lift by assumption.
  unfold search_naive.
  destruct (intervals_naive events day) as [|i r] eqn:Hi; [destruct Hin0|].
  destruct Hrep as [Hlow Hhigh].
  rewrite slot_loop_naive_booked with (lo := day_start day) (hi := day_end day);
    try assumption; try lia.
  - reflexivity.
  - unfold_us; lia.
  - etransitivity; [apply filter_length_le|exact Hlen].
Qed.

End Store.

(** ** Busy intervals and slot resolution on sample stores *)

Lemma busy_intervals_for_date_spec_witness :
  exists intervals,
    _busy_intervals_for_date
      [timed_event "2024-01-01T12:00:00" "2024-01-01T13:00:00";
       timed_event "2024-01-01T09:00:00" "2024-01-01T10:00:00";
       timed_event "2024-01-02T09:00:00" "2024-01-02T10:00:00"]
      (mkdate 2024 1 1)
    = Return (map lift intervals)
    /\ StronglySorted start_le intervals.
Proof.
  assert (Hst : naive_store
                  [timed_event "2024-01-01T12:00:00" "2024-01-01T13:00:00";
                   timed_event "2024-01-01T09:00:00" "2024-01-01T10:00:00";
                   timed_event "2024-01-02T09:00:00" "2024-01-02T10:00:00"] = true)
    by (vm_compute; reflexivity).
  destruct (busy_intervals_for_date_spec _ (mkdate 2024 1 1) Hst)
    as (intervals & Hret & _ & _ & _ & _ & Hsorted).
  exists intervals. split; [exact Hret|exact Hsorted].
Defined.

(** C5 fails as stated: a record of the day whose start carries a UTC
    offset while its end does not is not rejected as malformed; the
    comparison of its end with its start raises [TypeError]. So does the
    sort when one event of the day is aware and another is naive. *)
Lemma busy_intervals_offset_aware :
  _busy_intervals_for_date
    [timed_event "2024-01-01T09:00:00+00:00" "2024-01-01T10:00:00"]
    (mkdate 2024 1 1) = Raise TypeError
  /\ _busy_intervals_for_date
       [timed_event "2024-01-01T09:00:00" "2024-01-01T10:00:00";
        timed_event "2024-01-01T11:00:00+02:00" "2024-01-01T12:00:00+02:00"]
       (mkdate 2024 1 1) = Raise TypeError.
Proof. split; vm_compute; reflexivity. Qed.

Lemma find_next_free_slot_total_witness :
  exists s e,
    find_next_free_slot
      [timed_event "2024-01-01T09:00:00" "2024-01-01T10:00:00"]
      (mkdate 2024 1 1)
      (Naive (datetime_combine (mkdate 2024 1 1) (mktime 9 30 0 0))) 45
    = Return (Naive s, Naive e)
    /\ e - s = 45 * US_PER_MINUTE.
Proof.
  apply (find_next_free_slot_total
           [timed_event "2024-01-01T09:00:00" "2024-01-01T10:00:00"]
           (mkdate 2024 1 1) (datetime_combine (mkdate 2024 1 1) (mktime 9 30 0 0)) 45).
  - reflexivity.
  - lia.
  - vm_compute. reflexivity.
  - vm_compute. split; discriminate.
Defined.

(** C1 fails as stated: on 0001-01-01 a one-day duration puts
    [day_end - duration] before the first datetime, and the search raises
    [OverflowError]; on a store that holds an event of the day with a UTC
    offset the search raises [TypeError]. Nor is a window ever shortened:
    a duration of 1500 minutes, longer than the day, is returned in full
    from 00:00. *)
Lemma find_next_free_slot_first_day :
  (date_ok (mkdate 1 1 1) /\ 0 < 1440
   /\ find_next_free_slot [] (mkdate 1 1 1) (Naive (day_start (mkdate 1 1 1))) 1440
      = Raise OverflowError)
  /\ find_next_free_slot [] (mkdate 2024 1 1)
       (Naive (datetime_combine (mkdate 2024 1 1) (mktime 9 0 0 0))) 1500
     = Return (Naive (day_start (mkdate 2024 1 1)),
               Naive (day_start (mkdate 2024 1 1) + 1500 * US_PER_MINUTE))
  /\ find_next_free_slot
       [timed_event "2024-01-01T09:00:00+00:00" "2024-01-01T10:00:00+00:00"]
       (mkdate 2024 1 1)
       (Naive (datetime_combine (mkdate 2024 1 1) (mktime 9 30 0 0))) 45
     = Raise TypeError.
Proof. repeat split; vm_compute; reflexivity. Qed.

Lemma find_next_free_slot_window_witness :
  match find_next_free_slot
          [timed_event "2024-01-01T00:00:00" "2024-01-01T12:00:00"]
          (mkdate 2024 1 1) (Naive (day_start (mkdate 2024 1 1))) 1500 with
  | Return (s, e) =>
      exists s' e',
        s = Naive s' /\ e = Naive e'
        /\ day_start (mkdate 2024 1 1) <= s' <= latest_start (mkdate 2024 1 1) 1500
        /\ e' - s' = 1500 * US_PER_MINUTE
        /\ (day_end (mkdate 2024 1 1) - day_start (mkdate 2024 1 1)
            < 1500 * US_PER_MINUTE -> day_end (mkdate 2024 1 1) < e')
  | Raise err =>
      (err = OverflowError /\ ~ slot_representable (mkdate 2024 1 1) 1500)
      \/ (err = TypeError
          /\ (is_naive (Naive (day_start (mkdate 2024 1 1))) = false
              \/ (slot_representable (mkdate 2024 1 1) 1500
                  /\ naive_store
                       [timed_event "2024-01-01T00:00:00" "2024-01-01T12:00:00"]
                     = false)))
  end.
Proof.
  apply (find_next_free_slot_window
           [timed_event "2024-01-01T00:00:00" "2024-01-01T12:00:00"]
           (mkdate 2024 1 1) (Naive (day_start (mkdate 2024 1 1))) 1500).
  - reflexivity.
  - lia.
Defined.

Lemma find_next_free_slot_after_busy_witness :
  find_next_free_slot
    [timed_event "2024-01-01T09:00:00" "2024-01-01T10:00:00"]
    (mkdate 2024 1 1) (Naive (datetime_combine (mkdate 2024 1 1) (mktime 9 0 0 0))) 60
  = Return (Naive (datetime_combine (mkdate 2024 1 1) (mktime 10 0 0 0)),
            Naive (datetime_combine (mkdate 2024 1 1) (mktime 11 0 0 0))).
Proof.
  apply (find_next_free_slot_after_busy
           [timed_event "2024-01-01T09:00:00" "2024-01-01T10:00:00"]
           (mkdate 2024 1 1) (datetime_combine (mkdate 2024 1 1) (mktime 9 0 0 0)) 60).
  - lia.
  - vm_compute. discriminate.
  - vm_compute. reflexivity.
Defined.

(** C2 fails as stated: a four-hour event at 18:00 covers the proposed
    window exactly, no four-hour slot fits after 22:00, and the search
    returns 19:59, before the end of the busy interval. *)
Lemma find_next_free_slot_evening :
  let day := mkdate 2024 1 1 in
  let events := [timed_event "2024-01-01T18:00:00" "2024-01-01T22:00:00"] in
  let proposed := datetime_combine day (mktime 18 0 0 0) in
  _busy_intervals_for_date events day
  = Return [(Naive proposed, Naive (proposed + 240 * US_PER_MINUTE))]
  /\ find_next_free_slot events day (Naive proposed) 240
     = Return (Naive (datetime_combine day (mktime 19 59 0 0)),
               Naive (datetime_combine day (mktime 23 59 0 0)))
  /\ datetime_combine day (mktime 19 59 0 0) < proposed + 240 * US_PER_MINUTE.
Proof. repeat split; vm_compute; reflexivity. Qed.

Lemma find_next_free_slot_booked_witness :
  find_next_free_slot
    [timed_event "2024-01-01T00:00:00" "2024-01-01T12:00:00";
     timed_event "2024-01-01T12:00:00" "2024-01-01T23:59:00"]
    (mkdate 2024 1 1) (Naive (datetime_combine (mkdate 2024 1 1) (mktime 9 0 0 0))) 60
  = Return (Naive (datetime_combine (mkdate 2024 1 1) (mktime 22 59 0 0)),
            Naive (datetime_combine (mkdate 2024 1 1) (mktime 23 59 0 0))).
Proof.
  apply (find_next_free_slot_booked
           [timed_event "2024-01-01T00:00:00" "2024-01-01T12:00:00";
            timed_event "2024-01-01T12:00:00" "2024-01-01T23:59:00"]
           (mkdate 2024 1 1) (datetime_combine (mkdate 2024 1 1) (mktime 9 0 0 0)) 60
           [(datetime_combine (mkdate 2024 1 1) (mktime 0 0 0 0),
             datetime_combine (mkdate 2024 1 1) (mktime 12 0 0 0));
            (datetime_combine (mkdate 2024 1 1) (mktime 12 0 0 0),
             datetime_combine (mkdate 2024 1 1) (mktime 23 59 0 0))]).
  - lia.
  - vm_compute. split; discriminate.
  - vm_compute. reflexivity.
  - apply covers_check_sound. vm_compute. reflexivity.
  - vm_compute. lia.
Defined.

(** C3 fails as stated, in two ways. A duration of 1500 minutes on a day
    booked from midnight to midnight returns a window that ends after
    23:59. And on a day booked solid by 202 events the search stops after
    its 200 rounds at 03:20, long before [latest_start] (23:58 for a
    one-minute slot). *)
Lemma find_next_free_slot_booked_fails :
  let day := mkdate 2024 1 1 in
  (let events := [timed_event "2024-01-01T00:00:00" "2024-01-02T00:00:00"] in
   _busy_intervals_for_date events day
   = Return (map lift (intervals_naive events day))
   /\ covers (intervals_naive events day) (day_start day) (day_end day)
   /\ exists s e,
        find_next_free_slot events day (Naive (day_start day)) 1500
        = Return (Naive s, Naive e)
        /\ day_end day < e)
  /\ (_busy_intervals_for_date crowded_day day
      = Return (map lift (intervals_naive crowded_day day))
      /\ covers (intervals_naive crowded_day day) (day_start day) (day_end day)
      /\ find_next_free_slot crowded_day day (Naive (day_start day)) 1
         = Return (Naive (datetime_combine day (mktime 3 20 0 0)),
                   Naive (datetime_combine day (mktime 3 21 0 0)))
      /\ latest_start day 1 = datetime_combine day (mktime 23 58 0 0)).
Proof.
  cbv zeta. split.
  - split; [vm_compute; reflexivity|].
    split; [apply covers_check_sound; vm_compute; reflexivity|].
    eexists _, _. split; [vm_compute; reflexivity|]. vm_compute. reflexivity.
  - split; [vm_compute; reflexivity|].
    split; [apply covers_check_sound; vm_compute; reflexivity|].
    split; vm_compute; reflexivity.
Qed.

(** ** The overlap predicate *)

(** C4. Two half-open intervals overlap exactly when each starts strictly
    before the other ends; intervals that only meet at a boundary instant
    do not overlap. On naive values the test never raises; on aware values
    it is the same test on the instants. *)
Theorem overlaps_half_open (a_start a_end b_start b_end : datetime) :
  (_overlaps (Naive a_start) (Naive a_end) (Naive b_start) (Naive b_end) = Return true
   <-> a_start < b_end /\ a_end > b_start)
  /\ (_overlaps (Naive a_start) (Naive a_end) (Naive b_start) (Naive b_end)
      = Return false
      <-> ~ (a_start < b_end /\ a_end > b_start))
  /\ _overlaps (Naive a_start) (Naive b_start) (Naive b_start) (Naive b_end)
     = Return false
  /\ (forall oa oa' ob ob',
        _overlaps (Aware a_start oa) (Aware a_end oa')
                  (Aware b_start ob) (Aware b_end ob') = Return true
        <-> a_start - oa < b_end - ob' /\ a_end - oa' > b_start - ob).
Proof.
  rewrite !overlaps_lift. unfold overlaps_naive.
  split; [|split; [|split]].
  - split.
    + intros [= H]. rewrite andb_true_iff, Z.ltb_lt, Z.gtb_lt in H. lia.
    + intros H. f_equal. rewrite andb_true_iff, Z.ltb_lt, Z.gtb_lt. lia.
  - split.
    + intros [= H]. rewrite andb_false_iff, Z.ltb_ge, Z.gtb_ltb, Z.ltb_ge in H. lia.
    + intros H. f_equal. rewrite andb_false_iff, Z.ltb_ge, Z.gtb_ltb, Z.ltb_ge. lia.
  - f_equal. apply andb_false_iff. right. rewrite Z.gtb_ltb. apply Z.ltb_irrefl.
  - intros oa oa' ob ob'. unfold _overlaps, stamp_lt, stamp_gt. cbn [stamp_cmp bind].
    destruct (a_start - oa <? b_end - ob') eqn:E.
    + apply Z.ltb_lt in E. split.
      * intros [= H]. apply Z.gtb_lt in H. lia.
      * intros [_ H]. f_equal. apply Z.gtb_lt. lia.
    + apply Z.ltb_ge in E. split; [discriminate|lia].
Qed.

(** ** [suggest_best_time_from_history] *)

Lemma tag_lookup tag ev :
  tags_ok ev -> py_in tag (py_or (get ev "tags") (JArr [])) = Return (has_tag tag ev).
Proof.
  unfold tags_ok, has_tag, py_or.
  destruct (get ev "tags") as [| | | |l|]; intros Hok; try (destruct Hok; fail).
  - reflexivity.
  - destruct l; reflexivity.
Qed.

Lemma history_mins_app events tag : forall mins,
  Forall tags_ok events ->
  history_mins events tag mins = Return (mins ++ history_offsets events tag).
Proof.
  induction events as [|ev rest IH]; intros mins Hok; cbn [history_mins history_offsets flat_map].
  - rewrite app_nil_r. reflexivity.
  - inversion Hok as [|? ? Hev Hrest]; subst.
    fold (history_offsets rest tag).
    destruct (eq_str (get ev "kind") "event"); cbn [negb andb];
      [|rewrite IH by assumption; reflexivity].
    rewrite tag_lookup by assumption. cbn [bind].
    destruct (has_tag tag ev); cbn [negb];
      [|rewrite IH by assumption; reflexivity].
    unfold start_offset.
    destruct (get_default ev "start" (JStr "")) as [| | |start| |];
      try (rewrite IH by assumption; reflexivity).
    destruct (str_contains "T" start && (16 <=? String.length start)%nat);
      [|rewrite IH by assumption; reflexivity].
    destruct (start_minutes start);
      rewrite IH by assumption; [rewrite <- app_assoc|]; reflexivity.
Qed.

Lemma int_of_mean (total : Z) (n : nat) :
  (0 < n)%nat ->
  int_of_number (inject_Z total / inject_Z (Z.of_nat n))%Q = Z.quot total (Z.of_nat n).
Proof.
  intros Hn. destruct n as [|k]; [lia|].
  unfold int_of_number, Qdiv, Qmult, Qinv, inject_Z.
  rewrite Nat2Z.inj_succ. unfold Z.succ.
  destruct (Z.of_nat k + 1) as [|p|p] eqn:E; try lia.
  cbn [Qnum Qden]. rewrite Z.mul_1_r, Pos.mul_1_l. reflexivity.
Qed.

Lemma time_from_minutes_spec (m : Q) :
  let c := clamp_minutes (int_of_number m) in
  _time_from_minutes m = Return (mktime (c / 60) (c mod 60) 0 0)
  /\ 0 <= c <= 1439.
Proof.
  intros c. assert (Hc : 0 <= c <= 1439) by (subst c; unfold clamp_minutes; lia).
  split; [|exact Hc].
  unfold _time_from_minutes. change (23 * 60 + 59) with 1439.
  fold (clamp_minutes (int_of_number m)). fold c. unfold time_new.
  replace ((0 <=? c / 60) && (c / 60 <=? 23) && (0 <=? c mod 60) && (c mod 60 <=? 59))
    with true; [reflexivity|].
  symmetry. repeat (apply andb_true_intro; split); apply Z.leb_le; dlia.
Qed.

Lemma history_offsets_in events tag v :
  In v (history_offsets events tag)
  <-> exists ev, In ev events /\ get ev "kind" = JStr "event"
                 /\ has_tag tag ev = true /\ start_offset ev = Some v.
Proof.
  unfold history_offsets. rewrite in_flat_map. split.
  - intros (ev & Hev & Hin). exists ev. split; [exact Hev|].
    destruct (eq_str (get ev "kind") "event") eqn:Ek; [|destruct Hin].
    destruct (has_tag tag ev) eqn:Et; [|destruct Hin]. cbn [andb] in Hin.
    destruct (start_offset ev) as [w|]; [|destruct Hin].
    destruct Hin as [->|[]]. apply eq_str_true in Ek. auto.
  - intros (ev & Hev & Hk & Ht & Hs). exists ev. split; [exact Hev|].
    apply eq_str_true in Hk. rewrite Hk, Ht, Hs. left; reflexivity.
Qed.

(** C8, as amended. On a store whose records follow the data model, the
    tags of a record being absent or a sequence, the suggestion
    looks only at the records of kind "event" whose tag sequence contains
    the tag, reads the offset [hour * 60 + minute] off each stored
    timestamp, and returns the time at the mean of these offsets, truncated
    to a whole minute and clamped to [[0, 1439]]; without such offsets it
    returns the research default of the tag. Three "Fitness" events at
    10:00, 11:00 and 12:00 give 11:00. *)
Theorem suggest_best_time_from_history_spec :
  (forall (events : list event) (tag : string),
      Forall tags_ok events ->
      let offsets := history_offsets events tag in
      let n := Z.of_nat (length offsets) in
      let mean := Z.quot (sum offsets) n in
      (forall v, In v offsets
                 <-> exists ev, In ev events /\ get ev "kind" = JStr "event"
                                /\ has_tag tag ev = true /\ start_offset ev = Some v)
      /\ (offsets <> [] ->
          suggest_best_time_from_history events tag
          = Return (mktime (clamp_minutes mean / 60) (clamp_minutes mean mod 60) 0 0)
          /\ 0 <= clamp_minutes mean <= 1439
          /\ (0 <= sum offsets -> mean * n <= sum offsets < (mean + 1) * n))
      /\ (offsets = [] ->
          suggest_best_time_from_history events tag
          = Return (suggest_research_time tag))
      /\ ((forall ev, In ev events ->
                      get ev "kind" = JStr "event" -> has_tag tag ev = false) ->
          suggest_best_time_from_history events tag
          = Return (suggest_research_time tag)))
  /\ (let events := [tagged_event "Fitness" "2024-03-04T10:00:00";
                     tagged_event "Fitness" "2024-03-05T11:00:00";
                     tagged_event "Fitness" "2024-03-06T12:00:00"] in
      history_offsets events "Fitness" = [600; 660; 720]
      /\ suggest_best_time_from_history events "Fitness" = Return (mktime 11 0 0 0)).
Proof.
  split; [|split; vm_compute; reflexivity].
  intros events tag Hok offsets n mean.
  assert (Hrun : history_mins events tag [] = Return offsets)
    by (rewrite history_mins_app by assumption; reflexivity).
  assert (Hempty : offsets = [] ->
                   suggest_best_time_from_history events tag
                   = Return (suggest_research_time tag)).
  { intros He. unfold suggest_best_time_from_history. rewrite Hrun, He. reflexivity. }
  split; [intros v; apply history_offsets_in|].
  split; [|split; [exact Hempty|]].
  - intros Hne.
    assert (Hlen : (0 < length offsets)%nat)
      by (destruct offsets; [congruence|cbn [length]; lia]).
    assert (Hsug : suggest_best_time_from_history events tag
                   = _time_from_minutes
                       (inject_Z (sum offsets) / inject_Z (Z.of_nat (length offsets)))%Q).
    { unfold suggest_best_time_from_history. rewrite Hrun. cbn [bind].
      destruct offsets; [congruence|reflexivity]. }
    destruct (time_from_minutes_spec
                (inject_Z (sum offsets) / inject_Z (Z.of_nat (length offsets)))%Q)
      as [Ht Hc].
    rewrite int_of_mean in Ht, Hc by exact Hlen.
    fold n in Ht, Hc. fold mean in Ht, Hc.
    split; [rewrite Hsug; exact Ht|]. split; [exact Hc|].
    intros Hsum. subst mean.
    rewrite Z.quot_div_nonneg by lia.
    assert (Hn : 0 < n) by (subst n; lia).
    split.
    + rewrite Z.mul_comm. apply Z.mul_div_le. exact Hn.
    + rewrite Z.mul_comm. apply Z.mul_succ_div_gt. exact Hn.
  - intros Hnone. apply Hempty.
    destruct offsets as [|v r] eqn:E; [reflexivity|]. exfalso.
    assert (Hin : In v (history_offsets events tag))
      by (fold offsets; rewrite E; left; reflexivity).
    apply history_offsets_in in Hin. destruct Hin as (ev & Hev & Hk & Ht & _).
    rewrite (Hnone ev Hev Hk) in Ht. discriminate.
Qed.

Lemma suggest_best_time_from_history_witness :
  suggest_best_time_from_history
    [tagged_event "Work" "2024-03-04T09:00:00";
     tagged_event "Work" "2024-03-05T10:01:00";
     tagged_event "Family" "2024-03-05T19:00:00"] "Work"
  = Return (mktime 9 30 0 0).
Proof.
  apply (proj1 suggest_best_time_from_history_spec
           [tagged_event "Work" "2024-03-04T09:00:00";
            tagged_event "Work" "2024-03-05T10:01:00";
            tagged_event "Family" "2024-03-05T19:00:00"] "Work").
  - repeat constructor.
  - vm_compute. discriminate.
Defined.

(** C8 fails as stated, for every event list: the sentence needs the tags
    of each record to be absent or a sequence. A record of kind "event"
    whose tags are the number 7 makes the suggestion raise [TypeError];
    one whose tags are the text "Workout" is counted for the tag "Work",
    which that text merely contains, so that 06:00 is suggested instead of
    the default 16:00 of the tag. *)
Lemma suggest_best_time_from_history_untyped_tags :
  suggest_best_time_from_history
    [({[ "kind" := JStr "event"; "tags" := JNum 7 ]} : event)] "Work"
  = Raise TypeError
  /\ suggest_best_time_from_history
       [({[ "kind" := JStr "event"; "tags" := JStr "Workout";
            "start" := JStr "2024-03-04T06:00:00" ]} : event)] "Work"
     = Return (mktime 6 0 0 0)
  /\ suggest_research_time "Work" = mktime 16 0 0 0.
Proof. repeat split; vm_compute; reflexivity. Qed.

(** ** [_parse_time_12h] *)

Lemma is_space_upper c : is_space (upper_char c) = is_space c.
Proof. destruct c as [[] [] [] [] [] [] [] []]; reflexivity. Qed.

Lemma upper_lstrip s : lstrip (upper s) = upper (lstrip s).
Proof.
  induction s as [|c r IH]; [reflexivity|].
  cbn [upper str_map lstrip]. rewrite is_space_upper.
  destruct (is_space c); [exact IH|reflexivity].
Qed.

Lemma upper_rstrip s : rstrip (upper s) = upper (rstrip s).
Proof.
  induction s as [|c r IH]; [reflexivity|].
  cbn [upper str_map rstrip]. fold (upper r). rewrite IH, is_space_upper.
  destruct (rstrip r); cbn [upper str_map]; [destruct (is_space c)|]; reflexivity.
Qed.

Lemma upper_strip s : strip (upper s) = upper (strip s).
Proof. unfold strip. rewrite upper_lstrip, upper_rstrip. reflexivity. Qed.

Lemma upper_char_idem c : upper_char (upper_char c) = upper_char c.
Proof. destruct c as [[] [] [] [] [] [] [] []]; reflexivity. Qed.

Lemma upper_idem s : upper (upper s) = upper s.
Proof.
  induction s as [|c r IH]; [reflexivity|].
  cbn [upper str_map]. fold (upper r). fold (upper (upper r)).
  rewrite upper_char_idem, IH. reflexivity.
Qed.

Lemma remove_char_idem c s : remove_char c (remove_char c s) = remove_char c s.
Proof.
  induction s as [|a r IH]; [reflexivity|]. cbn [remove_char].
  destruct (Ascii.eqb a c) eqn:E; [exact IH|].
  cbn [remove_char]. rewrite E, IH. reflexivity.
Qed.

Lemma is_digit_val c : is_digit c = true -> 0 <= digit_val c <= 9.
Proof.
  unfold is_digit, digit_val. intros H. apply andb_prop in H. destruct H as [H1 H2].
  apply Nat.leb_le in H1, H2. lia.
Qed.

Lemma in_range_val c lo hi :
  in_range c lo hi = true ->
  digit_val lo <= digit_val c <= digit_val hi.
Proof.
  unfold in_range, digit_val. intros H. apply andb_prop in H. destruct H as [H1 H2].
  apply Nat.leb_le in H1, H2. lia.
Qed.

Lemma two_then_one_in two one s v r :
  In (v, r) (two_then_one two one s) ->
  (exists a b, two a b = Some v) \/ (exists a, one a = Some v).
Proof.
  unfold two_then_one. intros Hin. apply in_app_or in Hin. destruct Hin as [Hin|Hin].
  - left. destruct s as [|a [|b t]]; try destruct Hin.
    destruct (two a b) eqn:E; [|destruct Hin].
    destruct Hin as [[= <- <-]|[]]. eauto.
  - right. destruct s as [|a t]; [destruct Hin|].
    destruct (one a) eqn:E; [|destruct Hin].
    destruct Hin as [[= <- <-]|[]]. eauto.
Qed.

Ltac digit_bounds :=
  repeat match goal with
         | H : _ && _ = true |- _ => apply andb_prop in H; destruct H
         | H : in_range _ _ _ = true |- _ => apply in_range_val in H
         | H : is_digit _ = true |- _ => apply is_digit_val in H
         | H : Ascii.eqb _ _ = true |- _ => apply Ascii.eqb_eq in H; subst
         end.

Lemma match_I_range s v r : In (v, r) (match_I s) -> 1 <= v <= 12.
Proof.
  intros Hin. apply two_then_one_in in Hin.
  destruct Hin as [(a & b & Hv)|(a & Hv)]; cbv beta in Hv.
  - destruct (Ascii.eqb a "1" && in_range b "0" "2") eqn:E1.
    + injection Hv as <-. digit_bounds.
      change (digit_val "0") with 0 in *. change (digit_val "2") with 2 in *. lia.
    + destruct (Ascii.eqb a "0" && in_range b "1" "9") eqn:E2; [|discriminate].
      injection Hv as <-. digit_bounds.
      change (digit_val "1") with 1 in *. change (digit_val "9") with 9 in *. lia.
  - destruct (in_range a "1" "9") eqn:E; [|discriminate].
    injection Hv as <-. digit_bounds.
    change (digit_val "1") with 1 in *. change (digit_val "9") with 9 in *. lia.
Qed.

Lemma match_M_range s v r : In (v, r) (match_M s) -> 0 <= v <= 59.
Proof.
  intros Hin. apply two_then_one_in in Hin.
  destruct Hin as [(a & b & Hv)|(a & Hv)]; cbv beta in Hv.
  - destruct (in_range a "0" "5" && is_digit b) eqn:E1; [|discriminate].
    injection Hv as <-. digit_bounds.
    change (digit_val "0") with 0 in *. change (digit_val "5") with 5 in *. lia.
  - destruct (is_digit a) eqn:E; [|discriminate].
    injection Hv as <-. digit_bounds. lia.
Qed.

Lemma match_H_range s v r : In (v, r) (match_H s) -> 0 <= v <= 23.
Proof.
  intros Hin. apply two_then_one_in in Hin.
  destruct Hin as [(a & b & Hv)|(a & Hv)]; cbv beta in Hv.
  - destruct (Ascii.eqb a "2" && in_range b "0" "3") eqn:E1.
    + injection Hv as <-. digit_bounds.
      change (digit_val "0") with 0 in *. change (digit_val "3") with 3 in *. lia.
    + destruct (in_range a "0" "1" && is_digit b) eqn:E2; [|discriminate].
      injection Hv as <-. digit_bounds.
      change (digit_val "0") with 0 in *. change (digit_val "1") with 1 in *. lia.
  - destruct (is_digit a) eqn:E; [|discriminate].
    injection Hv as <-. digit_bounds. lia.
Qed.

Lemma match_directive_ok d f s f' r :
  fields_ok f -> In (f', r) (match_directive d f s) -> fields_ok f'.
Proof.
  intros (HI & HM & HH) Hin. destruct d; cbn [match_directive] in Hin.
  - apply in_map_iff in Hin. destruct Hin as ([v t] & [= <- <-] & Hin).
    apply match_I_range in Hin.
    split; [|split]; cbn [f_I f_M f_H]; [intros w [= <-]; lia|exact HM|exact HH].
  - apply in_map_iff in Hin. destruct Hin as ([v t] & [= <- <-] & Hin).
    apply match_M_range in Hin.
    split; [|split]; cbn [f_I f_M f_H]; [exact HI|intros w [= <-]; lia|exact HH].
  - apply in_map_iff in Hin. destruct Hin as ([v t] & [= <- <-] & Hin).
    apply match_H_range in Hin.
    split; [|split]; cbn [f_I f_M f_H]; [exact HI|exact HM|intros w [= <-]; lia].
  - apply in_map_iff in Hin. destruct Hin as ([v t] & [= <- <-] & Hin).
    split; [|split]; cbn [f_I f_M f_H]; assumption.
  - apply in_map_iff in Hin. destruct Hin as (t & [= <- <-] & Hin).
    split; [|split]; assumption.
  - destruct s as [|a t]; [destruct Hin|].
    destruct (Ascii.eqb (upper_char a) (upper_char c)); [|destruct Hin].
    destruct Hin as [[= <- <-]|[]]. split; [|split]; assumption.
Qed.

Lemma match_format_ok ds : forall f s f' r,
  fields_ok f -> In (f', r) (match_format ds f s) -> fields_ok f'.
Proof.
  induction ds as [|d ds' IH]; intros f s f' r Hok Hin; cbn [match_format] in Hin.
  - destruct Hin as [[= <- <-]|[]]. exact Hok.
  - apply in_flat_map in Hin. destruct Hin as ([g t] & Hg & Hin).
    eapply IH; [|exact Hin]. eapply match_directive_ok; eassumption.
Qed.

Lemma fields_hour_range f : fields_ok f -> 0 <= fields_hour f <= 23.
Proof.
  intros (HI & _ & HH). unfold fields_hour.
  destruct (f_I f) as [h|].
  - specialize (HI h eq_refl).
    destruct (f_p f) as [[]|]; destruct (h =? 12) eqn:E; lia.
  - destruct (f_H f) as [h|]; cbn; [apply HH; reflexivity|lia].
Qed.

(** Every value [strptime] returns passes the [dt.time] constructor
    unchanged: it carries no seconds. *)
Lemma strptime_time_range text fmt t :
  strptime_time text fmt = Return t ->
  time_new (hour t) (minute t) = Return t.
Proof.
  unfold strptime_time. destruct (compile_format fmt false) as [ds|]; [|discriminate].
  destruct (match_format ds no_fields text) as [|[f r] rest] eqn:E; [discriminate|].
  destruct r; [|discriminate]. intros [= <-]. cbn [hour minute].
  assert (Hok : fields_ok f).
  { apply (match_format_ok ds no_fields text f "").
    - split; [|split]; intros v; cbn; discriminate.
    - rewrite E. left; reflexivity. }
  assert (Hh := fields_hour_range f Hok). destruct Hok as (_ & HM & _).
  assert (Hm : 0 <= default 0 (f_M f) <= 59)
    by (destruct (f_M f) as [m|]; cbn; [apply HM; reflexivity|lia]).
  unfold time_new.
  replace ((0 <=? fields_hour f) && (fields_hour f <=? 23)
           && (0 <=? default 0 (f_M f)) && (default 0 (f_M f) <=? 59)) with true;
    [reflexivity|].
  symmetry. repeat (apply andb_true_intro; split); apply Z.leb_le; lia.
Qed.

Lemma try_formats_first fmts text fallback :
  try_formats fmts text fallback
  = default fallback
      (head (flat_map (fun fmt => match strptime_time text fmt with
                                  | Return t => [t]
                                  | Raise _ => []
                                  end) fmts)).
Proof.
  induction fmts as [|fmt rest IH]; cbn [try_formats flat_map]; [reflexivity|].
  destruct (strptime_time text fmt) as [t|e] eqn:E; cbn [bind app].
  - rewrite (strptime_time_range _ _ _ E). reflexivity.
  - exact IH.
Qed.

Lemma parse_time_12h_normalize s fallback :
  _parse_time_12h (JStr s) fallback = default fallback (first_parse (normalize s)).
Proof.
  unfold _parse_time_12h. fold (normalize s).
  destruct (String.eqb (normalize s) "") eqn:E.
  - apply String.eqb_eq in E. rewrite E. reflexivity.
  - apply try_formats_first.
Qed.

(** C9. A value that is not text parses to the fallback. Text is trimmed,
    upper-cased and stripped of periods, so the result does not depend on
    the case of the input; the result is the first successful parse among
    the five patterns, in their order, and the fallback when none parses.
    The function is total: nothing is raised. "9:15 AM" is 09:15 and
    "garbage" is the fallback. *)
Theorem parse_time_12h_spec :
  (forall v fallback, (forall s, v <> JStr s) -> _parse_time_12h v fallback = fallback)
  /\ (forall s fallback,
         _parse_time_12h (JStr s) fallback
         = match first_parse (normalize s) with
           | Some t => t
           | None => fallback
           end)
  /\ (forall text,
         first_parse text
         = head (flat_map (fun fmt => match strptime_time text fmt with
                                      | Return t => [t]
                                      | Raise _ => []
                                      end)
                          ["%I %p"; "%I:%M %p"; "%I%p"; "%I:%M%p"; "%H:%M"]%string))
  /\ (forall s s', upper s = upper s' -> normalize s = normalize s')
  /\ (forall s, remove_char "." (normalize s) = normalize s)
  /\ (forall fallback, _parse_time_12h (JStr "9:15 AM") fallback = mktime 9 15 0 0)
  /\ (forall fallback, _parse_time_12h (JStr "9:15 a.m.") fallback = mktime 9 15 0 0)
  /\ (forall fallback, _parse_time_12h (JStr "garbage") fallback = fallback).
Proof.
  split.
  { intros v fallback Hv. destruct v; try reflexivity. exfalso. eapply Hv; reflexivity. }
  split; [apply parse_time_12h_normalize|].
  split; [reflexivity|].
  split.
  { intros s s' Hu. unfold normalize. rewrite <- !upper_strip, Hu. reflexivity. }
  split; [intros s; apply remove_char_idem|].
  repeat split; intros; reflexivity.
Qed.

Lemma parse_time_12h_spec_witness :
  _parse_time_12h (JNum 915) (mktime 9 0 0 0) = mktime 9 0 0 0
  /\ normalize "9:15 p.m." = normalize "9:15 P.M.".
Proof.
  split.
  - apply (proj1 parse_time_12h_spec (JNum 915) (mktime 9 0 0 0)).
    intros s. discriminate.
  - apply (proj1 (proj2 (proj2 (proj2 parse_time_12h_spec))) "9:15 p.m." "9:15 P.M.").
    vm_compute.
    reflexivity.
Defined.

(** * Further properties *)

(** ** Month ends and month shifts *)

Lemma date_add_days_in d n :
  date_ok d -> 1 <= toordinal d + n <= MAXORDINAL ->
  exists w, date_add_days d n = Return w /\ date_ok w
            /\ toordinal w = toordinal d + n.
Proof.
  intros Hd Hn. unfold date_add_days.
  replace ((0 <? toordinal d + n) && (toordinal d + n <=? MAXORDINAL)) with true
    by (symmetry; apply andb_true_intro; split; lia).
  apply fromordinal_spec; exact Hn.
Qed.

Lemma date_add_days_out d n :
  toordinal d + n < 1 \/ MAXORDINAL < toordinal d + n ->
  date_add_days d n = Raise OverflowError.
Proof.
  intros Hn. unfold date_add_days.
  replace ((0 <? toordinal d + n) && (toordinal d + n <=? MAXORDINAL)) with false;
    [reflexivity|].
  symmetry. apply andb_false_iff. lia.
Qed.

Lemma add_months_value anchor delta :
  date_ok anchor -> 1 <= target_year anchor delta <= 9999 ->
  add_months anchor delta
  = Return (mkdate (target_year anchor delta) (target_month anchor delta)
              (Z.min (day anchor)
                     (_days_in_month (target_year anchor delta)
                                     (target_month anchor delta))))
  /\ date_ok (mkdate (target_year anchor delta) (target_month anchor delta)
                (Z.min (day anchor)
                       (_days_in_month (target_year anchor delta)
                                       (target_month anchor delta)))).
Proof.
  intros Hok Hy.
  assert (Hm : 1 <= target_month anchor delta <= 12) by (unfold target_month; dlia).
  assert (Hd := check_date_fields_inv _ _ _ Hok).
  assert (Hr := days_in_month_range (target_year anchor delta) _ Hm).
  assert (Hres : check_date_fields (target_year anchor delta) (target_month anchor delta)
                   (Z.min (day anchor)
                          (_days_in_month (target_year anchor delta)
                                          (target_month anchor delta))) = true)
    by (apply check_date_fields_intro; lia).
  split; [|exact Hres].
  unfold add_months. rewrite month_carry_exits.
  fold (target_year anchor delta). fold (target_month anchor delta).
  rewrite last_day_of_month_in by lia. cbn [bind day].
  unfold date_new. rewrite Hres. reflexivity.
Qed.

(** X1. For every month of every year of the calendar,
    [last_day_of_month] returns the day whose number is the length of the
    month, and the day after it is the first of the following month (after
    9999-12-31 there is none). Month 0 is not rejected: it yields 31
    December of the year before. *)
Theorem last_day_of_month_is_last (y m : Z) :
  1 <= y <= 9999 ->
  (1 <= m <= 12 ->
   last_day_of_month y m = Return (mkdate y m (_days_in_month y m))
   /\ date_ok (mkdate y m (_days_in_month y m))
   /\ date_add_days (mkdate y m (_days_in_month y m)) 1
      = if (y =? 9999) && (m =? 12) then Raise OverflowError
        else if m =? 12 then Return (mkdate (y + 1) 1 1)
        else Return (mkdate y (m + 1) 1))
  /\ (m = 0 ->
      last_day_of_month y m
      = if y =? 1 then Raise OverflowError else Return (mkdate (y - 1) 12 31)).
Proof.
  intros Hy. split.
  - intros Hm.
    assert (Hr := days_in_month_range y m Hm).
    assert (Hok : date_ok (mkdate y m (_days_in_month y m)))
      by (apply check_date_fields_intro; cbn; lia).
    split; [apply last_day_of_month_in; assumption|]. split; [exact Hok|].
    assert (Hnext : toordinal (mkdate y m (_days_in_month y m)) + 1
                    = if m =? 12 then _days_before_year (y + 1) + 1
                      else toordinal (mkdate y (m + 1) 1)).
    { unfold toordinal, _ymd2ord, _days_before_month, _days_in_month. cbn [year month day].
      rewrite days_before_year_succ. unfold leap_days.
      month_cases m; try match goal with
        | |- context [Z.pos ?a + 1] =>
            let v := eval vm_compute in (Z.pos a + 1) in
            change (Z.pos a + 1) with v
        end; destruct (_is_leap y); cbn; lia. }
    destruct (m =? 12) eqn:E12.
    + apply Z.eqb_eq in E12. subst m.
      destruct (y =? 9999) eqn:E9; cbn [andb].
      * apply Z.eqb_eq in E9. subst y. apply date_add_days_out. right.
        rewrite Hnext. vm_compute. reflexivity.
      * apply Z.eqb_neq in E9.
        assert (Hf : date_ok (mkdate (y + 1) 1 1))
          by (apply check_date_fields_intro; cbn; lia).
        unfold date_add_days. rewrite Hnext.
        replace (_days_before_year (y + 1) + 1) with (toordinal (mkdate (y + 1) 1 1))
          by (unfold toordinal, _ymd2ord, _days_before_month; cbn; lia).
        assert (Hrf := toordinal_range _ Hf).
        replace ((0 <? toordinal (mkdate (y + 1) 1 1))
                 && (toordinal (mkdate (y + 1) 1 1) <=? MAXORDINAL)) with true
          by (symmetry; apply andb_true_intro; split; lia).
        apply fromordinal_toordinal; exact Hf.
    + apply Z.eqb_neq in E12. rewrite andb_false_r.
      assert (Hf : date_ok (mkdate y (m + 1) 1))
        by (apply check_date_fields_intro; cbn; try lia;
            assert (Hr' := days_in_month_range y (m + 1) ltac:(lia)); lia).
      unfold date_add_days. rewrite Hnext.
      assert (Hrf := toordinal_range _ Hf).
      replace ((0 <? toordinal (mkdate y (m + 1) 1))
               && (toordinal (mkdate y (m + 1) 1) <=? MAXORDINAL)) with true
        by (symmetry; apply andb_true_intro; split; lia).
      apply fromordinal_toordinal; exact Hf.
  - intros ->. unfold last_day_of_month.
    change (0 =? 12) with false. change (0 + 1) with 1. cbv iota.
    unfold date_new. rewrite check_date_fields_intro by (cbn; lia). cbn [bind].
    destruct (y =? 1) eqn:E1.
    + apply Z.eqb_eq in E1. subst y. reflexivity.
    + apply Z.eqb_neq in E1.
      assert (Hp : date_ok (mkdate (y - 1) 12 31))
        by (apply check_date_fields_intro; cbn; lia).
      assert (Hrp := toordinal_range _ Hp).
      assert (Hord : toordinal (mkdate y 1 1) - 1 = toordinal (mkdate (y - 1) 12 31)).
      { unfold toordinal, _ymd2ord, _days_before_month. cbn [year month day].
        replace y with (y - 1 + 1) at 1 by lia. rewrite days_before_year_succ.
        unfold leap_days. destruct (_is_leap (y - 1)); cbn; lia. }
      unfold date_sub_days. rewrite Hord.
      replace ((0 <? toordinal (mkdate (y - 1) 12 31))
               && (toordinal (mkdate (y - 1) 12 31) <=? MAXORDINAL)) with true
        by (symmetry; apply andb_true_intro; split; lia).
      apply fromordinal_toordinal; exact Hp.
Qed.

Lemma last_day_of_month_is_last_witness :
  last_day_of_month 2024 2 = Return (mkdate 2024 2 29)
  /\ last_day_of_month 2024 0 = Return (mkdate 2023 12 31).
Proof.
  split.
  - apply (proj1 (last_day_of_month_is_last 2024 2 ltac:(lia)) ltac:(lia)).
  - apply (proj2 (last_day_of_month_is_last 2024 0 ltac:(lia)) eq_refl).
Defined.

Lemma target_of_target a d1 d2 :
  let b := mkdate (target_year a d1) (target_month a d1)
             (Z.min (day a) (_days_in_month (target_year a d1) (target_month a d1))) in
  target_year b d2 = target_year a (d1 + d2)
  /\ target_month b d2 = target_month a (d1 + d2).
Proof. unfold target_year, target_month. cbn [year month]. split; dlia. Qed.

(** Two shifts in a row: the months add up, the day is clamped twice. *)
Lemma add_months_twice a d1 d2 :
  date_ok a ->
  1 <= target_year a d1 <= 9999 ->
  1 <= target_year a (d1 + d2) <= 9999 ->
  let y1 := target_year a d1 in
  let m1 := target_month a d1 in
  let y2 := target_year a (d1 + d2) in
  let m2 := target_month a (d1 + d2) in
  let b := mkdate y1 m1 (Z.min (day a) (_days_in_month y1 m1)) in
  let c := mkdate y2 m2 (Z.min (Z.min (day a) (_days_in_month y1 m1))
                               (_days_in_month y2 m2)) in
  add_months a d1 = Return b /\ add_months b d2 = Return c /\ date_ok c.
Proof.
  intros Hok H1 H2 y1 m1 y2 m2 b c.
  destruct (add_months_value a d1 Hok H1) as [Hb Hbok]. fold y1 m1 b in Hb, Hbok.
  destruct (target_of_target a d1 d2) as [Hy Hm]. fold y1 m1 b y2 m2 in Hy, Hm.
  assert (H2' : 1 <= target_year b d2 <= 9999) by (rewrite Hy; exact H2).
  destruct (add_months_value b d2 Hbok H2') as [Hc Hcok].
  rewrite Hy, Hm in Hc, Hcok. cbn [day] in Hc, Hcok. auto.
Qed.

(** X2. Month shifts compose on the year and month: shifting by [d1] and
    then by [d2] lands in the month that a single shift by [d1 + d2]
    reaches, on a day that is never later: the earlier of the day reached
    after the first shift and the day of the single shift. The two results
    agree exactly when the day of the single shift is not after the day
    reached by the first shift, as is the case whenever the anchor's day is
    at most 28. A shift by zero months changes nothing. *)
Theorem add_months_compose a d1 d2 :
  date_ok a ->
  1 <= target_year a d1 <= 9999 ->
  1 <= target_year a (d1 + d2) <= 9999 ->
  exists b c single,
    add_months a d1 = Return b /\ add_months b d2 = Return c
    /\ add_months a (d1 + d2) = Return single
    /\ year c = year single /\ month c = month single
    /\ day c <= day single <= day a
    /\ day c = Z.min (day b) (day single)
    /\ (c = single <-> day single <= day b)
    /\ (day a <= 28 -> c = single /\ day c = day a)
    /\ add_months a 0 = Return a.
Proof.
  intros Hok H1 H2.
  destruct (add_months_twice a d1 d2 Hok H1 H2) as (Hb & Hc & Hcok). cbv zeta in Hb, Hc.
  destruct (add_months_value a (d1 + d2) Hok H2) as [Hs _].
  assert (Hm1 : 1 <= target_month a d1 <= 12) by (unfold target_month; dlia).
  assert (Hm2 : 1 <= target_month a (d1 + d2) <= 12) by (unfold target_month; dlia).
  assert (Hr1 := days_in_month_range (target_year a d1) _ Hm1).
  assert (Hr2 := days_in_month_range (target_year a (d1 + d2)) _ Hm2).
  eexists _, _, _. split; [exact Hb|]. split; [exact Hc|]. split; [exact Hs|].
  cbn [year month day].
  split; [reflexivity|]. split; [reflexivity|]. split; [lia|].
  split; [lia|].
  split; [split; [intros [= H]; lia|intros H; f_equal; lia]|].
  split.
  - intros H28. split; [f_equal|]; lia.
  - assert (Hd := check_date_fields_inv _ _ _ Hok).
    assert (H0 : 1 <= target_year a 0 <= 9999) by (unfold target_year; dlia).
    destruct (add_months_value a 0 Hok H0) as [Hz _]. rewrite Hz.
    destruct a as [y m d]. cbn [year month day] in *.
    f_equal. f_equal; unfold target_year, target_month; cbn [year month]; try dlia.
    replace (y + (m + 0 - 1) / 12) with y by dlia.
    replace ((m + 0 - 1) mod 12 + 1) with m by dlia. lia.
Qed.

Lemma add_months_compose_witness :
  exists b c single,
    add_months (mkdate 2024 1 31) 1 = Return b /\ add_months b 1 = Return c
    /\ add_months (mkdate 2024 1 31) (1 + 1) = Return single
    /\ year c = year single /\ month c = month single
    /\ day c <= day single <= day (mkdate 2024 1 31)
    /\ day c = Z.min (day b) (day single)
    /\ (c = single <-> day single <= day b)
    /\ (day (mkdate 2024 1 31) <= 28 -> c = single /\ day c = day (mkdate 2024 1 31))
    /\ add_months (mkdate 2024 1 31) 0 = Return (mkdate 2024 1 31).
Proof.
  apply (add_months_compose (mkdate 2024 1 31) 1 1).
  - reflexivity.
  - vm_compute. split; discriminate.
  - vm_compute. split; discriminate.
Defined.

(** ** Paging the anchor *)

Lemma date_sub_days_inv d n w :
  date_ok d -> date_sub_days d n = Return w ->
  date_ok w /\ toordinal w = toordinal d - n.
Proof.
  intros Hd Hw.
  destruct (Z_le_dec 1 (toordinal d - n)) as [H1|H1];
    [destruct (Z_le_dec (toordinal d - n) MAXORDINAL) as [H2|H2]|].
  - destruct (date_sub_days_in d n Hd ltac:(lia)) as (w' & Hw' & Hok & Hord).
    rewrite Hw' in Hw. injection Hw as <-. auto.
  - rewrite date_sub_days_out in Hw by lia. discriminate.
  - rewrite date_sub_days_out in Hw by lia. discriminate.
Qed.

(** X3. Paging by week or by day moves the anchor by exactly 7 or 1 days
    in the direction given, and paging back returns to the anchor; a week
    page keeps the day of the week. Any view other than "month" and "week"
    pages by day. Outside the calendar the page raises [OverflowError]. *)
Theorem shift_anchor_days (anchor : date) (view : string) (direction : Z) :
  date_ok anchor -> view <> "month"%string ->
  let step := if String.eqb view "week" then 7 else 1 in
  (1 <= toordinal anchor + step * direction <= MAXORDINAL ->
   exists b,
     shift_anchor anchor view direction = Return b
     /\ date_ok b
     /\ toordinal b = toordinal anchor + step * direction
     /\ shift_anchor b view (- direction) = Return anchor
     /\ (view = "week"%string -> weekday b = weekday anchor))
  /\ (~ 1 <= toordinal anchor + step * direction <= MAXORDINAL ->
      shift_anchor anchor view direction = Raise OverflowError).
Proof.
  intros Hok Hview step.
  assert (Hm : String.eqb view "month" = false) by (apply String.eqb_neq; exact Hview).
  assert (Hshift : forall a dir, shift_anchor a view dir = date_add_days a (step * dir)).
  { intros a dir. unfold shift_anchor. rewrite Hm. subst step.
    destruct (String.eqb view "week"); [reflexivity|].
    replace (1 * dir) with dir by lia. reflexivity. }
  assert (Hr := toordinal_range anchor Hok).
  split.
  - intros Hin. rewrite Hshift.
    destruct (date_add_days_in anchor (step * direction) Hok Hin) as (b & Hb & Hbok & Hord).
    exists b. split; [exact Hb|]. split; [exact Hbok|]. split; [exact Hord|]. split.
    + rewrite Hshift.
      destruct (date_add_days_in b (step * - direction) Hbok ltac:(lia))
        as (a' & Ha' & Haok & Hord').
      rewrite Ha'. f_equal. apply toordinal_inj; try assumption. lia.
    + intros ->. subst step. cbn in Hord. unfold weekday. rewrite Hord. dlia.
  - intros Hout. rewrite Hshift. apply date_add_days_out. lia.
Qed.

Lemma shift_anchor_days_witness :
  exists b,
    shift_anchor (mkdate 2024 2 27) "week" 1 = Return b
    /\ date_ok b
    /\ toordinal b = toordinal (mkdate 2024 2 27) + 7 * 1
    /\ shift_anchor b "week" (- (1)) = Return (mkdate 2024 2 27)
    /\ ("week"%string = "week"%string -> weekday b = weekday (mkdate 2024 2 27)).
Proof.
  apply (proj1 (shift_anchor_days (mkdate 2024 2 27) "week" 1 eq_refl ltac:(discriminate))).
  vm_compute. split; discriminate.
Defined.

(** X4. Paging a month forward and then back returns to the month of the
    anchor. The day is the anchor's unless the month in between is
    shorter, in which case it is the length of that month: from 31 January
    2024 the two pages end on 29 January. *)
Theorem shift_anchor_month_there_and_back (anchor : date) (direction : Z) :
  date_ok anchor ->
  1 <= target_year anchor direction <= 9999 ->
  exists b,
    shift_anchor anchor "month" direction = Return b
    /\ shift_anchor b "month" (- direction)
       = Return (mkdate (year anchor) (month anchor)
                        (Z.min (day anchor) (_days_in_month (year b) (month b))))
    /\ (day anchor <= 28 -> shift_anchor b "month" (- direction) = Return anchor).
Proof.
  intros Hok Hy.
  assert (Hd := check_date_fields_inv _ _ _ Hok).
  assert (Hback : target_year anchor (direction + - direction) = year anchor
                  /\ target_month anchor (direction + - direction) = month anchor)
    by (unfold target_year, target_month; split; dlia).
  destruct Hback as [Hby Hbm].
  destruct (add_months_twice anchor direction (- direction) Hok Hy ltac:(lia))
    as (Hb & Hc & _). cbv zeta in Hb, Hc. rewrite Hby, Hbm in Hc.
  assert (Hm1 : 1 <= target_month anchor direction <= 12) by (unfold target_month; dlia).
  assert (Hr1 := days_in_month_range (target_year anchor direction) _ Hm1).
  eexists. unfold shift_anchor. cbn [String.eqb Ascii.eqb Bool.eqb].
  split; [exact Hb|]. rewrite Hc. cbn [year month].
  split.
  - f_equal. f_equal. lia.
  - intros H28. destruct anchor as [y m d]. cbn [year month day] in *.
    f_equal. f_equal. lia.
Qed.

Lemma shift_anchor_month_there_and_back_witness :
  exists b,
    shift_anchor (mkdate 2024 1 31) "month" 1 = Return b
    /\ shift_anchor b "month" (- (1))
       = Return (mkdate 2024 1 (Z.min 31 (_days_in_month (year b) (month b))))
    /\ (31 <= 28 -> shift_anchor b "month" (- (1)) = Return (mkdate 2024 1 31)).
Proof.
  apply (shift_anchor_month_there_and_back (mkdate 2024 1 31) 1).
  - reflexivity.
  - vm_compute. split; discriminate.
Defined.

(** ** Weeks *)

(** X5. The seven days that start at a week start are one week: a date
    between the week start [w] of [d] and six days after it has the same
    week start, for both conventions. *)
Theorem start_of_week_same_week (d d' w : date) (week_starts_monday : bool) :
  date_ok d -> date_ok d' ->
  start_of_week d week_starts_monday = Return w ->
  toordinal w <= toordinal d' <= toordinal w + 6 ->
  start_of_week d' week_starts_monday = Return w.
Proof.
  intros Hd Hd' Hw Hrange.
  unfold start_of_week in *.
  destruct week_starts_monday.
  - destruct (date_sub_days_inv _ _ _ Hd Hw) as [Hwok Hord].
    assert (Hrw := toordinal_range w Hwok).
    destruct (date_sub_days_in d' (weekday d') Hd') as (w' & Hw' & Hwok' & Hord').
    { unfold weekday in *. dlia. }
    rewrite Hw'. f_equal. apply toordinal_inj; try assumption.
    unfold weekday in *. dlia.
  - destruct (date_sub_days_inv _ _ _ Hd Hw) as [Hwok Hord].
    assert (Hrw := toordinal_range w Hwok).
    destruct (date_sub_days_in d' ((weekday d' + 1) mod 7) Hd') as (w' & Hw' & Hwok' & Hord').
    { unfold weekday in *. dlia. }
    rewrite Hw'. f_equal. apply toordinal_inj; try assumption.
    unfold weekday in *. dlia.
Qed.

Lemma start_of_week_same_week_witness :
  start_of_week (mkdate 2024 5 18) false = Return (mkdate 2024 5 12).
Proof.
  apply (start_of_week_same_week (mkdate 2024 5 15) (mkdate 2024 5 18) (mkdate 2024 5 12) false).
  - reflexivity.
  - reflexivity.
  - vm_compute. reflexivity.
  - vm_compute. split; discriminate.
Defined.

(** ** Text of dates and datetimes *)

Lemma digit_char_ok k :
  0 <= k <= 9 -> is_digit (digit_char k) = true /\ digit_val (digit_char k) = k.
Proof.
  intros Hk.
  assert (Hc : k = 0 \/ k = 1 \/ k = 2 \/ k = 3 \/ k = 4 \/ k = 5 \/ k = 6
               \/ k = 7 \/ k = 8 \/ k = 9) by lia.
  repeat (destruct Hc as [->|Hc]; [split; reflexivity|]). subst. split; reflexivity.
Qed.

Lemma append_cons x (a b : string) : (String x a ++ b = String x (a ++ b))%string.
Proof. reflexivity. Qed.

Lemma append_nil_l (b : string) : ("" ++ b = b)%string.
Proof. reflexivity. Qed.

Lemma append_nil_r (a : string) : (a ++ "" = a)%string.
Proof. induction a as [|x a IH]; [reflexivity|]. rewrite append_cons, IH. reflexivity. Qed.

Lemma append_assoc_str (a b c : string) : ((a ++ b) ++ c = a ++ (b ++ c))%string.
Proof.
  induction a as [|x a IH]; [reflexivity|]. rewrite !append_cons, IH. reflexivity.
Qed.

Lemma append_length (a b : string) :
  String.length (a ++ b) = (String.length a + String.length b)%nat.
Proof.
  induction a as [|x a IH]; [reflexivity|]. rewrite append_cons. cbn [String.length].
  rewrite IH. reflexivity.
Qed.

(** A bound by a power of ten with a literal exponent. *)
Ltac pow_lia :=
  match goal with
  | |- _ <= _ < 10 ^ Z.of_nat ?k =>
      let v := eval vm_compute in (10 ^ Z.of_nat k) in
      change (10 ^ Z.of_nat k) with v; lia
  end.

(** Rewriting an append whose left operand is a literal. *)
Ltac push_append := rewrite ?append_assoc_str, ?append_cons, ?append_nil_l.

Lemma take_digits_snoc k : forall acc s,
  take_digits (S k) acc s
  = match take_digits k acc s with
    | Some (v, String c r) =>
        if is_digit c then Some (v * 10 + digit_val c, r) else None
    | _ => None
    end.
Proof.
  induction k as [|k IH]; intros acc s.
  - cbn [take_digits]. destruct s as [|c r]; [reflexivity|].
    destruct (is_digit c); reflexivity.
  - change (take_digits (S (S k)) acc s)
      with (match s with
            | String c r => if is_digit c
                            then take_digits (S k) (acc * 10 + digit_val c) r else None
            | EmptyString => None
            end).
    destruct s as [|c r]; [reflexivity|]. cbn [take_digits].
    destruct (is_digit c); [|reflexivity]. apply IH.
Qed.

Lemma take_digits_dec k : forall n acc rest,
  0 <= n < 10 ^ Z.of_nat k ->
  take_digits k acc (dec_digits k n ++ rest) = Some (acc * 10 ^ Z.of_nat k + n, rest).
Proof.
  induction k as [|k IH]; intros n acc rest Hn.
  - cbn in *. f_equal. f_equal. lia.
  - rewrite Nat2Z.inj_succ, Z.pow_succ_r in * by lia.
    set (p := 10 ^ Z.of_nat k) in *.
    rewrite take_digits_snoc. cbn [dec_digits]. rewrite append_assoc_str.
    rewrite IH by (fold p; dlia). rewrite append_cons, append_nil_l.
    destruct (digit_char_ok (n mod 10)) as [Hd Hv]; [dlia|].
    rewrite Hd, Hv. f_equal. f_equal. dlia.
Qed.

Lemma fmt_d_dec width n :
  0 <= n < 10 ^ Z.of_nat width -> fmt_d width n = dec_digits width n.
Proof.
  intros Hn. unfold fmt_d.
  replace (n <? 10 ^ Z.of_nat width) with true by (symmetry; apply Z.ltb_lt; lia).
  reflexivity.
Qed.

Lemma take_digits_fmt width n rest :
  0 <= n < 10 ^ Z.of_nat width ->
  take_digits width 0 (fmt_d width n ++ rest) = Some (n, rest).
Proof.
  intros Hn. rewrite fmt_d_dec by exact Hn. rewrite take_digits_dec by exact Hn.
  reflexivity.
Qed.

Lemma dec_digits_length k : forall n, String.length (dec_digits k n) = k.
Proof.
  induction k as [|k IH]; intros n; [reflexivity|].
  cbn [dec_digits]. rewrite append_length, IH. cbn [String.length]. lia.
Qed.

Lemma date_isoformat_round d :
  date_ok d -> date_fromisoformat (date_isoformat d) = Return d.
Proof.
  destruct d as [y m d]. intros Hok. assert (Hf := check_date_fields_inv _ _ _ Hok).
  cbn [year month day] in Hf. destruct Hf as (Hy & Hm & Hd).
  assert (Hr := days_in_month_range y m Hm).
  unfold date_isoformat, date_fromisoformat.
  cbn [year month day]. push_append.
  rewrite take_digits_fmt by (cbn; lia). cbn [mbind option_bind expect Ascii.eqb Bool.eqb].
  rewrite take_digits_fmt by (cbn; lia). cbn [mbind option_bind expect Ascii.eqb Bool.eqb].
  rewrite <- (append_nil_r (fmt_d 2 d)).
  rewrite take_digits_fmt by (cbn; lia). cbn [mbind option_bind].
  unfold date_new. unfold date_ok in Hok. cbn [year month day] in Hok.
  rewrite Hok. reflexivity.
Qed.

Lemma date_isoformat_inj d1 d2 :
  date_ok d1 -> date_ok d2 -> date_isoformat d1 = date_isoformat d2 -> d1 = d2.
Proof.
  intros H1 H2 Heq.
  assert (E1 := date_isoformat_round d1 H1). rewrite Heq, (date_isoformat_round d2 H2) in E1.
  congruence.
Qed.

(** X6. The text of a date is read back as the same date, so distinct
    dates have distinct texts. A text that is not of the shape
    [YYYY-MM-DD], or that names no day of the calendar, is rejected with
    [ValueError]: month 13 and 30 February are examples. *)
Theorem parse_iso_date_iso_date :
  (forall d, date_ok d -> parse_iso_date (iso_date d) = Return d)
  /\ (forall d1 d2, date_ok d1 -> date_ok d2 -> iso_date d1 = iso_date d2 -> d1 = d2)
  /\ parse_iso_date "2024-13-01" = Raise ValueError
  /\ parse_iso_date "2023-02-30" = Raise ValueError
  /\ parse_iso_date "2024-1-5" = Raise ValueError.
Proof.
  split; [exact date_isoformat_round|]. split; [exact date_isoformat_inj|].
  repeat split; vm_compute; reflexivity.
Qed.

Lemma parse_iso_date_iso_date_witness :
  parse_iso_date (iso_date (mkdate 987 6 5)) = Return (mkdate 987 6 5).
Proof. apply (proj1 parse_iso_date_iso_date (mkdate 987 6 5)). reflexivity. Defined.

Lemma datetime_parts x :
  0 <= x <= MAX_US ->
  date_ok (datetime_date x)
  /\ 0 <= hour (datetime_time x) <= 23
  /\ 0 <= minute (datetime_time x) <= 59
  /\ 0 <= second (datetime_time x) <= 59
  /\ 0 <= microsecond (datetime_time x) <= 999999
  /\ datetime_combine (datetime_date x) (datetime_time x) = x.
Proof.
  intros Hx.
  assert (Hn : 1 <= x / US_PER_DAY + 1 <= MAXORDINAL) by (unfold_us; dlia).
  assert (Ho := ord_ymd_ord _ Hn).
  unfold datetime_date, datetime_combine, toordinal, date_ok.
  destruct (_ord2ymd (x / US_PER_DAY + 1)) as [[y m] d]. destruct Ho as [Hok Hord].
  cbn [year month day]. rewrite Hord.
  unfold datetime_time, time_us. cbn [hour minute second microsecond].
  set (r := x mod US_PER_DAY).
  assert (Hr : 0 <= r < US_PER_DAY /\ x = x / US_PER_DAY * US_PER_DAY + r)
    by (subst r; unfold_us; dlia).
  clearbody r. unfold_us.
  split; [exact Hok|]. repeat split; dlia.
Qed.

Lemma str_contains_app_l needle a b :
  str_contains needle b = true -> str_contains needle (a ++ b) = true.
Proof.
  intros Hb. induction a as [|x a IH]; [exact Hb|].
  rewrite append_cons. cbn [str_contains]. rewrite IH. apply orb_true_r.
Qed.

Lemma str_contains_here c r : str_contains (String c "") (String c r) = true.
Proof.
  cbn [str_contains String.prefix].
  destruct (ascii_dec c c) as [_|Hne]; [|congruence]. destruct r; reflexivity.
Qed.

Lemma str_contains_skip c a r :
  a <> c -> str_contains (String c "") (String a r) = str_contains (String c "") r.
Proof.
  intros Hne. cbn [str_contains String.prefix].
  destruct (ascii_dec c a) as [He|_]; [congruence|reflexivity].
Qed.

Lemma digit_char_letter k c :
  0 <= k <= 9 -> is_digit c = false -> digit_char k <> c.
Proof.
  intros Hk Hc He. destruct (digit_char_ok k Hk) as [Hd _]. congruence.
Qed.

(** The text of a time holds no sign character. *)
Lemma sign_cut_cons c r :
  Ascii.eqb c "+" = false -> Ascii.eqb c "-" = false ->
  sign_cut (String c r) = (String c (fst (sign_cut r)), snd (sign_cut r)).
Proof.
  intros H1 H2. cbn [sign_cut]. rewrite H1, H2. destruct (sign_cut r); reflexivity.
Qed.

Lemma digit_char_no_sign k :
  0 <= k <= 9 ->
  Ascii.eqb (digit_char k) "+" = false /\ Ascii.eqb (digit_char k) "-" = false.
Proof.
  intros Hk. split; apply Ascii.eqb_neq; apply digit_char_letter;
    first [exact Hk|reflexivity].
Qed.

Lemma sign_cut_digits k : forall n rest,
  sign_cut (dec_digits k n ++ rest)
  = ((dec_digits k n ++ fst (sign_cut rest))%string, snd (sign_cut rest)).
Proof.
  induction k as [|k IH]; intros n rest.
  - cbn [dec_digits]. rewrite !append_nil_l. destruct (sign_cut rest); reflexivity.
  - cbn [dec_digits]. rewrite !append_assoc_str, IH, !append_cons, !append_nil_l.
    destruct (digit_char_no_sign (n mod 10) ltac:(dlia)) as [H1 H2].
    rewrite (sign_cut_cons _ _ H1 H2). reflexivity.
Qed.

Lemma sign_cut_time t :
  time_ok t -> sign_cut (time_isoformat t) = (time_isoformat t, None).
Proof.
  intros (Hh & Hm & Hs & Hu). unfold time_isoformat.
  rewrite !fmt_d_dec by pow_lia.
  assert (Hc : forall r, sign_cut (String ":" r)
                         = (String ":" (fst (sign_cut r)), snd (sign_cut r)))
    by (intros r; apply sign_cut_cons; reflexivity).
  assert (Hp : forall r, sign_cut (String "." r)
                         = (String "." (fst (sign_cut r)), snd (sign_cut r)))
    by (intros r; apply sign_cut_cons; reflexivity).
  destruct (microsecond t =? 0).
  - rewrite sign_cut_digits, append_cons, append_nil_l, Hc.
    rewrite sign_cut_digits, append_cons, append_nil_l, Hc.
    rewrite sign_cut_digits. cbn [sign_cut fst snd]. reflexivity.
  - rewrite sign_cut_digits, append_cons, append_nil_l, Hc.
    rewrite sign_cut_digits, append_cons, append_nil_l, Hc.
    rewrite sign_cut_digits, append_cons, append_nil_l, Hp.
    rewrite <- (append_nil_r (dec_digits 6 (microsecond t))).
    rewrite sign_cut_digits. cbn [sign_cut fst snd]. reflexivity.
Qed.

Lemma iso_time_isoformat y m d t :
  time_ok t ->
  iso_time y m d (time_isoformat t)
  = Some (y, m, d, hour t, minute t, second t, microsecond t).
Proof.
  intros (Hh & Hm & Hs & Hu). unfold iso_time, time_isoformat.
  rewrite take_digits_fmt by pow_lia. push_append.
  cbn [mbind option_bind expect Ascii.eqb Bool.eqb].
  rewrite take_digits_fmt by pow_lia. push_append.
  cbn [mbind option_bind expect Ascii.eqb Bool.eqb].
  destruct (microsecond t =? 0) eqn:E.
  - apply Z.eqb_eq in E. rewrite E.
    rewrite take_digits_fmt by pow_lia. cbn [mbind option_bind]. reflexivity.
  - rewrite take_digits_fmt by pow_lia. push_append.
    cbn [mbind option_bind expect Ascii.eqb Bool.eqb].
    unfold iso_fraction. rewrite fmt_d_dec by pow_lia. rewrite dec_digits_length.
    rewrite <- (append_nil_r (dec_digits 6 _)).
    rewrite take_digits_dec by pow_lia. cbn [mbind option_bind].
    rewrite Z.mul_0_l, Z.add_0_l. reflexivity.
Qed.

Lemma datetime_time_ok x : 0 <= x <= MAX_US -> time_ok (datetime_time x).
Proof.
  intros Hx. destruct (datetime_parts x Hx) as (_ & Hh & Hm & Hs & Hu & _).
  unfold time_ok. auto.
Qed.

Lemma iso_standard_isoformat x :
  0 <= x <= MAX_US ->
  iso_standard (datetime_isoformat x)
  = Some (year (datetime_date x), month (datetime_date x), day (datetime_date x),
          hour (datetime_time x), minute (datetime_time x),
          second (datetime_time x), microsecond (datetime_time x), None).
Proof.
  intros Hx. destruct (datetime_parts x Hx) as (Hok & _).
  assert (Ht := datetime_time_ok x Hx).
  assert (Hf := check_date_fields_inv _ _ _ Hok). destruct Hf as (Hy & Hmo & Hd).
  assert (Hr := days_in_month_range (year (datetime_date x)) _ Hmo).
  unfold iso_standard, datetime_isoformat, date_isoformat.
  push_append.
  rewrite take_digits_fmt by pow_lia. cbn [mbind option_bind expect Ascii.eqb Bool.eqb].
  rewrite take_digits_fmt by pow_lia. cbn [mbind option_bind expect Ascii.eqb Bool.eqb].
  rewrite take_digits_fmt by pow_lia. cbn [mbind option_bind].
  rewrite (sign_cut_time _ Ht), (iso_time_isoformat _ _ _ _ Ht).
  reflexivity.
Qed.

Lemma parse_isoformat_round x :
  0 <= x <= MAX_US ->
  @_parse_iso_dt iso_standard_grammar (JStr (datetime_isoformat x)) = Some (Naive x).
Proof.
  intros Hx. unfold _parse_iso_dt.
  replace (str_contains "T" (datetime_isoformat x)) with true.
  2:{ symmetry. unfold datetime_isoformat. apply str_contains_app_l.
      rewrite append_cons. apply str_contains_here. }
  cbn [negb]. unfold fromisoformat, iso_fields, iso_standard_grammar.
  rewrite iso_standard_isoformat by exact Hx.
  destruct (datetime_parts x Hx) as (Hok & Hh & Hm & Hs & Hu & Hc).
  unfold datetime_new. unfold date_ok in Hok. rewrite Hok. cbn [andb].
  replace ((0 <=? hour (datetime_time x)) && (hour (datetime_time x) <=? 23)
           && (0 <=? minute (datetime_time x)) && (minute (datetime_time x) <=? 59)
           && (0 <=? second (datetime_time x)) && (second (datetime_time x) <=? 59)
           && (0 <=? microsecond (datetime_time x))
           && (microsecond (datetime_time x) <=? 999999)) with true
    by (symmetry; repeat (apply andb_true_intro; split); apply Z.leb_le; lia).
  cbn [bind]. f_equal. f_equal.
  replace (mkdate (year (datetime_date x)) (month (datetime_date x))
                  (day (datetime_date x))) with (datetime_date x)
    by (destruct (datetime_date x); reflexivity).
  replace (mktime (hour (datetime_time x)) (minute (datetime_time x))
                  (second (datetime_time x)) (microsecond (datetime_time x)))
    with (datetime_time x) by (destruct (datetime_time x); reflexivity).
  exact Hc.
Qed.

(** X7. With the grammar of [isoformat()], what [isoformat()] writes for
    a naive datetime [_parse_iso_dt] reads back as the same naive
    datetime, microseconds included. Under any grammar the text of a date
    alone, which all-day events and tasks store, is not read as a
    timestamp. *)
Theorem parse_iso_dt_isoformat :
  (forall x, 0 <= x <= MAX_US ->
             @_parse_iso_dt iso_standard_grammar (JStr (datetime_isoformat x))
             = Some (Naive x))
  /\ (forall (G : IsoGrammar) d,
         date_ok d -> @_parse_iso_dt G (JStr (iso_date d)) = None).
Proof.
  split; [exact parse_isoformat_round|].
  intros G [y m d] Hok. assert (Hf := check_date_fields_inv _ _ _ Hok).
  cbn [year month day] in Hf. destruct Hf as (Hy & Hm & Hd).
  assert (Hr := days_in_month_range y m Hm).
  unfold _parse_iso_dt.
  replace (str_contains "T" (iso_date (mkdate y m d))) with false; [reflexivity|].
  symmetry. unfold iso_date, date_isoformat. cbn [year month day].
  rewrite !fmt_d_dec by (cbn; lia). cbn [dec_digits]. push_append.
  rewrite !str_contains_skip
    by (first [apply digit_char_letter; [dlia|reflexivity]|discriminate]).
  reflexivity.
Qed.

Lemma parse_iso_dt_isoformat_witness :
  _parse_iso_dt (JStr (datetime_isoformat 63840042307001500))
  = Some (Naive 63840042307001500).
Proof.
  apply (proj1 parse_iso_dt_isoformat 63840042307001500). vm_compute.
  split; discriminate.
Defined.

(** ** More on slot resolution *)

Section StoreMore.

Context `{G : IsoGrammar}.

(** X8. A proposal that is free is kept: when the proposed start, clamped
    into [[day_start, latest_start]], gives a window that overlaps no busy
    interval of the day, the search returns that window; on a day without
    busy intervals it always does. *)
Theorem find_next_free_slot_keeps_free (events : list event) (day : date)
    (proposed_start : datetime) (duration_min : Z)
    (intervals : list (stamp * stamp)) :
  date_ok day -> 0 < duration_min -> slot_representable day duration_min ->
  let start := Z.min (Z.max (day_start day) proposed_start)
                     (latest_start day duration_min) in
  _busy_intervals_for_date events day = Return intervals ->
  (forall bs be, In (bs, be) intervals ->
                 _overlaps (Naive start) (Naive (start + duration_min * US_PER_MINUTE))
                           bs be = Return false) ->
  find_next_free_slot events day (Naive proposed_start) duration_min
  = Return (Naive start, Naive (start + duration_min * US_PER_MINUTE)).
Proof.
  intros Hok Hpos Hrep start Hb Hfree.
  destruct (find_next_free_slot_unfold events day proposed_start duration_min
              Hok Hpos Hrep) as [Heq _].
  cbv zeta in Heq. fold start in Heq. rewrite Heq, Hb. cbn [bind].
  destruct intervals as [|i r]; [reflexivity|].
  change (slot_loop 200) with (slot_loop (S 199)). cbn [slot_loop].
  rewrite first_conflict_none by exact Hfree. reflexivity.
Qed.

(** X9. The search never moves a proposal earlier: the returned start is
    a naive value at or after the clamped proposal, and it is the clamped
    proposal itself, the end of one of the day's busy intervals, or
    [latest_start]. *)
Theorem find_next_free_slot_forward (events : list event) (day : date)
    (proposed_start : datetime) (duration_min : Z) (s e : stamp) :
  date_ok day -> 0 < duration_min ->
  find_next_free_slot events day (Naive proposed_start) duration_min = Return (s, e) ->
  let start := Z.min (Z.max (day_start day) proposed_start)
                     (latest_start day duration_min) in
  exists s' intervals,
    s = Naive s'
    /\ _busy_intervals_for_date events day = Return intervals
    /\ start <= s'
    /\ (s' = start \/ s' = latest_start day duration_min
        \/ exists bs, In (bs, s) intervals).
Proof.
  intros Hok Hpos Hrun start.
  destruct (find_next_free_slot_returned _ _ _ _ _ Hok Hpos Hrun)
    as (Hrep & Hb & s0 & Hr & Hrange & Hsearch).
  injection Hr as -> ->.
  exists s0, (map lift (intervals_naive events day)).
  split; [reflexivity|]. split; [exact Hb|].
  fold start in Hsearch. unfold search_naive in Hsearch.
  destruct (intervals_naive events day) as [|i r] eqn:Hi.
  - injection Hsearch as <-. split; [lia|left; reflexivity].
  - apply slot_loop_naive_trace in Hsearch; [|subst start; lia].
    destruct Hsearch as [Hle Hcase]. split; [exact Hle|].
    destruct Hcase as [H|[H|[bs Hin]]]; [left; exact H|right; left; exact H|].
    right; right. exists (Naive bs).
    apply (in_map lift _ _ Hin).
Qed.

Lemma free_unless_last_resort events day proposed_start duration_min s e intervals :
  date_ok day -> 0 < duration_min ->
  _busy_intervals_for_date events day = Return intervals ->
  (length intervals <= 200)%nat ->
  find_next_free_slot events day (Naive proposed_start) duration_min = Return (s, e) ->
  s <> Naive (latest_start day duration_min) ->
  forall bs be, In (bs, be) intervals -> _overlaps s e bs be = Return false.
Proof.
  intros Hok Hpos Hint Hlen Hrun Hne.
  destruct (find_next_free_slot_returned _ _ _ _ _ Hok Hpos Hrun)
    as (Hrep & Hb & s0 & Hr & Hrange & Hsearch).
  injection Hr as -> ->.
  rewrite Hb in Hint. injection Hint as <-.
  rewrite length_map in Hlen.
  assert (Hs0 : s0 <> latest_start day duration_min) by congruence.
  unfold search_naive in Hsearch.
  intros bs be Hin. apply in_map_iff in Hin. destruct Hin as ([b1 b2] & Hl & Hin).
  injection Hl as <- <-. cbn [fst snd]. rewrite overlaps_lift. f_equal.
  destruct (intervals_naive events day) as [|i r] eqn:Hi; [destruct Hin|].
  apply slot_loop_naive_free in Hsearch.
  - destruct Hsearch as [_ [Hl|Hfree]]; [contradiction|].
    apply Hfree. exact Hin.
  - unfold_us; lia.
  - lia.
  - etransitivity; [apply filter_length_le|exact Hlen].
Qed.

(** X10. The no-overlap guarantee: on a day with at most 200 busy
    intervals, a returned window that does not start at [latest_start]
    overlaps none of them. Only the last-resort placement at
    [latest_start] may overlap. *)
Theorem find_next_free_slot_no_overlap (events : list event) (day : date)
    (proposed_start : datetime) (duration_min : Z) (s e : stamp)
    (intervals : list (stamp * stamp)) :
  date_ok day -> 0 < duration_min ->
  _busy_intervals_for_date events day = Return intervals ->
  (length intervals <= 200)%nat ->
  find_next_free_slot events day (Naive proposed_start) duration_min = Return (s, e) ->
  s <> Naive (latest_start day duration_min) ->
  forall bs be, In (bs, be) intervals -> _overlaps s e bs be = Return false.
Proof. apply free_unless_last_resort. Qed.

Lemma busy_intervals_skip events1 ev events2 day :
  naive_record ev = true ->
  (forall s e, ~ is_busy_on day ev s e) ->
  _busy_intervals_for_date (events1 ++ ev :: events2) day
  = _busy_intervals_for_date (events1 ++ events2) day.
Proof.
  intros Hrec Hnot. unfold _busy_intervals_for_date. rewrite !busy_loop_app.
  destruct (busy_loop events1 day []) as [acc|err]; cbn [bind]; [|reflexivity].
  rewrite busy_loop_cons, busy_step_skip by assumption. cbn [bind].
  rewrite app_nil_r. reflexivity.
Qed.

(** X11. Records without a UTC offset that are not timed events of the
    day have no influence on the placement: removing a task, an all-day
    event, an event of another day or a record with an unreadable or
    empty span from the store changes neither the outcome of the
    extraction of the busy intervals of the day nor the outcome of the
    search, whatever else the store holds. *)
Theorem find_next_free_slot_ignores (events1 events2 : list event) (ev : event)
    (day : date) (proposed_start : stamp) (duration_min : Z) :
  naive_record ev = true ->
  (forall s e, ~ is_busy_on day ev s e) ->
  _busy_intervals_for_date (events1 ++ ev :: events2) day
  = _busy_intervals_for_date (events1 ++ events2) day
  /\ find_next_free_slot (events1 ++ ev :: events2) day proposed_start duration_min
     = find_next_free_slot (events1 ++ events2) day proposed_start duration_min.
Proof.
  intros Hrec Hnot. split; [apply busy_intervals_skip; assumption|].
  unfold find_next_free_slot. rewrite busy_intervals_skip by assumption. reflexivity.
Qed.

End StoreMore.

Lemma find_next_free_slot_keeps_free_witness :
  find_next_free_slot [timed_event "2024-01-01T09:00:00" "2024-01-01T10:00:00"]
    (mkdate 2024 1 1) (Naive (datetime_combine (mkdate 2024 1 1) (mktime 11 0 0 0))) 30
  = Return (Naive (datetime_combine (mkdate 2024 1 1) (mktime 11 0 0 0)),
            Naive (datetime_combine (mkdate 2024 1 1) (mktime 11 30 0 0))).
Proof.
  apply (find_next_free_slot_keeps_free
           [timed_event "2024-01-01T09:00:00" "2024-01-01T10:00:00"]
           (mkdate 2024 1 1) (datetime_combine (mkdate 2024 1 1) (mktime 11 0 0 0)) 30
           [(Naive (datetime_combine (mkdate 2024 1 1) (mktime 9 0 0 0)),
             Naive (datetime_combine (mkdate 2024 1 1) (mktime 10 0 0 0)))]).
  - reflexivity.
  - lia.
  - vm_compute. split; discriminate.
  - vm_compute. reflexivity.
  - intros bs be [[= <- <-]|[]]. vm_compute. reflexivity.
Defined.

Lemma find_next_free_slot_forward_witness :
  let day := mkdate 2024 1 1 in
  let events := [timed_event "2024-01-01T09:00:00" "2024-01-01T10:00:00"] in
  let start := Z.min (Z.max (day_start day) (datetime_combine day (mktime 9 30 0 0)))
                     (latest_start day 45) in
  exists s' intervals,
    Naive (datetime_combine day (mktime 10 0 0 0)) = Naive s'
    /\ _busy_intervals_for_date events day = Return intervals
    /\ start <= s'
    /\ (s' = start \/ s' = latest_start day 45
        \/ exists bs, In (bs, Naive (datetime_combine day (mktime 10 0 0 0))) intervals).
Proof.
  apply (find_next_free_slot_forward
           [timed_event "2024-01-01T09:00:00" "2024-01-01T10:00:00"]
           (mkdate 2024 1 1) (datetime_combine (mkdate 2024 1 1) (mktime 9 30 0 0)) 45
           (Naive (datetime_combine (mkdate 2024 1 1) (mktime 10 0 0 0)))
           (Naive (datetime_combine (mkdate 2024 1 1) (mktime 10 45 0 0)))).
  - reflexivity.
  - lia.
  - vm_compute. reflexivity.
Defined.

Lemma find_next_free_slot_no_overlap_witness :
  _overlaps (Naive (datetime_combine (mkdate 2024 1 1) (mktime 10 30 0 0)))
            (Naive (datetime_combine (mkdate 2024 1 1) (mktime 11 15 0 0)))
            (Naive (datetime_combine (mkdate 2024 1 1) (mktime 10 0 0 0)))
            (Naive (datetime_combine (mkdate 2024 1 1) (mktime 10 30 0 0)))
  = Return false.
Proof.
  apply (find_next_free_slot_no_overlap
           [timed_event "2024-01-01T09:00:00" "2024-01-01T10:00:00";
            timed_event "2024-01-01T10:00:00" "2024-01-01T10:30:00"]
           (mkdate 2024 1 1) (datetime_combine (mkdate 2024 1 1) (mktime 9 30 0 0)) 45
           _ _
           [(Naive (datetime_combine (mkdate 2024 1 1) (mktime 9 0 0 0)),
             Naive (datetime_combine (mkdate 2024 1 1) (mktime 10 0 0 0)));
            (Naive (datetime_combine (mkdate 2024 1 1) (mktime 10 0 0 0)),
             Naive (datetime_combine (mkdate 2024 1 1) (mktime 10 30 0 0)))]).
  - reflexivity.
  - lia.
  - vm_compute. reflexivity.
  - vm_compute. lia.
  - vm_compute. reflexivity.
  - vm_compute. discriminate.
  - right; left; reflexivity.
Defined.

Lemma find_next_free_slot_ignores_witness :
  let task := ({[ "kind" := JStr "task"; "allDay" := JBool true;
                  "start" := JStr "2024-01-01" ]} : event) in
  find_next_free_slot
    ([timed_event "2024-01-01T09:00:00" "2024-01-01T10:00:00"] ++ task :: [])
    (mkdate 2024 1 1)
    (Naive (datetime_combine (mkdate 2024 1 1) (mktime 9 30 0 0))) 45
  = find_next_free_slot
      ([timed_event "2024-01-01T09:00:00" "2024-01-01T10:00:00"] ++ [])
      (mkdate 2024 1 1)
      (Naive (datetime_combine (mkdate 2024 1 1) (mktime 9 30 0 0))) 45.
Proof.
  apply (find_next_free_slot_ignores
           [timed_event "2024-01-01T09:00:00" "2024-01-01T10:00:00"] []
           ({[ "kind" := JStr "task"; "allDay" := JBool true;
               "start" := JStr "2024-01-01" ]} : event)
           (mkdate 2024 1 1)
           (Naive (datetime_combine (mkdate 2024 1 1) (mktime 9 30 0 0))) 45).
  - vm_compute. reflexivity.
  - intros s e (Hk & _). vm_compute in Hk. discriminate.
Defined.

(** ** A placement, once stored *)

Lemma datetime_date_inside day x :
  date_ok day -> day_start day <= x < day_start day + US_PER_DAY ->
  datetime_date x = day.
Proof.
  intros Hok Hx. assert (Hr := toordinal_range day Hok).
  unfold datetime_date.
  replace (x / US_PER_DAY + 1) with (toordinal day).
  2:{ unfold day_start, datetime_combine, time_us in Hx. cbn in Hx. unfold_us. dlia. }
  destruct day as [y m d]. unfold toordinal. cbn [year month day].
  rewrite (ymd_ord_ymd y m d Hok). reflexivity.
Qed.

Lemma new_event_busy new_id title tags description extended day s e :
  date_ok day -> day_start day <= s < day_start day + US_PER_DAY ->
  s < e <= MAX_US ->
  @busy_entry iso_standard_grammar day
    (new_event new_id title tags description extended s e) = [(s, e)]
  /\ @naive_record iso_standard_grammar
       (new_event new_id title tags description extended s e) = true.
Proof.
  intros Hok Hs He. assert (Hds := day_start_range day Hok).
  unfold busy_entry, naive_record, offset_free.
  replace (get_default (new_event new_id title tags description extended s e)
                       "start" (JStr "")) with (JStr (datetime_isoformat s))
    by reflexivity.
  replace (get_default (new_event new_id title tags description extended s e)
                       "end" (JStr "")) with (JStr (datetime_isoformat e))
    by reflexivity.
  rewrite !parse_isoformat_round by lia.
  split; [|reflexivity].
  replace (get (new_event new_id title tags description extended s e) "kind")
    with (JStr "event") by reflexivity.
  replace (get (new_event new_id title tags description extended s e) "allDay")
    with (JBool false) by reflexivity.
  rewrite (datetime_date_inside day s Hok Hs).
  replace (date_eqb day day) with true by (symmetry; apply date_eqb_eq; reflexivity).
  replace (s <? e) with true by (symmetry; apply Z.ltb_lt; lia).
  reflexivity.
Qed.

Lemma stored_placement events day proposed_start duration_min s e
    new_id title tags description extended :
  date_ok day -> 0 < duration_min ->
  @find_next_free_slot iso_standard_grammar events day (Naive proposed_start)
     duration_min
  = Return (Naive s, Naive e) ->
  exists intervals intervals',
    @_busy_intervals_for_date iso_standard_grammar events day = Return intervals
    /\ @_busy_intervals_for_date iso_standard_grammar
         (events ++ [new_event new_id title tags description extended s e]) day
       = Return intervals'
    /\ Permutation intervals' ((Naive s, Naive e) :: intervals).
Proof.
  intros Hok Hpos Hrun.
  destruct (find_next_free_slot_returned _ _ _ _ _ Hok Hpos Hrun)
    as (Hrep & Hb & s0 & Hr & Hrange & _).
  injection Hr as -> ->.
  assert (Hls := latest_start_range day duration_min Hok Hpos).
  assert (Hde := day_end_start day). destruct Hrep as [Hlow Hhigh].
  destruct (new_event_busy new_id title tags description extended day
              s0 (s0 + duration_min * US_PER_MINUTE) Hok
              ltac:(unfold_us; lia) ltac:(unfold_us; lia)) as [Hentry Hrec].
  set (nev := new_event new_id title tags description extended s0
                (s0 + duration_min * US_PER_MINUTE)) in *.
  assert (Hloop := busy_loop_of_intervals events day _ Hb (lift_all_naive _)).
  assert (Hnew := @busy_loop_returns iso_standard_grammar [nev] day
                    (flat_map (busy_entry day) events)
                    ltac:(unfold naive_store; cbn [forallb]; rewrite Hrec; reflexivity)).
  cbn [flat_map] in Hnew. rewrite Hentry in Hnew. cbn [app] in Hnew.
  exists (map lift (intervals_naive events day)),
         (map lift (sort_naive (flat_map (busy_entry day) events
                                ++ [(s0, s0 + duration_min * US_PER_MINUTE)]))).
  split; [exact Hb|]. split.
  - unfold _busy_intervals_for_date. rewrite busy_loop_app, Hloop. cbn [bind].
    rewrite Hnew. cbn [bind]. apply sort_by_start_lift.
  - change (Naive s0, Naive (s0 + duration_min * US_PER_MINUTE))
      with (lift (s0, s0 + duration_min * US_PER_MINUTE)).
    rewrite <- map_cons. apply Permutation_map.
    rewrite sort_naive_perm. rewrite <- Permutation_cons_append. constructor.
    symmetry. apply sort_naive_perm.
Qed.

(** X12. A placement becomes busy time: when the slot the search returns
    is written to the store as a new event, with its start and end in
    [isoformat()], the extraction returns for both stores, and the busy
    intervals of the day are the old ones and that slot. *)
Theorem placement_becomes_busy (events : list event) (day : date)
    (proposed_start : datetime) (duration_min : Z) (s e : datetime)
    (new_id title : string) (tags : list string) (description : string)
    (extended : jval) :
  date_ok day -> 0 < duration_min ->
  @find_next_free_slot iso_standard_grammar events day (Naive proposed_start)
     duration_min
  = Return (Naive s, Naive e) ->
  exists intervals intervals',
    @_busy_intervals_for_date iso_standard_grammar events day = Return intervals
    /\ @_busy_intervals_for_date iso_standard_grammar
         (events ++ [new_event new_id title tags description extended s e]) day
       = Return intervals'
    /\ Permutation intervals' ((Naive s, Naive e) :: intervals).
Proof. apply stored_placement. Qed.

Lemma placement_becomes_busy_witness :
  let day := mkdate 2024 1 1 in
  let events := [timed_event "2024-01-01T09:00:00" "2024-01-01T10:00:00"] in
  exists intervals intervals',
    _busy_intervals_for_date events day = Return intervals
    /\ _busy_intervals_for_date
         (events ++ [new_event "a1" "Run" ["Fitness"] "" JNull
                       (datetime_combine day (mktime 10 0 0 0))
                       (datetime_combine day (mktime 10 45 0 0))]) day
       = Return intervals'
    /\ Permutation intervals'
         ((Naive (datetime_combine day (mktime 10 0 0 0)),
           Naive (datetime_combine day (mktime 10 45 0 0))) :: intervals).
Proof.
  apply (placement_becomes_busy
           [timed_event "2024-01-01T09:00:00" "2024-01-01T10:00:00"]
           (mkdate 2024 1 1) (datetime_combine (mkdate 2024 1 1) (mktime 9 30 0 0)) 45).
  - reflexivity.
  - lia.
  - vm_compute. reflexivity.
Defined.

(** X13. Two placements in a row do not collide: after a first slot is
    stored as a new event, a second search on the same day returns a
    window that does not overlap the first slot, unless it is the
    last-resort window at [latest_start] (or the day holds more than 200
    busy intervals). *)
Theorem placements_do_not_collide (events : list event) (day : date)
    (proposed1 proposed2 : datetime) (duration1 duration2 : Z)
    (s1 e1 : datetime) (s2 e2 : stamp)
    (new_id title : string) (tags : list string) (description : string)
    (extended : jval) (intervals : list (stamp * stamp)) :
  date_ok day -> 0 < duration1 -> 0 < duration2 ->
  let stored := events ++ [new_event new_id title tags description extended s1 e1] in
  @find_next_free_slot iso_standard_grammar events day (Naive proposed1) duration1
  = Return (Naive s1, Naive e1) ->
  @find_next_free_slot iso_standard_grammar stored day (Naive proposed2) duration2
  = Return (s2, e2) ->
  @_busy_intervals_for_date iso_standard_grammar stored day = Return intervals ->
  (length intervals <= 200)%nat ->
  s2 <> Naive (latest_start day duration2) ->
  _overlaps s2 e2 (Naive s1) (Naive e1) = Return false.
Proof.
  intros Hok H1 H2 stored Hrun1 Hrun2 Hint Hlen Hne.
  apply (free_unless_last_resort stored day proposed2 duration2 s2 e2 intervals
           Hok H2 Hint Hlen Hrun2 Hne).
  destruct (stored_placement events day proposed1 duration1 s1 e1
              new_id title tags description extended Hok H1 Hrun1)
    as (i0 & i1 & _ & Hb1 & Hperm).
  fold stored in Hb1. rewrite Hb1 in Hint. injection Hint as <-.
  apply (Permutation_in _ (Permutation_sym Hperm)). left; reflexivity.
Qed.

Lemma placements_do_not_collide_witness :
  let day := mkdate 2024 1 1 in
  _overlaps (Naive (datetime_combine day (mktime 10 45 0 0)))
            (Naive (datetime_combine day (mktime 11 45 0 0)))
            (Naive (datetime_combine day (mktime 10 0 0 0)))
            (Naive (datetime_combine day (mktime 10 45 0 0))) = Return false.
Proof.
  apply (placements_do_not_collide
           [timed_event "2024-01-01T09:00:00" "2024-01-01T10:00:00"]
           (mkdate 2024 1 1)
           (datetime_combine (mkdate 2024 1 1) (mktime 9 30 0 0))
           (datetime_combine (mkdate 2024 1 1) (mktime 9 30 0 0))
           45 60
           (datetime_combine (mkdate 2024 1 1) (mktime 10 0 0 0))
           (datetime_combine (mkdate 2024 1 1) (mktime 10 45 0 0))
           (Naive (datetime_combine (mkdate 2024 1 1) (mktime 10 45 0 0)))
           (Naive (datetime_combine (mkdate 2024 1 1) (mktime 11 45 0 0)))
           "a1" "Run" ["Fitness"] "" JNull
           [(Naive (datetime_combine (mkdate 2024 1 1) (mktime 9 0 0 0)),
             Naive (datetime_combine (mkdate 2024 1 1) (mktime 10 0 0 0)));
            (Naive (datetime_combine (mkdate 2024 1 1) (mktime 10 0 0 0)),
             Naive (datetime_combine (mkdate 2024 1 1) (mktime 10 45 0 0)))]).
  - reflexivity.
  - lia.
  - lia.
  - vm_compute. reflexivity.
  - vm_compute. reflexivity.
  - vm_compute. reflexivity.
  - vm_compute. lia.
  - vm_compute. discriminate.
Defined.

(** ** The event forms *)

Lemma time_us_range t : time_ok t -> 0 <= time_us t < US_PER_DAY.
Proof. intros (Hh & Hm & Hs & Hu). unfold time_us. unfold_us. lia. Qed.

(** X14. A manually entered event always has its end strictly after its
    start, and it starts on the chosen date: the end is the entered one
    when that is later than the start, and half an hour after the start
    otherwise (possibly on the next day). Only at the very end of the
    calendar, where that half hour does not exist, the form raises
    [OverflowError]. *)
Theorem manual_times_span (ev_date : date) (start_t end_t : time) :
  date_ok ev_date -> time_ok start_t -> time_ok end_t ->
  let sdt := datetime_combine ev_date start_t in
  (time_us start_t < time_us end_t ->
   manual_times ev_date start_t end_t = Return (sdt, datetime_combine ev_date end_t))
  /\ (time_us end_t <= time_us start_t ->
      sdt + 30 * US_PER_MINUTE <= MAX_US ->
      manual_times ev_date start_t end_t = Return (sdt, sdt + 30 * US_PER_MINUTE))
  /\ (time_us end_t <= time_us start_t ->
      MAX_US < sdt + 30 * US_PER_MINUTE ->
      manual_times ev_date start_t end_t = Raise OverflowError)
  /\ (forall s e, manual_times ev_date start_t end_t = Return (s, e) ->
                  s < e /\ 0 <= s /\ e <= MAX_US /\ datetime_date s = ev_date).
Proof.
  intros Hok Hs He sdt.
  assert (Hds := day_start_range ev_date Hok).
  assert (Hts := time_us_range _ Hs). assert (Hte := time_us_range _ He).
  assert (Hsdt : sdt = day_start ev_date + time_us start_t).
  { subst sdt. unfold day_start, datetime_combine. cbn [time_us hour minute second microsecond].
    unfold time_us at 2. cbn. lia. }
  assert (Hedt : datetime_combine ev_date end_t = day_start ev_date + time_us end_t).
  { unfold day_start, datetime_combine. unfold time_us at 2. cbn. lia. }
  assert (Hlate : time_us start_t < time_us end_t ->
                  manual_times ev_date start_t end_t
                  = Return (sdt, datetime_combine ev_date end_t)).
  { intros Hlt. unfold manual_times. fold sdt.
    replace (datetime_combine ev_date end_t <=? sdt) with false
      by (symmetry; apply Z.leb_gt; lia). reflexivity. }
  assert (Hearly : time_us end_t <= time_us start_t ->
                   manual_times ev_date start_t end_t
                   = if datetime_ok (sdt + 30 * US_PER_MINUTE)
                     then Return (sdt, sdt + 30 * US_PER_MINUTE)
                     else Raise OverflowError).
  { intros Hle. unfold manual_times. fold sdt.
    replace (datetime_combine ev_date end_t <=? sdt) with true
      by (symmetry; apply Z.leb_le; lia).
    rewrite timedelta_minutes_ok by (unfold_us; lia). cbn [bind].
    unfold datetime_add. destruct (datetime_ok (sdt + 30 * US_PER_MINUTE)); reflexivity. }
  split; [exact Hlate|]. split; [|split].
  - intros Hle Hin. rewrite (Hearly Hle).
    replace (datetime_ok (sdt + 30 * US_PER_MINUTE)) with true
      by (symmetry; apply datetime_ok_iff; unfold_us; lia). reflexivity.
  - intros Hle Hout. rewrite (Hearly Hle).
    replace (datetime_ok (sdt + 30 * US_PER_MINUTE)) with false; [reflexivity|].
    symmetry. apply not_true_iff_false. rewrite datetime_ok_iff. lia.
  - intros s e Hrun.
    assert (Hdate : datetime_date sdt = ev_date)
      by (apply datetime_date_inside; [exact Hok|lia]).
    destruct (Z_lt_dec (time_us start_t) (time_us end_t)) as [Hlt|Hge].
    + rewrite (Hlate Hlt) in Hrun. injection Hrun as <- <-.
      repeat split; try exact Hdate; unfold_us; lia.
    + rewrite (Hearly ltac:(lia)) in Hrun.
      destruct (datetime_ok (sdt + 30 * US_PER_MINUTE)) eqn:E; [|discriminate].
      apply datetime_ok_iff in E. injection Hrun as <- <-.
      repeat split; try exact Hdate; unfold_us; lia.
Qed.

Lemma manual_times_span_witness :
  manual_times (mkdate 2024 1 5) (mktime 23 45 0 0) (mktime 10 0 0 0)
  = Return (datetime_combine (mkdate 2024 1 5) (mktime 23 45 0 0),
            datetime_combine (mkdate 2024 1 5) (mktime 23 45 0 0) + 30 * US_PER_MINUTE).
Proof.
  apply (proj1 (proj2 (manual_times_span (mkdate 2024 1 5) (mktime 23 45 0 0)
                         (mktime 10 0 0 0) eq_refl
                         ltac:(unfold time_ok; cbn; lia) ltac:(unfold time_ok; cbn; lia)))).
  - vm_compute. discriminate.
  - vm_compute. discriminate.
Defined.

(** ** Feedback helpers *)

Section Feedback.

Context `{G : IsoGrammar}.

(** X15. An event needs feedback on the day its start falls on and on no
    other: every record that counts as busy time of a day occurs on that
    day, a record occurs on at most one day, and records without an
    ["end"], tasks, and records whose start is the text of a date alone
    occur on no day. *)
Theorem event_occurs_on_day_cases (ev : event) (on : date) :
  (forall s e, is_busy_on on ev s e -> _event_occurs_on_day ev on = true)
  /\ (forall day', _event_occurs_on_day ev on = true ->
                   _event_occurs_on_day ev day' = true -> on = day')
  /\ (ev !! "end" = None -> _event_occurs_on_day ev on = false)
  /\ (get ev "kind" <> JStr "event" -> _event_occurs_on_day ev on = false)
  /\ (forall d, date_ok d -> ev !! "start" = Some (JStr (iso_date d)) ->
                _event_occurs_on_day ev on = false).
Proof.
  unfold _event_occurs_on_day. split; [|split; [|split; [|split]]].
  - intros s e (Hk & _ & Hs & He & Hd & _).
    rewrite Hk, Hs, He. cbn. apply date_eqb_eq. exact Hd.
  - intros day'.
    destruct (negb (eq_str (get ev "kind") "event")); [discriminate|].
    destruct (_parse_iso_dt (get_default ev "start" (JStr ""))) as [s|]; [|discriminate].
    destruct (_parse_iso_dt (get_default ev "end" (JStr ""))) as [e|]; [|discriminate].
    intros H1 H2. apply date_eqb_eq in H1, H2. congruence.
  - intros Hend. unfold get_default. rewrite Hend. cbn [default from_option id].
    destruct (negb (eq_str (get ev "kind") "event")); [reflexivity|].
    destruct (_parse_iso_dt (default (JStr "") (ev !! "start"))); reflexivity.
  - intros Hk.
    destruct (eq_str (get ev "kind") "event") eqn:E; [|reflexivity].
    apply eq_str_true in E. contradiction.
  - intros d Hd Hstart. unfold get_default. rewrite Hstart. cbn [default from_option id].
    assert (Hnone : _parse_iso_dt (JStr (iso_date d)) = None).
    { destruct d as [y m dd]. assert (Hf := check_date_fields_inv _ _ _ Hd).
      cbn [year month day] in Hf. destruct Hf as (Hy & Hm & Hdd).
      assert (Hr := days_in_month_range y m Hm).
      unfold _parse_iso_dt.
      replace (str_contains "T" (iso_date (mkdate y m dd))) with false; [reflexivity|].
      symmetry. unfold iso_date, date_isoformat. cbn [year month day].
      rewrite !fmt_d_dec by (cbn; lia). cbn [dec_digits]. push_append.
      rewrite !str_contains_skip
        by (first [apply digit_char_letter; [dlia|reflexivity]|discriminate]).
      reflexivity. }
    rewrite Hnone. destruct (negb (eq_str (get ev "kind") "event")); reflexivity.
Qed.

End Feedback.

Lemma event_occurs_on_day_cases_witness :
  _event_occurs_on_day (timed_event "2024-01-01T23:30:00" "2024-01-02T00:30:00")
                       (mkdate 2024 1 1) = true.
Proof.
  apply (proj1 (event_occurs_on_day_cases
                  (timed_event "2024-01-01T23:30:00" "2024-01-02T00:30:00")
                  (mkdate 2024 1 1))
               (datetime_combine (mkdate 2024 1 1) (mktime 23 30 0 0))
               (datetime_combine (mkdate 2024 1 2) (mktime 0 30 0 0))).
  repeat split; vm_compute; reflexivity.
Defined.

Lemma append_inj_same_length (a b x y : string) :
  String.length x = String.length y ->
  (a ++ x = b ++ y)%string -> a = b /\ x = y.
Proof.
  revert b. induction a as [|c a IH]; intros b Hlen Heq.
  - destruct b as [|c' b]; [split; [reflexivity|exact Heq]|].
    exfalso. rewrite append_nil_l in Heq. subst x.
    rewrite append_cons in Hlen. cbn [String.length] in Hlen.
    rewrite append_length in Hlen. lia.
  - destruct b as [|c' b].
    + exfalso. rewrite append_nil_l in Heq. subst y.
      rewrite append_cons in Hlen. cbn [String.length] in Hlen.
      rewrite append_length in Hlen. lia.
    + rewrite !append_cons in Heq. injection Heq as -> Heq.
      destruct (IH b Hlen Heq) as [-> ->]. split; reflexivity.
Qed.

Lemma date_isoformat_length d : date_ok d -> String.length (date_isoformat d) = 10%nat.
Proof.
  destruct d as [y m d]. intros Hok. assert (Hf := check_date_fields_inv _ _ _ Hok).
  cbn [year month day] in Hf. destruct Hf as (Hy & Hm & Hd).
  assert (Hr := days_in_month_range y m Hm).
  unfold date_isoformat. cbn [year month day].
  rewrite !fmt_d_dec by (cbn; lia).
  rewrite !append_length, !dec_digits_length. reflexivity.
Qed.

(** X16. Occurrence keys do not collide: two keys are equal only for the
    same event id and the same day, whatever characters the ids hold. *)
Theorem occurrence_key_inj (id1 id2 : string) (day1 day2 : date) :
  date_ok day1 -> date_ok day2 ->
  _occurrence_key id1 day1 = _occurrence_key id2 day2 ->
  id1 = id2 /\ day1 = day2.
Proof.
  intros H1 H2 Heq. unfold _occurrence_key in Heq.
  apply append_inj_same_length in Heq.
  - destruct Heq as [Hid Hrest]. split; [exact Hid|].
    rewrite !append_cons, !append_nil_l in Hrest. injection Hrest as Hiso.
    apply date_isoformat_inj; assumption.
  - rewrite !append_length, !date_isoformat_length by assumption. reflexivity.
Qed.

Lemma occurrence_key_inj_witness :
  "a::b" = "a::b"%string /\ mkdate 2024 1 5 = mkdate 2024 1 5.
Proof.
  apply (occurrence_key_inj "a::b" "a::b" (mkdate 2024 1 5) (mkdate 2024 1 5));
    reflexivity.
Defined.

(** ** The overlap predicate, again *)

(** X17. For two non-empty intervals of naive values the predicate says
    exactly that they share an instant, and it does not depend on the
    order of the two intervals. *)
Theorem overlaps_common_instant (a_start a_end b_start b_end : datetime) :
  a_start < a_end -> b_start < b_end ->
  (_overlaps (Naive a_start) (Naive a_end) (Naive b_start) (Naive b_end) = Return true
   <-> exists t, a_start <= t < a_end /\ b_start <= t < b_end)
  /\ _overlaps (Naive a_start) (Naive a_end) (Naive b_start) (Naive b_end)
     = _overlaps (Naive b_start) (Naive b_end) (Naive a_start) (Naive a_end).
Proof.
  intros Ha Hb. rewrite !overlaps_lift. unfold overlaps_naive. split.
  - split.
    + intros [= H]. rewrite andb_true_iff, Z.ltb_lt, Z.gtb_lt in H.
      exists (Z.max a_start b_start). lia.
    + intros (t & H1 & H2). f_equal. rewrite andb_true_iff, Z.ltb_lt, Z.gtb_lt. lia.
  - f_equal. rewrite !Z.gtb_ltb. apply andb_comm.
Qed.

Lemma overlaps_common_instant_witness :
  _overlaps (Naive 0) (Naive 10) (Naive 5) (Naive 15) = Return true
  <-> exists t, 0 <= t < 10 /\ 5 <= t < 15.
Proof. apply (overlaps_common_instant 0 10 5 15); lia. Defined.

(** ** Typed times *)

Lemma parses_to_spec text h m fallback :
  parses_to text h m = true ->
  _parse_time_12h (JStr text) fallback = mktime h m 0 0.
Proof.
  unfold parses_to. rewrite parse_time_12h_normalize.
  destruct (first_parse (normalize text)) as [[th tm ts tu]|]; [|discriminate].
  cbn [hour minute second microsecond default from_option id].
  rewrite !andb_true_iff, !Z.eqb_eq. intros [[[-> ->] ->] ->]. reflexivity.
Qed.

Lemma fmt_time_table :
  forallb (fun k => parses_to (_fmt_time (mktime (k / 60) (k mod 60) 0 0)) (k / 60) (k mod 60))
          (map Z.of_nat (seq 0 1440)) = true.
Proof. vm_compute. reflexivity. Qed.

Lemma clock_text_table :
  forallb (fun k => parses_to (clock_text (k / 60) (k mod 60)) (k / 60) (k mod 60))
          (map Z.of_nat (seq 0 1440)) = true.
Proof. vm_compute. reflexivity. Qed.

Lemma minute_of_day_split h m :
  0 <= h <= 23 -> 0 <= m <= 59 ->
  0 <= h * 60 + m < 1440 /\ (h * 60 + m) / 60 = h /\ (h * 60 + m) mod 60 = m.
Proof. intros Hh Hm. dlia. Qed.

(** X18. The text the planner shows for a time reads back as that time:
    whatever [_fmt_time] writes ("9:05 AM", "12:00 AM", "11:59 PM"),
    [_parse_time_12h] parses to the same hour and minute, never to the
    fallback. *)
Theorem parse_time_12h_fmt_time (t fallback : time) :
  time_ok t ->
  _parse_time_12h (JStr (_fmt_time t)) fallback = mktime (hour t) (minute t) 0 0.
Proof.
  intros (Hh & Hm & _). apply parses_to_spec.
  destruct (minute_of_day_split _ _ Hh Hm) as (Hk & Hq & Hr).
  assert (Ht := forallb_range _ _ fmt_time_table (hour t * 60 + minute t) ltac:(lia)).
  cbv beta in Ht. rewrite Hq, Hr in Ht. exact Ht.
Qed.

Lemma parse_time_12h_fmt_time_witness :
  _parse_time_12h (JStr (_fmt_time (mktime 0 5 30 0))) (mktime 9 0 0 0) = mktime 0 5 0 0.
Proof.
  apply (parse_time_12h_fmt_time (mktime 0 5 30 0) (mktime 9 0 0 0)).
  unfold time_ok; cbn; lia.
Defined.

(** X19. A time typed on the 24-hour clock, two digits for the hour and
    for the minute, parses to itself: the four 12-hour patterns reject it
    and the last pattern reads it. *)
Theorem parse_time_12h_clock_text (h m : Z) (fallback : time) :
  0 <= h <= 23 -> 0 <= m <= 59 ->
  _parse_time_12h (JStr (clock_text h m)) fallback = mktime h m 0 0.
Proof.
  intros Hh Hm. apply parses_to_spec.
  destruct (minute_of_day_split _ _ Hh Hm) as (Hk & Hq & Hr).
  assert (Ht := forallb_range _ _ clock_text_table (h * 60 + m) ltac:(lia)).
  cbv beta in Ht. rewrite Hq, Hr in Ht. exact Ht.
Qed.

Lemma parse_time_12h_clock_text_witness :
  _parse_time_12h (JStr (clock_text 17 45)) (mktime 9 0 0 0) = mktime 17 45 0 0.
Proof. apply (parse_time_12h_clock_text 17 45 (mktime 9 0 0 0)); lia. Defined.

Lemma time_new_ok h m t : time_new h m = Return t -> time_ok t /\ second t = 0 /\ microsecond t = 0.
Proof.
  unfold time_new.
  destruct ((0 <=? h) && (h <=? 23) && (0 <=? m) && (m <=? 59)) eqn:E; [|discriminate].
  rewrite !andb_true_iff, !Z.leb_le in E. intros [= <-].
  unfold time_ok. cbn. lia.
Qed.

Lemma first_parse_ok text : forall t,
  first_parse text = Some t -> time_ok t /\ second t = 0 /\ microsecond t = 0.
Proof.
  unfold first_parse. generalize candidates as fmts.
  induction fmts as [|fmt rest IH]; intros t; cbn [flat_map]; [discriminate|].
  destruct (strptime_time text fmt) as [u|e] eqn:E; cbn [app].
  - intros [= <-]. apply strptime_time_range in E. exact (time_new_ok _ _ _ E).
  - apply IH.
Qed.

(** X20. Whatever is typed, the form gets a valid time: the parsed value
    is either the fallback itself or a time of day with an hour in 0..23,
    a minute in 0..59 and no seconds. *)
Theorem parse_time_12h_valid (v : jval) (fallback : time) :
  time_ok fallback ->
  time_ok (_parse_time_12h v fallback)
  /\ (_parse_time_12h v fallback = fallback
      \/ second (_parse_time_12h v fallback) = 0
         /\ microsecond (_parse_time_12h v fallback) = 0).
Proof.
  intros Hfb. destruct v as [| | |s| |]; try (split; [exact Hfb|left; reflexivity]).
  rewrite parse_time_12h_normalize.
  destruct (first_parse (normalize s)) as [t|] eqn:E; cbn [default from_option id].
  - destruct (first_parse_ok _ _ E) as (Hok & Hs & Hu). split; [exact Hok|right; auto].
  - split; [exact Hfb|left; reflexivity].
Qed.

Lemma parse_time_12h_valid_witness :
  time_ok (_parse_time_12h (JStr "25:99") (mktime 10 0 0 0)).
Proof.
  apply (proj1 (parse_time_12h_valid (JStr "25:99") (mktime 10 0 0 0)
                  ltac:(unfold time_ok; cbn; lia))).
Defined.

(** ** The history of a tag, again *)

Lemma eq_str_refl s : eq_str (JStr s) s = true.
Proof. apply String.eqb_refl. Qed.

Lemma bad_tags_dec (ev : event) : {bad_tags ev} + {~ bad_tags ev}.
Proof.
  unfold bad_tags, tags_not_iterable.
  destruct (eq_str (get ev "kind") "event") eqn:Ek.
  - apply eq_str_true in Ek.
    destruct (get ev "tags") as [|[]|n|s|l|l];
      try (left; split; [exact Ek|exact I]);
      try (right; intros [_ []]; fail).
    destruct (Z.eq_dec n 0) as [->|Hn]; [right; intros [_ H]; apply H; reflexivity|].
    left. split; assumption.
  - right. intros [Hk _]. rewrite Hk, eq_str_refl in Ek. discriminate.
Qed.

Lemma tag_lookup_raises tag ev :
  tags_not_iterable ev -> py_in tag (py_or (get ev "tags") (JArr [])) = Raise TypeError.
Proof.
  unfold tags_not_iterable, py_or.
  destruct (get ev "tags") as [|[]|n|s|l|l]; intros H; try (destruct H; fail).
  - reflexivity.
  - cbn [truthy]. replace (n =? 0) with false by (symmetry; apply Z.eqb_neq; exact H).
    reflexivity.
Qed.

Lemma tag_lookup_returns tag ev :
  ~ tags_not_iterable ev ->
  exists found, py_in tag (py_or (get ev "tags") (JArr [])) = Return found.
Proof.
  unfold tags_not_iterable, py_or.
  destruct (get ev "tags") as [|[]|n|s|l|l]; intros H; cbn [truthy].
  - eexists; reflexivity.
  - exfalso; apply H; exact I.
  - eexists; reflexivity.
  - destruct (Z.eq_dec n 0) as [->|Hn]; [eexists; reflexivity|contradiction].
  - destruct (negb (String.eqb s "")); eexists; reflexivity.
  - destruct l; eexists; reflexivity.
  - destruct l; eexists; reflexivity.
Qed.

(** The loop either meets a record with unsearchable tags and raises
    [TypeError], or runs to its end. *)
Lemma history_mins_cases events tag : forall mins,
  (Exists bad_tags events /\ history_mins events tag mins = Raise TypeError)
  \/ (Forall (fun ev => ~ bad_tags ev) events
      /\ exists l, history_mins events tag mins = Return l).
Proof.
  induction events as [|ev rest IH]; intros mins.
  - right. split; [constructor|]. eexists; reflexivity.
  - destruct (bad_tags_dec ev) as [Hbad|Hgood].
    + left. split; [apply Exists_cons_hd; exact Hbad|].
      destruct Hbad as [Hk Ht]. cbn [history_mins].
      rewrite Hk, eq_str_refl. cbn [negb].
      rewrite (tag_lookup_raises tag ev Ht). reflexivity.
    + assert (Hany : forall mins',
                 (Exists bad_tags (ev :: rest)
                  /\ history_mins rest tag mins' = Raise TypeError)
                 \/ (Forall (fun ev => ~ bad_tags ev) (ev :: rest)
                     /\ exists l, history_mins rest tag mins' = Return l)).
      { intros mins'. destruct (IH mins') as [[Hex Hr]|[Hall Hr]].
        - left. split; [apply Exists_cons_tl; exact Hex|exact Hr].
        - right. split; [constructor; assumption|exact Hr]. }
      cbn [history_mins].
      destruct (eq_str (get ev "kind") "event") eqn:Ek; cbn [negb]; [|apply Hany].
      assert (Hit : ~ tags_not_iterable ev).
      { intros Ht. apply Hgood. split; [apply eq_str_true; exact Ek|exact Ht]. }
      destruct (tag_lookup_returns tag ev Hit) as [found Hf].
      rewrite Hf. cbn [bind].
      destruct found; cbn [negb]; [|apply Hany].
      destruct (get_default ev "start" (JStr "")) as [| | |start| |]; try apply Hany.
      destruct (str_contains "T" start && (16 <=? String.length start)%nat);
        [|apply Hany].
      destruct (start_minutes start); apply Hany.
Qed.

Lemma time_from_minutes_returns m : exists t, _time_from_minutes m = Return t.
Proof. eexists. apply time_from_minutes_spec. Qed.

(** X21. The only way the history suggestion fails is a record of kind
    "event" whose [tags] is a number or [true]: then, and only then, it
    raises, and what it raises is [TypeError]. Records of other kinds may
    carry any tags. *)
Theorem suggest_best_time_from_history_raises (events : list event) (tag : string) :
  (suggest_best_time_from_history events tag = Raise TypeError
   <-> exists ev, In ev events /\ get ev "kind" = JStr "event" /\ tags_not_iterable ev)
  /\ (forall e, suggest_best_time_from_history events tag = Raise e -> e = TypeError).
Proof.
  unfold suggest_best_time_from_history.
  destruct (history_mins_cases events tag []) as [[Hex Hr]|[Hall [l Hr]]]; rewrite Hr; cbn [bind].
  - split; [|intros e [= <-]; reflexivity].
    split; [intros _|reflexivity].
    apply List.Exists_exists in Hex. destruct Hex as (ev & Hin & Hk & Ht). eauto.
  - assert (Hret : exists t, match l with
                             | [] => Return (suggest_research_time tag)
                             | _ :: _ =>
                                 _time_from_minutes
                                   (inject_Z (sum l) / inject_Z (Z.of_nat (length l)))%Q
                             end = Return t).
    { destruct l; [eexists; reflexivity|apply time_from_minutes_returns]. }
    destruct Hret as [t Ht]. rewrite Ht.
    split; [|intros e; discriminate].
    split; [discriminate|].
    intros (ev & Hin & Hk & Hbad). exfalso.
    rewrite List.Forall_forall in Hall. apply (Hall ev Hin). split; assumption.
Qed.

Lemma suggest_best_time_from_history_raises_witness :
  suggest_best_time_from_history
    [tagged_event "Work" "2024-03-04T09:00:00";
     {[ "kind" := JStr "event"; "tags" := JNum 7 ]}] "Work" = Raise TypeError.
Proof.
  apply (proj2 (proj1 (suggest_best_time_from_history_raises
                         [tagged_event "Work" "2024-03-04T09:00:00";
                          {[ "kind" := JStr "event"; "tags" := JNum 7 ]}] "Work"))).
  exists {[ "kind" := JStr "event"; "tags" := JNum 7 ]}.
  split; [right; left; reflexivity|].
  split; [reflexivity|]. vm_compute. discriminate.
Defined.

Lemma sum_shift l : forall a, fold_left Z.add l a = a + sum l.
Proof.
  unfold sum. induction l as [|x r IH]; intros a; cbn [fold_left]; [lia|].
  rewrite (IH (a + x)), (IH (0 + x)). lia.
Qed.

Lemma sum_cons x l : sum (x :: l) = x + sum l.
Proof. unfold sum at 1. cbn [fold_left]. rewrite sum_shift. lia. Qed.

Lemma sum_between lo hi l :
  (forall v, In v l -> lo <= v <= hi) ->
  lo * Z.of_nat (length l) <= sum l <= hi * Z.of_nat (length l).
Proof.
  induction l as [|x r IH]; intros Hb.
  - cbn. lia.
  - rewrite sum_cons. cbn [length]. rewrite Nat2Z.inj_succ.
    assert (Hx := Hb x (or_introl eq_refl)).
    assert (Hr := IH (fun v Hv => Hb v (or_intror Hv))). lia.
Qed.

(** The suggestion as a function of the offsets found. *)
Lemma suggest_of_offsets events tag :
  Forall tags_ok events ->
  suggest_best_time_from_history events tag
  = match history_offsets events tag with
    | [] => Return (suggest_research_time tag)
    | _ :: _ =>
        _time_from_minutes
          (inject_Z (sum (history_offsets events tag))
           / inject_Z (Z.of_nat (length (history_offsets events tag))))%Q
    end.
Proof.
  intros Hok. unfold suggest_best_time_from_history.
  rewrite history_mins_app by exact Hok. cbn [bind app].
  destruct (history_offsets events tag); reflexivity.
Qed.

(** X22. The suggestion stays within the history: when every past start
    of the tag lies between the minutes [lo] and [hi] of the day, so does
    the suggested time, which carries no seconds. In particular a tag
    whose events all started at the same minute is suggested at that
    minute. *)
Theorem suggest_best_time_from_history_between (events : list event) (tag : string)
    (lo hi : Z) :
  Forall tags_ok events ->
  history_offsets events tag <> [] ->
  0 <= lo -> hi <= 1439 ->
  (forall v, In v (history_offsets events tag) -> lo <= v <= hi) ->
  exists t, suggest_best_time_from_history events tag = Return t
            /\ lo <= minute_of_day t <= hi
            /\ 0 <= minute t <= 59
            /\ second t = 0 /\ microsecond t = 0.
Proof.
  intros Hok Hne Hlo Hhi Hb. rewrite (suggest_of_offsets _ _ Hok).
  remember (history_offsets events tag) as l eqn:El. clear El.
  assert (Hlen : (0 < length l)%nat) by (destruct l; [congruence|cbn [length]; lia]).
  assert (Hs := sum_between lo hi l Hb).
  destruct l as [|x r]; [congruence|]. remember (x :: r) as l eqn:El. clear El.
  destruct (time_from_minutes_spec
              (inject_Z (sum l) / inject_Z (Z.of_nat (length l)))%Q) as [Ht Hc].
  rewrite int_of_mean in Ht, Hc by exact Hlen.
  eexists. split; [exact Ht|].
  set (n := Z.of_nat (length l)) in *. assert (Hn : 0 < n) by (subst n; lia).
  assert (Hq : lo <= Z.quot (sum l) n <= hi).
  { rewrite Z.quot_div_nonneg by nia. split.
    - apply Z.div_le_lower_bound; lia.
    - apply Z.div_le_upper_bound; [lia|]. lia. }
  unfold clamp_minutes in *. unfold minute_of_day. cbn [hour minute second microsecond].
  rewrite Z.min_r, Z.max_r in * by lia.
  repeat split; dlia.
Qed.

Lemma suggest_best_time_from_history_between_witness :
  exists t, suggest_best_time_from_history
              [tagged_event "Work" "2024-03-04T09:00:00";
               tagged_event "Work" "2024-03-05T10:01:00"] "Work" = Return t
            /\ 540 <= minute_of_day t <= 601
            /\ 0 <= minute t <= 59
            /\ second t = 0 /\ microsecond t = 0.
Proof.
  apply (suggest_best_time_from_history_between
           [tagged_event "Work" "2024-03-04T09:00:00";
            tagged_event "Work" "2024-03-05T10:01:00"] "Work" 540 601).
  - repeat constructor.
  - vm_compute. discriminate.
  - lia.
  - lia.
  - intros v Hv. vm_compute in Hv. destruct Hv as [<-|[<-|[]]]; lia.
Defined.

Lemma sum_perm l l' : Permutation l l' -> sum l = sum l'.
Proof.
  induction 1 as [|x l l' _ IH|x y l|l l' l'' _ IH1 _ IH2].
  - reflexivity.
  - rewrite !sum_cons, IH. reflexivity.
  - rewrite !sum_cons. lia.
  - congruence.
Qed.

(** X23. The suggestion does not depend on the order of the store: on
    records that follow the data model, any rearrangement of the events
    gives the same suggested time. *)
Theorem suggest_best_time_from_history_order (events events' : list event) (tag : string) :
  Forall tags_ok events ->
  Permutation events events' ->
  suggest_best_time_from_history events tag = suggest_best_time_from_history events' tag.
Proof.
  intros Hok Hp.
  assert (Hok' : Forall tags_ok events').
  { rewrite List.Forall_forall in *. intros ev Hin. apply Hok.
    apply (Permutation_in ev (Permutation_sym Hp) Hin). }
  rewrite (suggest_of_offsets _ _ Hok), (suggest_of_offsets _ _ Hok').
  assert (Hpo : Permutation (history_offsets events tag) (history_offsets events' tag)).
  { unfold history_offsets. apply Permutation_flat_map. exact Hp. }
  assert (Hsum := sum_perm _ _ Hpo). assert (Hlen := Permutation_length Hpo).
  destruct (history_offsets events tag) as [|x r] eqn:E.
  - apply Permutation_nil in Hpo. rewrite Hpo. reflexivity.
  - destruct (history_offsets events' tag) as [|x' r'] eqn:E'.
    + apply Permutation_sym, Permutation_nil in Hpo. discriminate.
    + rewrite Hsum, Hlen. reflexivity.
Qed.

Lemma suggest_best_time_from_history_order_witness :
  suggest_best_time_from_history
    [tagged_event "Work" "2024-03-04T09:00:00"; tagged_event "Work" "2024-03-05T10:01:00"]
    "Work"
  = suggest_best_time_from_history
      [tagged_event "Work" "2024-03-05T10:01:00"; tagged_event "Work" "2024-03-04T09:00:00"]
      "Work".
Proof.
  apply suggest_best_time_from_history_order.
  - repeat constructor.
  - apply perm_swap.
Defined.

(** ** Minutes to a time of day *)

Lemma quot_mono n d n' d' :
  0 < d -> 0 < d' -> n * d' <= n' * d -> Z.quot n d <= Z.quot n' d'.
Proof.
  intros Hd Hd' Hle.
  assert (Hpos : forall a b a' b', 0 <= a -> 0 < b -> 0 < b' -> a * b' <= a' * b ->
                                   a / b <= a' / b').
  { intros a b a' b' Ha Hb Hb' H.
    assert (H1 := Z.mul_div_le a b Hb).
    assert (H2 := Z.mul_succ_div_gt a' b' Hb').
    assert (H0 : 0 <= a / b) by (apply Z.div_pos; lia).
    destruct (Z_le_gt_dec (a / b) (a' / b')) as [|Hgt]; [assumption|exfalso].
    assert (b' * (a' / b' + 1) <= b' * (a / b)) by nia.
    assert (b * (b' * (a / b)) <= a * b') by nia.
    assert (a' * b < b * (b' * (a' / b' + 1))) by nia.
    nia. }
  assert (Hneg : forall a b, a < 0 -> 0 < b -> Z.quot a b = - (- a / b)).
  { intros a b Ha Hb. rewrite <- (Z.quot_div_nonneg (- a) b) by lia.
    rewrite Z.quot_opp_l by lia. lia. }
  destruct (Z_lt_le_dec n 0) as [Hn|Hn].
  - destruct (Z_lt_le_dec n' 0) as [Hn'|Hn'].
    + rewrite (Hneg n d Hn Hd), (Hneg n' d' Hn' Hd').
      assert (H := Hpos (- n') d' (- n) d ltac:(lia) Hd' Hd ltac:(lia)). lia.
    + rewrite (Hneg n d Hn Hd).
      assert (0 <= - n / d) by (apply Z.div_pos; lia).
      assert (0 <= Z.quot n' d') by (apply Z.quot_pos; lia). lia.
  - assert (0 <= n') by nia.
    rewrite !Z.quot_div_nonneg by lia. apply Hpos; assumption.
Qed.

(** X24. [_time_from_minutes] never raises; it is the inverse of reading
    the minute of the day off a time, puts everything below 0 at 00:00 and
    everything from 1439 on at 23:59, and keeps the order of its
    arguments. *)
Theorem time_from_minutes_clamps :
  (forall t, time_ok t ->
             _time_from_minutes (inject_Z (minute_of_day t))
             = Return (mktime (hour t) (minute t) 0 0))
  /\ (forall m, (m <= 0)%Q -> _time_from_minutes m = Return (mktime 0 0 0 0))
  /\ (forall m, (1439 <= m)%Q -> _time_from_minutes m = Return (mktime 23 59 0 0))
  /\ (forall m m', (m <= m')%Q ->
        exists t t', _time_from_minutes m = Return t /\ _time_from_minutes m' = Return t'
                     /\ time_ok t /\ time_ok t'
                     /\ minute_of_day t <= minute_of_day t').
Proof.
  assert (Hint : forall k, int_of_number (inject_Z k) = k).
  { intros k. unfold int_of_number, inject_Z. cbn [Qnum Qden]. apply Z.quot_1_r. }
  split; [|split; [|split]].
  - intros t (Hh & Hm & _).
    destruct (time_from_minutes_spec (inject_Z (minute_of_day t))) as [Ht _].
    rewrite Ht, Hint. unfold clamp_minutes, minute_of_day.
    rewrite Z.min_r, Z.max_r by lia.
    destruct (minute_of_day_split _ _ Hh Hm) as (_ & -> & ->). reflexivity.
  - intros m Hm. destruct (time_from_minutes_spec m) as [Ht _]. rewrite Ht.
    assert (Hq : int_of_number m <= 0).
    { unfold int_of_number. change 0 with (Z.quot 0 1).
      apply quot_mono; [lia|lia|]. unfold Qle in Hm. cbn in Hm. lia. }
    unfold clamp_minutes. rewrite Z.max_l by lia. reflexivity.
  - intros m Hm. destruct (time_from_minutes_spec m) as [Ht _]. rewrite Ht.
    assert (Hq : 1439 <= int_of_number m).
    { unfold int_of_number. change 1439 with (Z.quot 1439 1) at 1.
      apply quot_mono; [lia|lia|]. unfold Qle in Hm. cbn in Hm. lia. }
    unfold clamp_minutes. rewrite Z.min_l, Z.max_r by lia. reflexivity.
  - intros m m' Hle.
    destruct (time_from_minutes_spec m) as [Ht Hc].
    destruct (time_from_minutes_spec m') as [Ht' Hc'].
    eexists; eexists. split; [exact Ht|]. split; [exact Ht'|].
    assert (Hq : int_of_number m <= int_of_number m').
    { unfold int_of_number. apply quot_mono; [lia|lia|exact Hle]. }
    unfold time_ok, minute_of_day. cbn [hour minute second microsecond].
    unfold clamp_minutes in *.
    split; [dlia|]. split; [dlia|].
    assert (Z.max 0 (Z.min 1439 (int_of_number m))
            <= Z.max 0 (Z.min 1439 (int_of_number m'))) by lia.
    dlia.
Qed.

Lemma time_from_minutes_clamps_witness :
  _time_from_minutes (inject_Z (minute_of_day (mktime 13 7 42 0)))
  = Return (mktime 13 7 0 0).
Proof.
  apply (proj1 time_from_minutes_clamps (mktime 13 7 42 0)).
  unfold time_ok; cbn; lia.
Defined.

(** ** Reading back what the planner stored *)

Lemma substring_skip (a b : string) : forall n m,
  String.length a = n -> String.substring n m (a ++ b) = String.substring 0 m b.
Proof.
  induction a as [|c a IH]; intros n m Hn.
  - cbn in Hn. subst n. reflexivity.
  - cbn [String.length] in Hn. destruct n as [|n]; [discriminate|].
    rewrite append_cons. cbn [String.substring]. apply IH. lia.
Qed.

Lemma substring_head (a b : string) : forall m,
  String.length a = m -> String.substring 0 m (a ++ b) = a.
Proof.
  induction a as [|c a IH]; intros m Hm.
  - cbn in Hm. subst m. rewrite append_nil_l. destruct b; reflexivity.
  - cbn [String.length] in Hm. destruct m as [|m]; [discriminate|].
    rewrite append_cons. cbn [String.substring]. f_equal. apply IH. lia.
Qed.

Lemma slice_app (a b c : string) (i j : nat) :
  String.length a = i -> (i + String.length b = j)%nat ->
  slice (a ++ b ++ c) i j = b.
Proof.
  intros Hi Hj. unfold slice. rewrite (substring_skip a _ i _ Hi).
  apply substring_head. lia.
Qed.

(** The shape of a timestamp written by [isoformat()]. *)
Lemma datetime_isoformat_shape x :
  0 <= x <= MAX_US ->
  exists tail,
    datetime_isoformat x
    = (date_isoformat (datetime_date x) ++ "T"
       ++ dec_digits 2 (hour (datetime_time x)) ++ ":"
       ++ dec_digits 2 (minute (datetime_time x)) ++ ":"
       ++ dec_digits 2 (second (datetime_time x)) ++ tail)%string
    /\ String.length (date_isoformat (datetime_date x)) = 10%nat.
Proof.
  intros Hx. destruct (datetime_parts x Hx) as (Hok & Hh & Hm & Hs & Hu & _).
  eexists. split; [|apply date_isoformat_length; exact Hok].
  unfold datetime_isoformat, time_isoformat.
  rewrite !fmt_d_dec by pow_lia. push_append. reflexivity.
Qed.

Lemma py_int_table :
  forallb (fun k => match py_int (dec_digits 2 k) with
                    | Some v => v =? k
                    | None => false
                    end) (map Z.of_nat (seq 0 100)) = true.
Proof. vm_compute. reflexivity. Qed.

(** [int] skips white space, but not the separators that [str.strip]
    removes as well. *)
Lemma py_int_white_space :
  py_int " 9 " = Some 9 /\ py_int (String "028" "9") = None
  /\ strip (String "028" "9") = "9"%string.
Proof. repeat split; reflexivity. Qed.

Lemma py_int_dec k : 0 <= k < 100 -> py_int (dec_digits 2 k) = Some k.
Proof.
  intros Hk. assert (H := forallb_range _ _ py_int_table k ltac:(lia)). cbv beta in H.
  destruct (py_int (dec_digits 2 k)) as [v|]; [|discriminate].
  apply Z.eqb_eq in H. congruence.
Qed.

Lemma str_contains_T_isoformat x : str_contains "T" (datetime_isoformat x) = true.
Proof.
  unfold datetime_isoformat. apply str_contains_app_l.
  rewrite append_cons. apply str_contains_here.
Qed.

Lemma datetime_isoformat_length x :
  0 <= x <= MAX_US -> (19 <= String.length (datetime_isoformat x))%nat.
Proof.
  intros Hx. destruct (datetime_isoformat_shape x Hx) as (tail & -> & Hlen).
  rewrite !append_length, Hlen, !dec_digits_length. cbn [String.length]. lia.
Qed.

Lemma start_minutes_isoformat x :
  0 <= x <= MAX_US ->
  start_minutes (datetime_isoformat x) = Some (minute_of_day (datetime_time x)).
Proof.
  intros Hx. destruct (datetime_parts x Hx) as (Hok & Hh & Hm & Hs & Hu & _).
  destruct (datetime_isoformat_shape x Hx) as (tail & Hshape & Hlen).
  unfold start_minutes.
  assert (H1 : slice (datetime_isoformat x) 11 13 = dec_digits 2 (hour (datetime_time x))).
  { rewrite Hshape.
    rewrite <- (append_assoc_str (date_isoformat _) "T").
    apply slice_app; [rewrite append_length, Hlen; reflexivity|].
    rewrite dec_digits_length. reflexivity. }
  assert (H2 : slice (datetime_isoformat x) 14 16
               = dec_digits 2 (minute (datetime_time x))).
  { rewrite Hshape.
    rewrite <- (append_assoc_str (dec_digits 2 (hour _)) ":").
    rewrite <- (append_assoc_str "T").
    rewrite <- (append_assoc_str (date_isoformat _)).
    apply slice_app; [rewrite !append_length, Hlen, dec_digits_length; reflexivity|].
    rewrite dec_digits_length. reflexivity. }
  rewrite H1, H2, !py_int_dec by lia. reflexivity.
Qed.

Lemma start_offset_new_event new_id title tags description extended s e :
  0 <= s <= MAX_US ->
  start_offset (new_event new_id title tags description extended s e)
  = Some (minute_of_day (datetime_time s)).
Proof.
  intros Hs. unfold start_offset.
  replace (get_default (new_event new_id title tags description extended s e)
                       "start" (JStr "")) with (JStr (datetime_isoformat s))
    by reflexivity.
  rewrite str_contains_T_isoformat.
  assert (Hl := datetime_isoformat_length s Hs).
  replace (16 <=? String.length (datetime_isoformat s))%nat with true
    by (symmetry; apply Nat.leb_le; lia).
  cbn [andb]. apply start_minutes_isoformat. exact Hs.
Qed.

Lemma has_tag_new_event tag new_id title tags description extended s e :
  has_tag tag (new_event new_id title tags description extended s e)
  = existsb (String.eqb tag) tags.
Proof.
  unfold has_tag.
  replace (get (new_event new_id title tags description extended s e) "tags")
    with (JArr (map JStr tags)) by reflexivity.
  induction tags as [|t r IH]; [reflexivity|].
  cbn [map existsb eq_str]. rewrite IH, (String.eqb_sym t tag). reflexivity.
Qed.

(** X25. The history reads back what the planner stored: for an event the
    form wrote with the start [s], the offset the history sees is the hour
    and minute of [s], and the event counts for exactly the tags it was
    stored with. A store holding only that event suggests its own start
    time for each of its tags. *)
Theorem history_reads_stored_start (new_id title : string) (tags : list string)
    (description : string) (extended : jval) (s e : datetime) (tag : string) :
  0 <= s <= MAX_US ->
  let ev := new_event new_id title tags description extended s e in
  tags_ok ev
  /\ start_offset ev = Some (minute_of_day (datetime_time s))
  /\ has_tag tag ev = existsb (String.eqb tag) tags
  /\ (In tag tags ->
      suggest_best_time_from_history [ev] tag
      = Return (mktime (hour (datetime_time s)) (minute (datetime_time s)) 0 0))
  /\ (~ In tag tags ->
      suggest_best_time_from_history [ev] tag = Return (suggest_research_time tag)).
Proof.
  intros Hs ev.
  assert (Hok : tags_ok ev) by exact I.
  assert (Hoff := start_offset_new_event new_id title tags description extended s e Hs).
  assert (Htag := has_tag_new_event tag new_id title tags description extended s e).
  fold ev in Hoff, Htag.
  split; [exact Hok|]. split; [exact Hoff|]. split; [exact Htag|].
  assert (Hrun : suggest_best_time_from_history [ev] tag
                 = if existsb (String.eqb tag) tags
                   then _time_from_minutes
                          (inject_Z (minute_of_day (datetime_time s))
                           / inject_Z (Z.of_nat 1))%Q
                   else Return (suggest_research_time tag)).
  { unfold suggest_best_time_from_history.
    rewrite history_mins_app by (constructor; [exact Hok|constructor]).
    cbn [bind app history_offsets flat_map].
    replace (eq_str (get ev "kind") "event") with true by reflexivity.
    rewrite Htag, Hoff. cbn [andb].
    destruct (existsb (String.eqb tag) tags); [|reflexivity].
    reflexivity. }
  destruct (datetime_parts s Hs) as (_ & Hh & Hm & _).
  split.
  - intros Hin. rewrite Hrun.
    replace (existsb (String.eqb tag) tags) with true.
    2:{ symmetry. apply existsb_exists. exists tag. split; [exact Hin|].
        apply String.eqb_refl. }
    destruct (time_from_minutes_spec
                (inject_Z (minute_of_day (datetime_time s)) / inject_Z (Z.of_nat 1))%Q)
      as [Ht _].
    rewrite Ht, int_of_mean by lia. change (Z.of_nat 1) with 1. rewrite Z.quot_1_r.
    unfold clamp_minutes, minute_of_day. rewrite Z.min_r, Z.max_r by lia.
    destruct (minute_of_day_split _ _ Hh Hm) as (_ & -> & ->). reflexivity.
  - intros Hnin. rewrite Hrun.
    replace (existsb (String.eqb tag) tags) with false; [reflexivity|].
    symmetry. apply not_true_iff_false. intros Hex.
    apply existsb_exists in Hex. destruct Hex as (t & Hin & Heq).
    apply String.eqb_eq in Heq. subst t. contradiction.
Qed.

Lemma history_reads_stored_start_witness :
  suggest_best_time_from_history
    [new_event "e1" "Run" ["Fitness"] "" JNull
       (datetime_combine (mkdate 2024 3 4) (mktime 6 45 0 0))
       (datetime_combine (mkdate 2024 3 4) (mktime 7 30 0 0))] "Fitness"
  = Return (mktime 6 45 0 0).
Proof.
  apply (proj1 (proj2 (proj2 (proj2
           (history_reads_stored_start "e1" "Run" ["Fitness"] "" JNull
              (datetime_combine (mkdate 2024 3 4) (mktime 6 45 0 0))
              (datetime_combine (mkdate 2024 3 4) (mktime 7 30 0 0)) "Fitness"
              ltac:(vm_compute; split; discriminate)))))).
  left; reflexivity.
Defined.

(** ** The edit form *)

Lemma time_standard_hms hh mm ss :
  0 <= hh < 100 -> 0 <= mm < 100 -> 0 <= ss < 100 ->
  time_standard (dec_digits 2 hh ++ ":" ++ dec_digits 2 mm ++ ":" ++ dec_digits 2 ss)
  = Some (hh, mm, ss, 0).
Proof.
  intros Hh Hm Hs. unfold time_standard, iso_time.
  rewrite take_digits_dec by pow_lia. push_append.
  cbn [mbind option_bind expect Ascii.eqb Bool.eqb].
  rewrite take_digits_dec by pow_lia. push_append.
  cbn [mbind option_bind expect Ascii.eqb Bool.eqb].
  rewrite <- (append_nil_r (dec_digits 2 ss)).
  rewrite take_digits_dec by pow_lia. cbn [mbind option_bind].
  rewrite !Z.mul_0_l, !Z.add_0_l. reflexivity.
Qed.

Section EditForm.

Context `{T : TimeGrammar}.

Lemma safe_time_short (value : string) (fallback : time) :
  (String.length value < 19)%nat -> _safe_time_from_iso (JStr value) fallback = fallback.
Proof.
  intros Hlen. unfold _safe_time_from_iso.
  replace (19 <=? String.length value)%nat with false
    by (symmetry; apply Nat.leb_gt; exact Hlen).
  rewrite andb_false_r. reflexivity.
Qed.

End EditForm.

(** X26. The edit form shows the stored times: with the grammar of
    [isoformat()], a timestamp the planner wrote pre-fills the input with
    its hour, minute and second, microseconds dropped. Under any grammar a
    value that is not text, text shorter than 19 characters, and the text
    of a date alone (all-day events and tasks) give the fallback. *)
Theorem safe_time_from_iso_stored :
  (forall x fallback, 0 <= x <= MAX_US ->
      @_safe_time_from_iso time_standard_grammar (JStr (datetime_isoformat x)) fallback
      = mktime (hour (datetime_time x)) (minute (datetime_time x))
               (second (datetime_time x)) 0)
  /\ (forall (T : TimeGrammar) v fallback,
         (forall s, v <> JStr s) -> @_safe_time_from_iso T v fallback = fallback)
  /\ (forall (T : TimeGrammar) s fallback,
         (String.length s < 19)%nat -> @_safe_time_from_iso T (JStr s) fallback = fallback)
  /\ (forall (T : TimeGrammar) d fallback,
         date_ok d -> @_safe_time_from_iso T (JStr (iso_date d)) fallback = fallback).
Proof.
  split; [|split; [|split]].
  - intros x fallback Hx.
    destruct (datetime_parts x Hx) as (Hok & Hh & Hm & Hs & Hu & _).
    destruct (datetime_isoformat_shape x Hx) as (tail & Hshape & Hlen).
    unfold _safe_time_from_iso.
    rewrite str_contains_T_isoformat.
    assert (Hl := datetime_isoformat_length x Hx).
    replace (19 <=? String.length (datetime_isoformat x))%nat with true
      by (symmetry; apply Nat.leb_le; lia).
    cbn [andb].
    assert (Hslice : slice (datetime_isoformat x) 11 19
                     = (dec_digits 2 (hour (datetime_time x)) ++ ":"
                        ++ dec_digits 2 (minute (datetime_time x)) ++ ":"
                        ++ dec_digits 2 (second (datetime_time x)))%string).
    { rewrite Hshape.
      rewrite <- (append_assoc_str (date_isoformat _) "T").
      rewrite <- (append_assoc_str (dec_digits 2 (minute _)) ":").
      rewrite <- (append_assoc_str (dec_digits 2 (minute _) ++ ":")).
      rewrite <- (append_assoc_str ":" (_ ++ dec_digits 2 (second _))).
      rewrite <- (append_assoc_str (dec_digits 2 (hour _))).
      rewrite (slice_app _ _ tail 11 19).
      - push_append. reflexivity.
      - rewrite append_length, Hlen. reflexivity.
      - rewrite !append_length, !dec_digits_length. reflexivity. }
    rewrite Hslice. unfold time_fromisoformat, time_fields, time_standard_grammar.
    rewrite time_standard_hms by lia. unfold time_new_full.
    replace ((0 <=? hour (datetime_time x)) && (hour (datetime_time x) <=? 23)
             && (0 <=? minute (datetime_time x)) && (minute (datetime_time x) <=? 59)
             && (0 <=? second (datetime_time x)) && (second (datetime_time x) <=? 59)
             && (0 <=? 0) && (0 <=? 999999)) with true; [reflexivity|].
    symmetry. repeat (apply andb_true_intro; split); apply Z.leb_le; lia.
  - intros T v fallback Hv. destruct v; try reflexivity. exfalso. eapply Hv; reflexivity.
  - intros T s fallback Hlen. apply safe_time_short. exact Hlen.
  - intros T d fallback Hd. apply safe_time_short.
    unfold iso_date. rewrite date_isoformat_length by exact Hd. lia.
Qed.

Lemma safe_time_from_iso_stored_witness :
  _safe_time_from_iso (JStr (datetime_isoformat 63840042307001500)) (mktime 9 0 0 0)
  = mktime (hour (datetime_time 63840042307001500))
           (minute (datetime_time 63840042307001500))
           (second (datetime_time 63840042307001500)) 0.
Proof.
  apply (proj1 safe_time_from_iso_stored 63840042307001500 (mktime 9 0 0 0)).
  vm_compute. split; discriminate.
Defined.
